(** * CRM data-access layer: connection manager, schema bootstrap, query
      executor and entity repositories

    A shallow embedding of [crm_system/backend/database/db_config.py] and
    [crm_system/backend/database/models.py].

    The Python code talks to a MySQL server through [mysql.connector] and
    hashes passwords with [bcrypt].  Neither is part of the repository, so
    the development fixes a small executable model of both:

    - [Module Sql] is a relational engine for exactly the statement shapes the
      repository issues (CREATE TABLE IF NOT EXISTS, INSERT [IGNORE], UPDATE
      ... WHERE col = %s, SELECT ... JOIN ... WHERE col = %s ORDER BY col and
      SELECT LAST_INSERT_ID()), with the column types, NOT NULL, UNIQUE,
      AUTO_INCREMENT, DEFAULT and FOREIGN KEY clauses that the DDL of
      [init_database] uses.  Column references are resolved against the
      schema stored with each table, as the server does.
    - [Module Bcrypt] is the interface of the [bcrypt] package
      ([hashpw], [checkpw]) with the laws the package documents.

    The Python layer itself (singleton, executor, repositories, bootstrap) is
    written in a state-and-exception monad over a [world] holding the
    process's objects, the connection handles and the server.

    What the model of the environment assumes:
    - one process, one thread (the code has no locking);
    - the server runs in strict mode with a transactional engine: a rejected
      statement changes nothing, [rollback] restores the committed state,
      DDL commits implicitly, [autocommit] is off;
    - strings are byte strings; the server compares them under its
      collation, of which the development assumes only that it is an
      equivalence ([Collation]); every general statement holds for every
      collation, and the concrete runs use a case-insensitive one;
    - VARCHAR(n), ENUM and the ranges of INT and TINYINT are enforced on the
      cells a statement supplies; the size limit of TEXT is not, values are
      bound with the type of their column (no implicit conversion between
      strings and numbers), and an ENUM cell is matched byte-wise;
    - INSERT IGNORE skips a row that violates a key, and the skipped row has
      consumed its AUTO_INCREMENT value all the same; it is otherwise a plain
      INSERT (none of the seed rows needs more);
    - the AUTO_INCREMENT counter is part of the table and follows the
      transaction (no statement depends on the ids a rolled-back INSERT
      consumed), and it is not bounded: exhaustion of the counter is outside
      the model;
    - a FOREIGN KEY is accepted by CREATE TABLE when the parent table (or the
      table itself) has the referenced column, with a key on it and of the
      type of the referencing column, and is checked on INSERT and UPDATE
      against the table with the new row in it;
    - a cursor's [fetchall] on a statement without result set yields the empty
      list. *)

From Stdlib Require Import ZArith List String Ascii Bool Lia.
Import ListNotations.
Local Open Scope string_scope.
Local Open Scope Z_scope.
Local Open Scope list_scope.

(* ================================================================== *)
(** ** Values, dictionaries *)
(* ================================================================== *)

(** A cell of a result set or a bound parameter.  Dates, timestamps and
    booleans travel as integers (day or second ordinals, 0/1). *)
Inductive value : Type :=
| VNull
| VInt (z : Z)
| VStr (s : string).

Definition value_eqb (a b : value) : bool :=
  match a, b with
  | VNull, VNull => true
  | VInt x, VInt y => x =? y
  | VStr x, VStr y => String.eqb x y
  | _, _ => false
  end.

Lemma value_eqb_eq a b : value_eqb a b = true <-> a = b.
Proof.
  destruct a, b; simpl; split; intro H; try discriminate; try reflexivity.
  - apply Z.eqb_eq in H. now subst.
  - inversion H. apply Z.eqb_refl.
  - apply String.eqb_eq in H. now subst.
  - inversion H. apply String.eqb_refl.
Qed.

(** A Python [dict] with string keys: insertion-ordered, one entry per key. *)
Definition dict : Type := list (string * value).

Fixpoint dget (d : dict) (k : string) : option value :=
  match d with
  | [] => None
  | (k', v) :: d' => if String.eqb k k' then Some v else dget d' k
  end.

Fixpoint dset (d : dict) (k : string) (v : value) : dict :=
  match d with
  | [] => [(k, v)]
  | (k', v') :: d' =>
      if String.eqb k k' then (k', v) :: d' else (k', v') :: dset d' k v
  end.

Definition dget_or (d : dict) (k : string) (dflt : value) : value :=
  match dget d k with Some v => v | None => dflt end.

(* ================================================================== *)
(** ** The server's collation *)
(* ================================================================== *)

(** How the server compares two strings in [=], in UNIQUE keys and in
    WHERE: some equivalence on strings.  Which one is a matter of the
    server's configuration (the default collations ignore case), so the
    engine takes it as a parameter. *)
Class Collation : Type := mkCollation {
  collate_eqb : string -> string -> bool;
  collate_refl : forall s, collate_eqb s s = true;
  collate_sym : forall s t, collate_eqb s t = collate_eqb t s;
  collate_trans : forall s t u,
    collate_eqb s t = true -> collate_eqb t u = true -> collate_eqb s u = true
}.

(** A case-insensitive collation on the ASCII letters, for the concrete
    runs. *)
Definition lower (c : ascii) : ascii :=
  let n := nat_of_ascii c in
  if (Nat.leb 65 n && Nat.leb n 90)%bool then ascii_of_nat (n + 32) else c.

Fixpoint fold_case (s : string) : string :=
  match s with
  | EmptyString => EmptyString
  | String c s' => String (lower c) (fold_case s')
  end.

Definition ci_eqb (s t : string) : bool :=
  String.eqb (fold_case s) (fold_case t).

Lemma ci_refl s : ci_eqb s s = true.
Proof. apply String.eqb_refl. Qed.

Lemma ci_sym s t : ci_eqb s t = ci_eqb t s.
Proof. apply String.eqb_sym. Qed.

Lemma ci_trans s t u :
  ci_eqb s t = true -> ci_eqb t u = true -> ci_eqb s u = true.
Proof.
  unfold ci_eqb. rewrite !String.eqb_eq. congruence.
Qed.

Definition ascii_ci : Collation := mkCollation ci_eqb ci_refl ci_sym ci_trans.
#[global] Existing Instance ascii_ci | 100.

(* ================================================================== *)
(** ** The relational engine *)
(* ================================================================== *)

Module Sql.

(** Server error numbers used below. *)
Definition ER_BAD_PARAMS      : Z := -1.    (* driver: wrong number of parameters *)
Definition ER_BAD_NULL        : Z := 1048.
Definition ER_BAD_FIELD       : Z := 1054.
Definition ER_DUP_ENTRY       : Z := 1062.
Definition ER_WRONG_VALUE_COUNT : Z := 1136.
Definition ER_NO_SUCH_TABLE   : Z := 1146.
Definition ER_TRUNCATED       : Z := 1265.
Definition ER_WRONG_VALUE     : Z := 1366.
Definition ER_DATA_TOO_LONG   : Z := 1406.
Definition ER_OUT_OF_RANGE    : Z := 1264.
Definition ER_NO_REFERENCED_ROW : Z := 1452.

Inductive sqlres (A : Type) : Type :=
| SqlOk (a : A)
| SqlErr (errno : Z).
Arguments SqlOk {A} a.
Arguments SqlErr {A} errno.

Definition sbind {A B} (m : sqlres A) (k : A -> sqlres B) : sqlres B :=
  match m with SqlOk a => k a | SqlErr e => SqlErr e end.

Notation "x <-- m ;; k" := (sbind m (fun x => k))
  (at level 61, m at next level, right associativity).

(** Either succeed with unit or fail with [e]. *)
Definition require (b : bool) (e : Z) : sqlres unit :=
  if b then SqlOk tt else SqlErr e.

(** *** Schema *)

Inductive coltype : Type :=
| TInt
| TVarchar (n : nat)
| TText
| TBool
| TDate
| TTimestamp
| TEnum (vals : list string).

Inductive coldefault : Type :=
| DNull                      (* no DEFAULT clause *)
| DLit (v : value)           (* DEFAULT <literal> *)
| DCurrentTimestamp.         (* DEFAULT CURRENT_TIMESTAMP *)

Record column : Type := mkcol {
  cname : string;
  ctype : coltype;
  cnotnull : bool;           (* NOT NULL, or PRIMARY KEY *)
  cunique : bool;            (* UNIQUE, or PRIMARY KEY *)
  cauto : bool;              (* AUTO_INCREMENT *)
  cdefault : coldefault;
  conupdate : bool           (* ON UPDATE CURRENT_TIMESTAMP *)
}.

Record foreign_key : Type := mkfk {
  fk_col : string;
  fk_table : string;
  fk_ref : string
}.

Record table : Type := mktable {
  tcols : list column;
  tfks : list foreign_key;
  trows : list dict;         (* every row maps each column name to a cell *)
  tnext : Z                  (* next AUTO_INCREMENT value *)
}.

Definition database : Type := list (string * table).

Fixpoint find_table (db : database) (t : string) : option table :=
  match db with
  | [] => None
  | (n, tb) :: db' => if String.eqb t n then Some tb else find_table db' t
  end.

Fixpoint set_table (db : database) (t : string) (tb : table) : database :=
  match db with
  | [] => [(t, tb)]
  | (n, tb') :: db' =>
      if String.eqb t n then (n, tb) :: db' else (n, tb') :: set_table db' t tb
  end.

Definition rows_of (db : database) (t : string) : list dict :=
  match find_table db t with Some tb => trows tb | None => [] end.

Definition col_names (tb : table) : list string := map cname (tcols tb).

Definition has_col (tb : table) (c : string) : bool :=
  existsb (String.eqb c) (col_names tb).

(** *** Comparison *)

Section Collated.
Context `{coll : Collation}.

(** SQL [=]: never true on NULL.  Strings compare under the collation. *)
Definition sql_eq (a b : value) : bool :=
  match a, b with
  | VInt x, VInt y => x =? y
  | VStr x, VStr y => collate_eqb x y
  | _, _ => false
  end.

(** The order ORDER BY ... ASC sorts by: NULL first, then numbers, then
    strings. *)
Definition sql_leb (a b : value) : bool :=
  match a, b with
  | VNull, _ => true
  | _, VNull => false
  | VInt x, VInt y => x <=? y
  | VInt _, VStr _ => true
  | VStr _, VInt _ => false
  | VStr x, VStr y => String.leb x y
  end.

(** *** Expressions *)

Inductive expr : Type :=
| EParam (i : nat)           (* the i-th [%s] placeholder *)
| ELit (v : value)
| ENow                       (* CURRENT_TIMESTAMP *)
| ECol (a c : string)        (* alias.column *)
| EConcat (e1 e2 : expr).    (* CONCAT(e1, e2); CONCAT(a, b, c) nests *)

(** A row environment: the rows bound to the aliases of FROM and JOIN. *)
Definition env : Type := list (string * dict).

Fixpoint env_row (en : env) (a : string) : option dict :=
  match en with
  | [] => None
  | (a', r) :: en' => if String.eqb a a' then Some r else env_row en' a
  end.

Definition env_col (en : env) (a c : string) : value :=
  match env_row en a with
  | Some r => dget_or r c VNull
  | None => VNull
  end.

Fixpoint eval (en : env) (params : list value) (now : Z) (e : expr) : value :=
  match e with
  | EParam i => nth i params VNull
  | ELit v => v
  | ENow => VInt now
  | ECol a c => env_col en a c
  | EConcat e1 e2 =>
      match eval en params now e1, eval en params now e2 with
      | VStr x, VStr y => VStr (x ++ y)%string
      | _, _ => VNull
      end
  end.

(** The aliases in scope, each with its table's column names. *)
Definition scope : Type := list (string * list string).

Fixpoint scope_cols (sc : scope) (a : string) : option (list string) :=
  match sc with
  | [] => None
  | (a', cs) :: sc' => if String.eqb a a' then Some cs else scope_cols sc' a
  end.

Definition col_in_scope (sc : scope) (a c : string) : bool :=
  match scope_cols sc a with
  | Some cs => existsb (String.eqb c) cs
  | None => false
  end.

(** Name resolution of an expression: every column exists. *)
Fixpoint expr_ok (sc : scope) (e : expr) : bool :=
  match e with
  | ECol a c => col_in_scope sc a c
  | EConcat e1 e2 => expr_ok sc e1 && expr_ok sc e2
  | _ => true
  end.

Fixpoint expr_params (e : expr) : nat :=
  match e with
  | EParam _ => 1%nat
  | EConcat e1 e2 => (expr_params e1 + expr_params e2)%nat
  | _ => 0%nat
  end.

(** *** Statements *)

Inductive proj : Type :=
| PAll                         (* [*] *)
| PStar (a : string)           (* [a.*] *)
| PCol (a c : string)          (* [a.c], keyed [c] in the result *)
| PAs (e : expr) (name : string).  (* [e AS name] *)

Record join : Type := mkjoin {
  j_table : string;
  j_alias : string;
  j_left : string * string;    (* ON left = right *)
  j_right : string * string
}.

Record select_stmt : Type := mkselect {
  s_proj : list proj;
  s_table : string;
  s_alias : string;
  s_joins : list join;
  s_where : option ((string * string) * expr);   (* WHERE a.c = e *)
  s_order : option (string * string)             (* ORDER BY a.c ASC *)
}.

Inductive stmt : Type :=
| SSelect (s : select_stmt)
| SLastInsertId                                   (* SELECT LAST_INSERT_ID() *)
| SInsert (ignore : bool) (t : string) (cols : list string)
          (rows : list (list expr))
| SUpdate (t : string) (sets : list (string * expr)) (wc : string) (we : expr)
| SCreateTable (t : string) (cols : list column) (fks : list foreign_key).

Definition sum_nat (l : list nat) : nat := fold_right Nat.add 0%nat l.

(** The number of [%s] placeholders of a statement. *)
Definition stmt_params (q : stmt) : nat :=
  match q with
  | SSelect s =>
      (sum_nat (map (fun p => match p with PAs e _ => expr_params e
                                          | _ => 0%nat end) (s_proj s))
       + match s_where s with Some (_, e) => expr_params e | None => 0%nat end)%nat
  | SLastInsertId => 0%nat
  | SInsert _ _ _ rows => sum_nat (map (fun r => sum_nat (map expr_params r)) rows)
  | SUpdate _ sets _ we =>
      (sum_nat (map (fun s => expr_params (snd s)) sets) + expr_params we)%nat
  | SCreateTable _ _ _ => 0%nat
  end.

(** Does the statement produce a result set? *)
Definition is_query (q : stmt) : bool :=
  match q with
  | SSelect _ | SLastInsertId => true
  | _ => false
  end.

(** DDL commits implicitly on the server. *)
Definition is_ddl (q : stmt) : bool :=
  match q with
  | SCreateTable _ _ _ => true
  | _ => false
  end.

(** *** SELECT *)

Definition table_scope (db : database) (t a : string)
  : sqlres (string * list string) :=
  match find_table db t with
  | Some tb => SqlOk (a, col_names tb)
  | None => SqlErr ER_NO_SUCH_TABLE
  end.

Definition join_ok (sc : scope) (j : join) : bool :=
  col_in_scope sc (fst (j_left j)) (snd (j_left j))
  && col_in_scope sc (fst (j_right j)) (snd (j_right j)).

(** Tables of FROM and JOIN are opened in order, then the ON columns are
    resolved. *)
Fixpoint joins_scope (db : database) (js : list join) (sc : scope)
  : sqlres scope :=
  match js with
  | [] => SqlOk sc
  | j :: js' =>
      e <-- table_scope db (j_table j) (j_alias j) ;;
      joins_scope db js' (sc ++ [e])
  end.

Definition proj_ok (sc : scope) (p : proj) : bool :=
  match p with
  | PAll => true
  | PStar a => match scope_cols sc a with Some _ => true | None => false end
  | PCol a c => col_in_scope sc a c
  | PAs e _ => expr_ok sc e
  end.

Definition where_ok (sc : scope) (w : option ((string * string) * expr)) : bool :=
  match w with
  | None => true
  | Some ((a, c), e) => col_in_scope sc a c && expr_ok sc e
  end.

Definition order_ok (sc : scope) (o : option (string * string)) : bool :=
  match o with
  | None => true
  | Some (a, c) => col_in_scope sc a c
  end.

(** Name resolution of a SELECT: unknown table 1146, unknown column 1054. *)
Definition select_scope (db : database) (s : select_stmt) : sqlres scope :=
  e <-- table_scope db (s_table s) (s_alias s) ;;
  sc <-- joins_scope db (s_joins s) [e] ;;
  _ <-- require (forallb (proj_ok sc) (s_proj s)) ER_BAD_FIELD ;;
  _ <-- require (forallb (join_ok sc) (s_joins s)) ER_BAD_FIELD ;;
  _ <-- require (where_ok sc (s_where s)) ER_BAD_FIELD ;;
  _ <-- require (order_ok sc (s_order s)) ER_BAD_FIELD ;;
  SqlOk sc.

Definition from_envs (db : database) (s : select_stmt) : list env :=
  map (fun r => [(s_alias s, r)]) (rows_of db (s_table s)).

(** INNER JOIN: every pair whose ON columns are equal. *)
Definition join_envs (db : database) (ens : list env) (j : join) : list env :=
  flat_map
    (fun en =>
       map (fun r => en ++ [(j_alias j, r)])
         (filter
            (fun r =>
               let en' := en ++ [(j_alias j, r)] in
               sql_eq (env_col en' (fst (j_left j)) (snd (j_left j)))
                      (env_col en' (fst (j_right j)) (snd (j_right j))))
            (rows_of db (j_table j))))
    ens.

Definition where_envs (params : list value) (now : Z)
    (w : option ((string * string) * expr)) (ens : list env) : list env :=
  match w with
  | None => ens
  | Some ((a, c), e) =>
      filter (fun en => sql_eq (env_col en a c) (eval en params now e)) ens
  end.

Fixpoint insert_sorted (key : env -> value) (x : env) (l : list env) : list env :=
  match l with
  | [] => [x]
  | y :: l' =>
      if sql_leb (key x) (key y) then x :: l else y :: insert_sorted key x l'
  end.

Definition sort_envs (key : env -> value) (l : list env) : list env :=
  fold_right (insert_sorted key) [] l.

Definition order_envs (o : option (string * string)) (ens : list env) : list env :=
  match o with
  | None => ens
  | Some (a, c) => sort_envs (fun en => env_col en a c) ens
  end.

(** The columns [a.*] stands for, in schema order. *)
Definition star (sc : scope) (en : env) (a : string) (d : dict) : dict :=
  match scope_cols sc a with
  | Some cs => fold_left (fun acc c => dset acc c (env_col en a c)) cs d
  | None => d
  end.

(** One projection item added to the row dictionary (a dictionary cursor
    keeps one cell per column name). *)
Definition project_one (sc : scope) (params : list value) (now : Z) (en : env)
    (d : dict) (p : proj) : dict :=
  match p with
  | PAll => fold_left (fun acc ar => star sc en (fst ar) acc) sc d
  | PStar a => star sc en a d
  | PCol a c => dset d c (env_col en a c)
  | PAs e n => dset d n (eval en params now e)
  end.

Definition project (sc : scope) (params : list value) (now : Z)
    (ps : list proj) (en : env) : dict :=
  fold_left (project_one sc params now en) ps [].

Definition select_envs (db : database) (params : list value) (now : Z)
    (s : select_stmt) : list env :=
  order_envs (s_order s)
    (where_envs params now (s_where s)
       (fold_left (join_envs db) (s_joins s) (from_envs db s))).

Definition exec_select (db : database) (params : list value) (now : Z)
    (s : select_stmt) : sqlres (list dict) :=
  sc <-- select_scope db s ;;
  SqlOk (map (project sc params now (s_proj s)) (select_envs db params now s)).

(** *** Row constraints *)

(** The values of INT and of TINYINT (BOOLEAN). *)
Definition int32 (z : Z) : bool := (-2147483648 <=? z) && (z <=? 2147483647).
Definition int8 (z : Z) : bool := (-128 <=? z) && (z <=? 127).

Definition fits (ty : coltype) (v : value) : sqlres unit :=
  match v, ty with
  | VNull, _ => SqlOk tt
  | VInt z, TInt => require (int32 z) ER_OUT_OF_RANGE
  | VInt z, TBool => require (int8 z) ER_OUT_OF_RANGE
  | VInt _, (TDate | TTimestamp) => SqlOk tt
  | VStr s, TVarchar n => require (Nat.leb (String.length s) n) ER_DATA_TOO_LONG
  | VStr _, TText => SqlOk tt
  | VStr s, TEnum vs => require (existsb (String.eqb s) vs) ER_TRUNCATED
  | _, _ => SqlErr ER_WRONG_VALUE
  end.

(** An AUTO_INCREMENT cell comes from the table's counter, which the model
    does not bound. *)
Definition check_col (r : dict) (c : column) : sqlres unit :=
  let v := dget_or r (cname c) VNull in
  _ <-- require (negb (cnotnull c && value_eqb v VNull)) ER_BAD_NULL ;;
  if cauto c then SqlOk tt else fits (ctype c) v.

Fixpoint check_cols (cs : list column) (r : dict) : sqlres unit :=
  match cs with
  | [] => SqlOk tt
  | c :: cs' => _ <-- check_col r c ;; check_cols cs' r
  end.

(** No other row carries the same non-NULL value in a UNIQUE column. *)
Definition unique_ok (cs : list column) (others : list dict) (r : dict) : bool :=
  forallb
    (fun c =>
       negb (cunique c)
       || negb (existsb
                  (fun r' => sql_eq (dget_or r' (cname c) VNull)
                                    (dget_or r (cname c) VNull))
                  others))
    cs.

(** Every non-NULL foreign key of row [r] of table [t] finds its parent
    row: a stored row of the parent table or, when the key points into [t]
    itself, [r]. *)
Definition fk_ok (db : database) (t : string) (fks : list foreign_key)
    (r : dict) : bool :=
  forallb
    (fun fk =>
       let v := dget_or r (fk_col fk) VNull in
       value_eqb v VNull
       || existsb (fun r' => sql_eq (dget_or r' (fk_ref fk) VNull) v)
            (rows_of db (fk_table fk))
       || (String.eqb (fk_table fk) t
           && sql_eq (dget_or r (fk_ref fk) VNull) v))
    fks.

(** *** INSERT *)

(** Is this column left to AUTO_INCREMENT by the supplied cells? *)
Definition auto_here (given : dict) (c : column) : bool :=
  cauto c &&
  match dget given (cname c) with
  | None | Some VNull => true
  | Some _ => false
  end.

Definition cell_for (tb : table) (now : Z) (given : dict) (c : column) : value :=
  if auto_here given c then VInt (tnext tb)
  else
    match dget given (cname c) with
    | Some v => v
    | None =>
        match cdefault c with
        | DNull => VNull
        | DLit v => v
        | DCurrentTimestamp => VInt now
        end
    end.

Definition build_row (tb : table) (now : Z) (given : dict) : dict :=
  map (fun c => (cname c, cell_for tb now given c)) (tcols tb).

(** The counter moves past every stored AUTO_INCREMENT cell. *)
Definition bump (cs : list column) (r : dict) (next : Z) : Z :=
  fold_left
    (fun n c =>
       if cauto c then
         match dget_or r (cname c) VNull with
         | VInt z => Z.max n (z + 1)
         | _ => n
         end
       else n)
    cs next.

Definition generated (tb : table) (given : dict) : option Z :=
  if existsb (auto_here given) (tcols tb) then Some (tnext tb) else None.

Definition insert_row (db : database) (t : string) (tb : table) (now : Z)
    (given : dict) : sqlres (table * option Z) :=
  let r := build_row tb now given in
  _ <-- check_cols (tcols tb) r ;;
  _ <-- require (unique_ok (tcols tb) (trows tb) r) ER_DUP_ENTRY ;;
  _ <-- require (fk_ok db t (tfks tb) r) ER_NO_REFERENCED_ROW ;;
  SqlOk (mktable (tcols tb) (tfks tb) (trows tb ++ [r])
           (bump (tcols tb) r (tnext tb)),
         generated tb given).

(** INSERT IGNORE skips a row that violates a key instead of failing.  The
    skipped row has taken its AUTO_INCREMENT value from the counter. *)
Definition ignorable (e : Z) : bool :=
  (e =? ER_DUP_ENTRY) || (e =? ER_NO_REFERENCED_ROW).

Definition skipped (tb : table) (given : dict) : table :=
  match generated tb given with
  | Some _ => mktable (tcols tb) (tfks tb) (trows tb) (tnext tb + 1)
  | None => tb
  end.

Definition first_some (a b : option Z) : option Z :=
  match a with Some _ => a | None => b end.

Fixpoint insert_rows (ignore : bool) (db : database) (t : string) (now : Z)
    (params : list value) (cols : list string) (rows : list (list expr))
    (first : option Z) : sqlres (database * option Z) :=
  match rows with
  | [] => SqlOk (db, first)
  | es :: rows' =>
      match find_table db t with
      | None => SqlErr ER_NO_SUCH_TABLE
      | Some tb =>
          _ <-- require (Nat.eqb (List.length es) (List.length cols))
                  ER_WRONG_VALUE_COUNT ;;
          let given := combine cols (map (eval [] params now) es) in
          match insert_row db t tb now given with
          | SqlOk (tb', gid) =>
              insert_rows ignore (set_table db t tb') t now params cols rows'
                (first_some first gid)
          | SqlErr e =>
              if ignore && ignorable e
              then insert_rows ignore (set_table db t (skipped tb given)) t now
                     params cols rows' first
              else SqlErr e
          end
      end
  end.

Definition exec_insert (ignore : bool) (db : database) (now : Z)
    (params : list value) (t : string) (cols : list string)
    (rows : list (list expr)) : sqlres (database * option Z) :=
  match find_table db t with
  | None => SqlErr ER_NO_SUCH_TABLE
  | Some tb =>
      _ <-- require (forallb (has_col tb) cols) ER_BAD_FIELD ;;
      _ <-- require (forallb (forallb (expr_ok [])) rows) ER_BAD_FIELD ;;
      insert_rows ignore db t now params cols rows None
  end.
(** *** UPDATE *)

Fixpoint dict_eqb (a b : dict) : bool :=
  match a, b with
  | [], [] => true
  | (k, v) :: a', (k', v') :: b' =>
      String.eqb k k' && value_eqb v v' && dict_eqb a' b'
  | _, _ => false
  end.

Definition is_set (sets : list (string * expr)) (c : column) : bool :=
  existsb (String.eqb (cname c)) (map fst sets).

Definition apply_sets (t : string) (params : list value) (now : Z)
    (sets : list (string * expr)) (r : dict) : dict :=
  fold_left (fun acc s => dset acc (fst s) (eval [(t, r)] params now (snd s)))
    sets r.

(** ON UPDATE CURRENT_TIMESTAMP columns follow a row that changed, unless
    the statement sets them itself. *)
Definition touch (cs : list column) (sets : list (string * expr)) (now : Z)
    (old new : dict) : dict :=
  if dict_eqb old new then new
  else
    fold_left
      (fun acc c =>
         if conupdate c && negb (is_set sets c)
         then dset acc (cname c) (VInt now) else acc)
      cs new.

Fixpoint update_rows (db : database) (tb : table) (t : string) (now : Z)
    (params : list value) (sets : list (string * expr)) (wc : string)
    (wv : value) (before todo : list dict) : sqlres (list dict) :=
  match todo with
  | [] => SqlOk before
  | r :: rest =>
      if sql_eq (dget_or r wc VNull) wv then
        let r' := touch (tcols tb) sets now r (apply_sets t params now sets r) in
        _ <-- check_cols (tcols tb) r' ;;
        _ <-- require (unique_ok (filter (is_set sets) (tcols tb))
                         (before ++ rest) r') ER_DUP_ENTRY ;;
        _ <-- require (fk_ok db t (tfks tb) r') ER_NO_REFERENCED_ROW ;;
        update_rows db tb t now params sets wc wv (before ++ [r']) rest
      else update_rows db tb t now params sets wc wv (before ++ [r]) rest
  end.

Definition exec_update (db : database) (now : Z) (params : list value)
    (t : string) (sets : list (string * expr)) (wc : string) (we : expr)
  : sqlres database :=
  match find_table db t with
  | None => SqlErr ER_NO_SUCH_TABLE
  | Some tb =>
      let sc := [(t, col_names tb)] in
      _ <-- require (forallb (fun s => has_col tb (fst s) && expr_ok sc (snd s)) sets)
              ER_BAD_FIELD ;;
      _ <-- require (has_col tb wc && expr_ok sc we) ER_BAD_FIELD ;;
      rows <-- update_rows db tb t now params sets wc (eval [] params now we)
                 [] (trows tb) ;;
      SqlOk (set_table db t (mktable (tcols tb) (tfks tb) rows (tnext tb)))
  end.

(** *** CREATE TABLE IF NOT EXISTS *)

Definition ER_KEY_COLUMN : Z := 1072.
Definition ER_FK_NO_INDEX : Z := 1822.
Definition ER_FK_NO_TABLE : Z := 1824.
Definition ER_FK_NO_COLUMN : Z := 3734.
Definition ER_FK_INCOMPATIBLE : Z := 3780.

Definition find_col (cs : list column) (n : string) : option column :=
  find (fun c => String.eqb n (cname c)) cs.

Definition same_kind (a b : coltype) : bool :=
  match a, b with
  | TInt, TInt | TVarchar _, TVarchar _ | TText, TText | TBool, TBool
  | TDate, TDate | TTimestamp, TTimestamp | TEnum _, TEnum _ => true
  | _, _ => false
  end.

(** The columns a foreign key of the new table [t] may point to: those of
    the parent table, which is [t] itself for a self-reference. *)
Definition parent_cols (db : database) (t : string) (cols : list column)
    (fk : foreign_key) : sqlres (list column) :=
  if String.eqb (fk_table fk) t then SqlOk cols
  else
    match find_table db (fk_table fk) with
    | Some tb => SqlOk (tcols tb)
    | None => SqlErr ER_FK_NO_TABLE
    end.

(** A FOREIGN KEY clause is accepted when the referencing column exists and
    the parent has the referenced column, with a key on it and of the same
    type. *)
Definition fk_decl_ok (db : database) (t : string) (cols : list column)
    (fk : foreign_key) : sqlres unit :=
  match find_col cols (fk_col fk) with
  | None => SqlErr ER_KEY_COLUMN
  | Some child =>
      ps <-- parent_cols db t cols fk ;;
      match find_col ps (fk_ref fk) with
      | None => SqlErr ER_FK_NO_COLUMN
      | Some parent =>
          _ <-- require (cunique parent) ER_FK_NO_INDEX ;;
          require (same_kind (ctype child) (ctype parent)) ER_FK_INCOMPATIBLE
      end
  end.

Fixpoint fks_decl_ok (db : database) (t : string) (cols : list column)
    (fks : list foreign_key) : sqlres unit :=
  match fks with
  | [] => SqlOk tt
  | fk :: fks' => _ <-- fk_decl_ok db t cols fk ;; fks_decl_ok db t cols fks'
  end.

Definition exec_create (db : database) (t : string) (cols : list column)
    (fks : list foreign_key) : sqlres database :=
  match find_table db t with
  | Some _ => SqlOk db
  | None =>
      _ <-- fks_decl_ok db t cols fks ;;
      SqlOk (set_table db t (mktable cols fks [] 1))
  end.

(** *** One statement on one session *)

Record outcome : Type := mkoutcome {
  o_db : database;                 (* the session's view afterwards *)
  o_rows : option (list dict);     (* the result set, if any *)
  o_last : Z                       (* LAST_INSERT_ID() afterwards *)
}.

Definition exec_stmt (db : database) (now last : Z) (q : stmt)
    (params : list value) : sqlres outcome :=
  _ <-- require (Nat.eqb (stmt_params q) (List.length params)) ER_BAD_PARAMS ;;
  match q with
  | SSelect s =>
      rs <-- exec_select db params now s ;;
      SqlOk (mkoutcome db (Some rs) last)
  | SLastInsertId =>
      SqlOk (mkoutcome db (Some [[("LAST_INSERT_ID()", VInt last)]]) last)
  | SInsert ig t cols rows =>
      r <-- exec_insert ig db now params t cols rows ;;
      SqlOk (mkoutcome (fst r) None
               (match snd r with Some i => i | None => last end))
  | SUpdate t sets wc we =>
      db' <-- exec_update db now params t sets wc we ;;
      SqlOk (mkoutcome db' None last)
  | SCreateTable t cols fks =>
      db' <-- exec_create db t cols fks ;;
      SqlOk (mkoutcome db' None last)
  end.

End Collated.

End Sql.

(* ================================================================== *)
(** ** The bcrypt package *)
(* ================================================================== *)

Module Bcrypt.

(** Python's [s[:n]]. *)
Fixpoint take (n : nat) (s : string) : string :=
  match n, s with
  | S n', String c s' => String c (take n' s')
  | _, _ => EmptyString
  end.

(** [bcrypt.hashpw(password, salt)]: the second argument is a salt from
    [gensalt] or an earlier hash, whose leading salt is reused.  The laws are
    those of the package: the password is cut to its first 72 bytes, a hash
    starts with the salt it was made with, and a hash is a 60-byte string.
    (So the package up to 4.x.  From 5.0 on a password of more than 72 bytes
    is refused with a ValueError instead of being cut: there a candidate of
    73 bytes makes [checkpw] raise, where here it is compared on its first
    72.) *)
Class impl : Type := {
  hashpw : string -> string -> string;
  hashpw_truncates : forall p s, hashpw p s = hashpw (take 72 p) s;
  hashpw_resalt : forall p q s, hashpw p (hashpw q s) = hashpw p s;
  hashpw_length : forall p s, String.length (hashpw p s) = 60%nat
}.

(** [bcrypt.checkpw(password, hashed)] hashes the candidate with the salt of
    [hashed] and compares. *)
Definition checkpw `{impl} (password hashed : string) : bool :=
  String.eqb (hashpw password hashed) hashed.

(** A reference implementation of the interface, used to run the model on
    concrete inputs: the 29-byte salt followed by a 31-byte image of the
    truncated password. *)
Fixpoint fill (n : nat) (s : string) : string :=
  match n with
  | O => EmptyString
  | S n' =>
      match s with
      | EmptyString => String "."%char (fill n' EmptyString)
      | String c s' => String c (fill n' s')
      end
  end.

Definition ref_hashpw (p s : string) : string :=
  (fill 29 s ++ fill 31 (take 72 p))%string.

Lemma take_take n s : take n (take n s) = take n s.
Proof.
  revert s; induction n as [|n IH]; intros [|c s]; simpl; try reflexivity.
  now rewrite IH.
Qed.

Lemma fill_length n s : String.length (fill n s) = n.
Proof.
  revert s; induction n as [|n IH]; intros s; simpl; [reflexivity|].
  destruct s; simpl; now rewrite IH.
Qed.

Lemma fill_fill_app n s x : fill n (fill n s ++ x)%string = fill n s.
Proof.
  revert s; induction n as [|n IH]; intros s; simpl; [reflexivity|].
  destruct s; simpl; now rewrite IH.
Qed.

Lemma append_length a b :
  String.length (a ++ b)%string = (String.length a + String.length b)%nat.
Proof. induction a; simpl; congruence. Qed.

Lemma ref_truncates p s : ref_hashpw p s = ref_hashpw (take 72 p) s.
Proof. unfold ref_hashpw. now rewrite take_take. Qed.

Lemma ref_resalt p q s : ref_hashpw p (ref_hashpw q s) = ref_hashpw p s.
Proof. unfold ref_hashpw. now rewrite fill_fill_app. Qed.

Lemma ref_length p s : String.length (ref_hashpw p s) = 60%nat.
Proof. unfold ref_hashpw. now rewrite append_length, !fill_length. Qed.

Definition ref_impl : impl :=
  {| hashpw := ref_hashpw;
     hashpw_truncates := ref_truncates;
     hashpw_resalt := ref_resalt;
     hashpw_length := ref_length |}.

End Bcrypt.

(* ================================================================== *)
(** ** The process: objects, connection handles, server *)
(* ================================================================== *)

Import Sql.

(** Exceptions.  [Error] is [mysql.connector.Error] with its subclasses, told
    apart by error number; the next four are Python's own.  The last three
    are the error kinds the specification names; no statement of the
    repository constructs them. *)
Inductive exn : Type :=
| Error (errno : Z)
| KeyError (key : string)
| IndexError
| TypeError
| AttributeError
| QueryError (cause : exn)
| SchemaError (cause : exn)
| ConnectionError (cause : exn).

Definition is_Error (e : exn) : bool :=
  match e with Error _ => true | _ => false end.

Inductive result (A : Type) : Type :=
| Ok (a : A)
| Raise (e : exn).
Arguments Ok {A} a.
Arguments Raise {A} e.

(** What the connector and the logger are asked to do, in order. *)
Inductive event : Type :=
| EvConnect (h : nat)
| EvClose (h : nat)
| EvCursor (h : nat)
| EvExecute (h : nat) (q : stmt) (params : list value)
| EvCommit (h : nat)
| EvRollback (h : nat)
| EvCursorClose (h : nat)
| EvLogInfo (msg : string)
| EvLogError (msg : string) (e : exn).

(** A connection handle: one server session with its open transaction
    ([autocommit] is off by default in the connector). *)
Record session : Type := mksession {
  connected : bool;
  working : database;
  last_insert_id : Z
}.

(** A [DatabaseConnection] object: its [connection] attribute. *)
Record dbconn : Type := mkdbconn {
  connection : option nat
}.

Record world : Type := mkworld {
  objects : list dbconn;          (* every DatabaseConnection ever allocated *)
  cls_instance : option nat;      (* DatabaseConnection._instance *)
  handles : list session;         (* every connection ever opened *)
  committed : database;           (* the server's committed state *)
  server_up : bool;               (* does the server accept connections? *)
  now : Z;                        (* the server clock *)
  entropy : nat -> string;        (* what gensalt will draw *)
  draws : nat;
  log : list event
}.

Definition M (A : Type) : Type := world -> result A * world.

Definition ret {A} (a : A) : M A := fun w => (Ok a, w).
Definition raise {A} (e : exn) : M A := fun w => (Raise e, w).
Definition bind {A B} (m : M A) (k : A -> M B) : M B :=
  fun w =>
    match m w with
    | (Ok a, w1) => k a w1
    | (Raise e, w1) => (Raise e, w1)
    end.

Notation "x <- m ;; k" := (bind m (fun x => k))
  (at level 61, m at next level, right associativity).
Notation "m ;;; k" := (bind m (fun _ => k))
  (at level 61, right associativity).

(** [try: body except <catches> as e: handler e] *)
Definition try_except {A} (body : M A) (catches : exn -> bool)
    (handler : exn -> M A) : M A :=
  fun w =>
    match body w with
    | (Raise e, w1) => if catches e then handler e w1 else (Raise e, w1)
    | r => r
    end.

(** [try: body finally: fin] *)
Definition finally {A} (body : M A) (fin : M unit) : M A :=
  fun w =>
    match body w with
    | (r, w1) =>
        match fin w1 with
        | (Ok _, w2) => (r, w2)
        | (Raise e, w2) => (Raise e, w2)
        end
    end.

(** *** Field updates *)

Definition set_objects (o : list dbconn) (w : world) : world :=
  mkworld o (cls_instance w) (handles w) (committed w) (server_up w) (now w)
    (entropy w) (draws w) (log w).
Definition set_instance (i : option nat) (w : world) : world :=
  mkworld (objects w) i (handles w) (committed w) (server_up w) (now w)
    (entropy w) (draws w) (log w).
Definition set_handles (hs : list session) (w : world) : world :=
  mkworld (objects w) (cls_instance w) hs (committed w) (server_up w) (now w)
    (entropy w) (draws w) (log w).
Definition set_committed (d : database) (w : world) : world :=
  mkworld (objects w) (cls_instance w) (handles w) d (server_up w) (now w)
    (entropy w) (draws w) (log w).
Definition set_draws (n : nat) (w : world) : world :=
  mkworld (objects w) (cls_instance w) (handles w) (committed w) (server_up w)
    (now w) (entropy w) n (log w).
Definition emit (e : event) (w : world) : world :=
  mkworld (objects w) (cls_instance w) (handles w) (committed w) (server_up w)
    (now w) (entropy w) (draws w) (log w ++ [e]).

Fixpoint list_set {A} (l : list A) (i : nat) (x : A) : list A :=
  match l, i with
  | [], _ => []
  | _ :: l', O => x :: l'
  | y :: l', S i' => y :: list_set l' i' x
  end.

Definition logging_info (msg : string) : M unit :=
  fun w => (Ok tt, emit (EvLogInfo msg) w).
Definition logging_error (msg : string) (e : exn) : M unit :=
  fun w => (Ok tt, emit (EvLogError msg e) w).

Section Collated1.
Context `{coll : Collation}.

(** *** The connector *)

Definition CR_CONN_HOST_ERROR : Z := 2003.
Definition CR_SERVER_LOST : Z := 2055.

Definition session_of (w : world) (h : nat) : option session :=
  nth_error (handles w) h.

(** [connection.is_connected()] *)
Definition is_connected (w : world) (h : nat) : bool :=
  match session_of w h with
  | Some s => connected s
  | None => false
  end.

(** [mysql.connector.connect] with [DB_CONFIG]: a fresh session that sees the
    committed state, or error 2003 when the server is unreachable. *)
Definition mysql_connect : M nat :=
  fun w =>
    if server_up w then
      let h := List.length (handles w) in
      (Ok h,
       emit (EvConnect h)
         (set_handles (handles w ++ [mksession true (committed w) 0]) w))
    else (Raise (Error CR_CONN_HOST_ERROR), w).

(** [connection.close()] *)
Definition conn_close (h : nat) : M unit :=
  fun w =>
    match session_of w h with
    | Some s =>
        (Ok tt,
         emit (EvClose h)
           (set_handles
              (list_set (handles w) h
                 (mksession false (working s) (last_insert_id s))) w))
    | None => (Ok tt, w)
    end.

(** [connection.cursor(...)]; [None.cursor] is an AttributeError. *)
Definition conn_cursor (c : option nat) : M nat :=
  fun w =>
    match c with
    | None => (Raise AttributeError, w)
    | Some h =>
        if is_connected w h then (Ok h, emit (EvCursor h) w)
        else (Raise (Error CR_SERVER_LOST), w)
    end.

(** [cursor.execute(query, params)]: the statement runs inside the session's
    transaction; DDL commits implicitly.  Returns the result set, if the
    statement has one. *)
Definition cursor_execute (h : nat) (q : stmt) (params : list value)
  : M (option (list dict)) :=
  fun w =>
    match session_of w h with
    | Some s =>
        if connected s then
          let w1 := emit (EvExecute h q params) w in
          match exec_stmt (working s) (now w) (last_insert_id s) q params with
          | SqlOk o =>
              let w2 :=
                set_handles
                  (list_set (handles w1) h (mksession true (o_db o) (o_last o)))
                  w1 in
              (Ok (o_rows o),
               if is_ddl q then set_committed (o_db o) w2 else w2)
          | SqlErr e => (Raise (Error e), w1)
          end
        else (Raise (Error CR_SERVER_LOST), w)
    | None => (Raise (Error CR_SERVER_LOST), w)
    end.

(** [cursor.fetchall()] *)
Definition cursor_fetchall (rs : option (list dict)) : M (list dict) :=
  ret (match rs with Some rows => rows | None => [] end).

(** [connection.commit()] *)
Definition conn_commit (h : nat) : M unit :=
  fun w =>
    match session_of w h with
    | Some s =>
        if connected s
        then (Ok tt, emit (EvCommit h) (set_committed (working s) w))
        else (Raise (Error CR_SERVER_LOST), w)
    | None => (Raise (Error CR_SERVER_LOST), w)
    end.

(** [connection.rollback()] *)
Definition conn_rollback (h : nat) : M unit :=
  fun w =>
    match session_of w h with
    | Some s =>
        if connected s then
          (Ok tt,
           emit (EvRollback h)
             (set_handles
                (list_set (handles w) h
                   (mksession true (committed w) (last_insert_id s))) w))
        else (Raise (Error CR_SERVER_LOST), w)
    | None => (Raise (Error CR_SERVER_LOST), w)
    end.

(** [cursor.close()] *)
Definition cursor_close (h : nat) : M unit :=
  fun w => (Ok tt, emit (EvCursorClose h) w).

(** [bcrypt.gensalt()] *)
Definition gensalt : M string :=
  fun w => (Ok (entropy w (draws w)), set_draws (S (draws w)) w).

Definition read {A} (f : world -> A) : M A := fun w => (Ok (f w), w).
Definition modify (f : world -> world) : M unit := fun w => (Ok tt, f w).

(* ================================================================== *)
(** ** db_config.py *)
(* ================================================================== *)

(** [DatabaseConnection.__new__]: allocate on first use only. *)
Definition DatabaseConnection_new : M nat :=
  fun w =>
    match cls_instance w with
    | None =>
        let i := List.length (objects w) in
        (Ok i,
         set_instance (Some i) (set_objects (objects w ++ [mkdbconn None]) w))
    | Some i => (Ok i, w)
    end.

(** [self.connection] *)
Definition attr_connection (self : nat) (w : world) : option nat :=
  match nth_error (objects w) self with
  | Some o => connection o
  | None => None
  end.

Definition set_attr_connection (self : nat) (c : option nat) (w : world)
  : world :=
  set_objects (list_set (objects w) self (mkdbconn c)) w.

(** [not self.connection or not self.connection.is_connected()] *)
Definition stale (self : nat) (w : world) : bool :=
  match attr_connection self w with
  | None => true
  | Some h => negb (is_connected w h)
  end.

Definition connect (self : nat) : M unit :=
  try_except
    (st <- read (stale self) ;;
     (if st then
        h <- mysql_connect ;;
        modify (set_attr_connection self (Some h)) ;;;
        logging_info "Database connection established successfully"
      else ret tt))
    is_Error
    (fun e => logging_error "Error connecting to MySQL database" e ;;; raise e).

Definition disconnect (self : nat) : M unit :=
  try_except
    (c <- read (attr_connection self) ;;
     match c with
     | Some h =>
         live <- read (fun w => is_connected w h) ;;
         (if live then
            conn_close h ;;;
            logging_info "Database connection closed successfully"
          else ret tt)
     | None => ret tt
     end)
    is_Error
    (fun e => logging_error "Error closing database connection" e ;;; raise e).

Definition get_connection (self : nat) : M (option nat) :=
  st <- read (stale self) ;;
  (if st then connect self else ret tt) ;;;
  read (attr_connection self).

(** *** The schema of [init_database] *)

Definition col (n : string) (ty : coltype) : column :=
  mkcol n ty false false false DNull false.
Definition primary_key (n : string) : column :=
  mkcol n TInt true true true DNull false.
Definition not_null (c : column) : column :=
  mkcol (cname c) (ctype c) true (cunique c) (cauto c) (cdefault c) (conupdate c).
Definition unique (c : column) : column :=
  mkcol (cname c) (ctype c) (cnotnull c) true (cauto c) (cdefault c) (conupdate c).
Definition default (d : coldefault) (c : column) : column :=
  mkcol (cname c) (ctype c) (cnotnull c) (cunique c) (cauto c) d (conupdate c).
Definition on_update_now (c : column) : column :=
  mkcol (cname c) (ctype c) (cnotnull c) (cunique c) (cauto c) (cdefault c) true.

Definition created_at : column :=
  default DCurrentTimestamp (col "created_at" TTimestamp).
Definition updated_at : column :=
  on_update_now (default DCurrentTimestamp (col "updated_at" TTimestamp)).

Definition roles_cols : list column :=
  [ primary_key "role_id";
    unique (not_null (col "role_name" (TVarchar 50)));
    col "description" TText;
    created_at;
    updated_at ].

Definition users_cols : list column :=
  [ primary_key "user_id";
    unique (not_null (col "username" (TVarchar 50)));
    not_null (col "password_hash" (TVarchar 255));
    unique (not_null (col "email" (TVarchar 100)));
    col "role_id" TInt;
    col "manager_id" TInt;
    default (DLit (VInt 1)) (col "is_active" TBool);
    created_at;
    updated_at ].
Definition users_fks : list foreign_key :=
  [ mkfk "role_id" "roles" "role_id";
    mkfk "manager_id" "users" "user_id" ].

Definition contacts_cols : list column :=
  [ primary_key "contact_id";
    not_null (col "first_name" (TVarchar 50));
    not_null (col "last_name" (TVarchar 50));
    col "email" (TVarchar 100);
    col "phone" (TVarchar 20);
    col "company" (TVarchar 100);
    col "assigned_to" TInt;
    col "notes" TText;
    created_at;
    updated_at ].
Definition contacts_fks : list foreign_key :=
  [ mkfk "assigned_to" "users" "user_id" ].

Definition task_status_cols : list column :=
  [ primary_key "status_id";
    unique (not_null (col "status_name" (TVarchar 50)));
    col "description" TText;
    created_at ].

Definition tasks_cols : list column :=
  [ primary_key "task_id";
    not_null (col "title" (TVarchar 100));
    col "description" TText;
    col "assigned_to" TInt;
    col "assigned_by" TInt;
    col "due_date" TDate;
    col "status_id" TInt;
    default (DLit (VStr "medium"))
      (col "priority" (TEnum ["low"; "medium"; "high"]));
    created_at;
    updated_at ].
Definition tasks_fks : list foreign_key :=
  [ mkfk "assigned_to" "users" "user_id";
    mkfk "assigned_by" "users" "user_id";
    mkfk "status_id" "task_status" "status_id" ].

Definition lit (s : string) : expr := ELit (VStr s).

Definition seed_roles : stmt :=
  SInsert true "roles" ["role_name"; "description"]
    [ [lit "admin"; lit "System administrator with full access"];
      [lit "manager";
       lit "Team manager with reporting and task assignment capabilities"];
      [lit "employee"; lit "Regular employee with basic access"] ].

Definition seed_task_status : stmt :=
  SInsert true "task_status" ["status_name"; "description"]
    [ [lit "not_started"; lit "Task has not been started"];
      [lit "in_progress"; lit "Task is currently being worked on"];
      [lit "completed"; lit "Task has been completed"];
      [lit "on_hold"; lit "Task is temporarily on hold"] ].

(** The seven statements of [init_database], in order. *)
Definition init_statements : list stmt :=
  [ SCreateTable "roles" roles_cols [];
    SCreateTable "users" users_cols users_fks;
    SCreateTable "contacts" contacts_cols contacts_fks;
    SCreateTable "task_status" task_status_cols [];
    SCreateTable "tasks" tasks_cols tasks_fks;
    seed_roles;
    seed_task_status ].

Fixpoint execute_all (cursor : nat) (qs : list stmt) : M unit :=
  match qs with
  | [] => ret tt
  | q :: qs' => cursor_execute cursor q [] ;;; execute_all cursor qs'
  end.

Definition init_database : M unit :=
  db <- DatabaseConnection_new ;;
  connection <- get_connection db ;;
  cursor <- conn_cursor connection ;;
  finally
    (try_except
       (execute_all cursor init_statements ;;;
        conn_commit cursor ;;;
        logging_info "Database schema initialized successfully")
       is_Error
       (fun e =>
          conn_rollback cursor ;;;
          logging_error "Error initializing database schema" e ;;;
          raise e))
    (cursor_close cursor).

(* ================================================================== *)
(** ** models.py *)
(* ================================================================== *)

Record BaseModel : Type := mkBaseModel {
  self_db : nat                   (* self.db *)
}.

(** [BaseModel.__init__] *)
Definition BaseModel_init : M BaseModel :=
  i <- DatabaseConnection_new ;;
  ret (mkBaseModel i).

Definition _execute_query (self : BaseModel) (query : stmt)
    (params : list value) (fetch : bool) : M (option (list dict)) :=
  connection <- get_connection (self_db self) ;;
  cursor <- conn_cursor connection ;;
  finally
    (try_except
       (rs <- cursor_execute cursor query params ;;
        (if fetch then
           rows <- cursor_fetchall rs ;;
           ret (Some rows)
         else
           conn_commit cursor ;;;
           ret None))
       is_Error
       (fun e =>
          conn_rollback cursor ;;;
          logging_error "Database error" e ;;;
          raise e))
    (cursor_close cursor).

(** [result[0]] on what [_execute_query] returned. *)
Definition first_row (rs : option (list dict)) : M dict :=
  match rs with
  | None => raise TypeError
  | Some [] => raise IndexError
  | Some (r :: _) => ret r
  end.

(** [d[k]] *)
Definition item (d : dict) (k : string) : M value :=
  match dget d k with
  | Some v => ret v
  | None => raise (KeyError k)
  end.

(** [d.get(k)] *)
Definition get (d : dict) (k : string) : value := dget_or d k VNull.

(** [self._execute_query("SELECT LAST_INSERT_ID()")[0]['LAST_INSERT_ID()']] *)
Definition last_insert (self : BaseModel) : M value :=
  rs <- _execute_query self SLastInsertId [] true ;;
  r <- first_row rs ;;
  item r "LAST_INSERT_ID()".

(** [result[0] if result else None] *)
Definition first_or_none (rs : option (list dict)) : option dict :=
  match rs with
  | Some (r :: _) => Some r
  | _ => None
  end.

Definition opt_int (o : option Z) : value :=
  match o with Some z => VInt z | None => VNull end.


Definition where_eq (a c : string) : option ((string * string) * expr) :=
  Some ((a, c), EParam 0).

Definition params_from (n k : nat) : list expr := map EParam (seq n k).

(** *** User *)

Definition q_insert_user : stmt :=
  SInsert false "users"
    ["username"; "password_hash"; "email"; "role_id"; "manager_id"]
    [params_from 0 5].

Definition q_password_hash : stmt :=
  SSelect (mkselect [PCol "users" "password_hash"] "users" "users" []
             (where_eq "users" "username") None).

Definition join_roles : join := mkjoin "roles" "r" ("u", "role_id") ("r", "role_id").

Definition q_get_user : stmt :=
  SSelect (mkselect [PStar "u"; PCol "r" "role_name"] "users" "u" [join_roles]
             (where_eq "u" "user_id") None).

Definition q_get_user_by_username : stmt :=
  SSelect (mkselect [PStar "u"; PCol "r" "role_name"] "users" "u" [join_roles]
             (where_eq "u" "username") None).

Section User.
Context `{Bcrypt.impl}.

Definition create_user (self : BaseModel) (username password email : string)
    (role_id : Z) (manager_id : option Z) : M value :=
  salt <- gensalt ;;
  let password_hash := Bcrypt.hashpw password salt in
  let params :=
    [VStr username; VStr password_hash; VStr email; VInt role_id;
     opt_int manager_id] in
  try_except
    (_execute_query self q_insert_user params false ;;;
     last_insert self)
    is_Error
    (fun e => logging_error "Error creating user" e ;;; raise e).

Definition verify_password (self : BaseModel) (username password : string)
  : M bool :=
  result <- _execute_query self q_password_hash [VStr username] true ;;
  match result with
  | Some (r :: _) =>
      v <- item r "password_hash" ;;
      match v with
      | VStr stored_hash => ret (Bcrypt.checkpw password stored_hash)
      | _ => raise AttributeError
      end
  | _ => ret false
  end.

End User.

Definition get_user (self : BaseModel) (user_id : Z) : M (option dict) :=
  result <- _execute_query self q_get_user [VInt user_id] true ;;
  ret (first_or_none result).

Definition get_user_by_username (self : BaseModel) (username : string)
  : M (option dict) :=
  result <- _execute_query self q_get_user_by_username [VStr username] true ;;
  ret (first_or_none result).

(** *** Contact *)

Definition q_insert_contact : stmt :=
  SInsert false "contacts"
    ["first_name"; "last_name"; "email"; "phone"; "company"; "assigned_to";
     "notes"]
    [params_from 0 7].

Definition q_get_contact : stmt :=
  SSelect (mkselect [PAll] "contacts" "contacts" []
             (where_eq "contacts" "contact_id") None).

Definition q_contacts_by_user : stmt :=
  SSelect (mkselect [PAll] "contacts" "contacts" []
             (where_eq "contacts" "assigned_to") None).

Definition q_update_contact : stmt :=
  SUpdate "contacts"
    [ ("first_name", EParam 0); ("last_name", EParam 1); ("email", EParam 2);
      ("phone", EParam 3); ("company", EParam 4); ("assigned_to", EParam 5);
      ("notes", EParam 6); ("updated_at", ENow) ]
    "contact_id" (EParam 7).

(** The seven cells both contact statements bind, in order. *)
Definition contact_params (data : dict) : M (list value) :=
  first_name <- item data "first_name" ;;
  last_name <- item data "last_name" ;;
  ret [first_name; last_name; get data "email"; get data "phone";
       get data "company"; get data "assigned_to"; get data "notes"].

Definition create_contact (self : BaseModel) (data : dict) : M value :=
  params <- contact_params data ;;
  _execute_query self q_insert_contact params false ;;;
  last_insert self.

Definition get_contact (self : BaseModel) (contact_id : Z) : M (option dict) :=
  result <- _execute_query self q_get_contact [VInt contact_id] true ;;
  ret (first_or_none result).

Definition get_contacts_by_user (self : BaseModel) (user_id : Z)
  : M (option (list dict)) :=
  _execute_query self q_contacts_by_user [VInt user_id] true.

Definition update_contact (self : BaseModel) (contact_id : Z) (data : dict)
  : M bool :=
  params <- contact_params data ;;
  _execute_query self q_update_contact (params ++ [VInt contact_id]) false ;;;
  ret true.

(** *** Task *)

Definition q_insert_task : stmt :=
  SInsert false "tasks"
    ["title"; "description"; "assigned_to"; "assigned_by"; "due_date";
     "status_id"; "priority"]
    [params_from 0 7].

(** [CONCAT(a.first_name, ' ', a.last_name)] *)
Definition display_name (a : string) : expr :=
  EConcat (ECol a "first_name") (EConcat (lit " ") (ECol a "last_name")).

Definition join_status : join :=
  mkjoin "task_status" "ts" ("t", "status_id") ("ts", "status_id").
Definition join_user (a c : string) : join :=
  mkjoin "users" a ("t", c) (a, "user_id").

Definition q_get_task : stmt :=
  SSelect (mkselect
             [PStar "t"; PCol "ts" "status_name";
              PAs (display_name "u1") "assigned_to_name";
              PAs (display_name "u2") "assigned_by_name"]
             "tasks" "t"
             [join_status; join_user "u1" "assigned_to";
              join_user "u2" "assigned_by"]
             (where_eq "t" "task_id") None).

Definition q_tasks_assigned_by : stmt :=
  SSelect (mkselect
             [PStar "t"; PCol "ts" "status_name";
              PAs (display_name "u1") "assigned_to_name"]
             "tasks" "t"
             [join_status; join_user "u1" "assigned_to"]
             (where_eq "t" "assigned_by") (Some ("t", "due_date"))).

Definition q_tasks_assigned_to : stmt :=
  SSelect (mkselect
             [PStar "t"; PCol "ts" "status_name";
              PAs (display_name "u") "assigned_by_name"]
             "tasks" "t"
             [join_status; join_user "u" "assigned_by"]
             (where_eq "t" "assigned_to") (Some ("t", "due_date"))).

Definition q_update_task_status : stmt :=
  SUpdate "tasks" [("status_id", EParam 0); ("updated_at", ENow)]
    "task_id" (EParam 1).

Definition create_task (self : BaseModel) (data : dict) : M value :=
  title <- item data "title" ;;
  assigned_to <- item data "assigned_to" ;;
  assigned_by <- item data "assigned_by" ;;
  due_date <- item data "due_date" ;;
  status_id <- item data "status_id" ;;
  let params :=
    [title; get data "description"; assigned_to; assigned_by; due_date;
     status_id; dget_or data "priority" (VStr "medium")] in
  _execute_query self q_insert_task params false ;;;
  last_insert self.

Definition get_task (self : BaseModel) (task_id : Z) : M (option dict) :=
  result <- _execute_query self q_get_task [VInt task_id] true ;;
  ret (first_or_none result).

Definition get_tasks_by_user (self : BaseModel) (user_id : Z)
    (as_manager : bool) : M (option (list dict)) :=
  let query :=
    if as_manager then q_tasks_assigned_by else q_tasks_assigned_to in
  _execute_query self query [VInt user_id] true.

Definition update_task_status (self : BaseModel) (task_id status_id : Z)
  : M bool :=
  _execute_query self q_update_task_status [VInt status_id; VInt task_id] false ;;;
  ret true.

(** *** ReferenceData *)

Definition q_insert_role : stmt :=
  SInsert false "roles" ["role_name"; "description"] [params_from 0 2].





End Collated1.

(* ================================================================== *)
(** ** A fresh process against an empty server *)
(* ================================================================== *)

Definition salt0 : string := "$2b$12$abcdefghijklmnopqrstuv".

Definition world0 : world :=
  mkworld [] None [] [] true 1000 (fun _ => salt0) 0 [].

Section Collated2.
Context `{coll : Collation}.

(** Run [m], keep the world. *)
Definition after {A} (m : M A) (w : world) : world := snd (m w).
Definition outcome_of {A} (m : M A) (w : world) : result A := fst (m w).

(* ================================================================== *)
(** ** Lists, dictionaries, tables: basic facts *)
(* ================================================================== *)

Lemma list_set_length {A} (l : list A) i x :
  List.length (list_set l i x) = List.length l.
Proof.
  revert i; induction l as [|y l IH]; intros [|i]; simpl; auto.
Qed.

Lemma list_set_same {A} (l : list A) i x y :
  list_set (list_set l i x) i y = list_set l i y.
Proof.
  revert i; induction l as [|z l IH]; intros [|i]; simpl; auto.
  now rewrite IH.
Qed.

Lemma nth_error_list_set {A} (l : list A) i x x0 :
  nth_error l i = Some x0 -> nth_error (list_set l i x) i = Some x.
Proof.
  revert i; induction l as [|y l IH]; intros [|i]; simpl; auto; discriminate.
Qed.

Lemma nth_error_list_set_other {A} (l : list A) i j x :
  i <> j -> nth_error (list_set l i x) j = nth_error l j.
Proof.
  revert i j; induction l as [|y l IH]; intros [|i] [|j] Hij; simpl; auto.
  - congruence.
Qed.

Lemma dget_dset_same d k v : dget (dset d k v) k = Some v.
Proof.
  induction d as [|[k' v'] d IH]; simpl.
  - now rewrite String.eqb_refl.
  - destruct (String.eqb k k') eqn:E; simpl; rewrite E; auto.
Qed.

Lemma dget_dset_other d k k' v : k' <> k -> dget (dset d k v) k' = dget d k'.
Proof.
  intros Hk. induction d as [|[k0 v0] d IH]; simpl.
  - apply String.eqb_neq in Hk. now rewrite Hk.
  - destruct (String.eqb k k0) eqn:E; simpl.
    + apply String.eqb_eq in E; subst k0.
      apply String.eqb_neq in Hk. now rewrite Hk.
    + now rewrite IH.
Qed.

Lemma find_set_table_same d t tb : find_table (set_table d t tb) t = Some tb.
Proof.
  induction d as [|[n tb'] d IH]; simpl.
  - now rewrite String.eqb_refl.
  - destruct (String.eqb t n) eqn:E; simpl; rewrite E; auto.
Qed.

Lemma find_set_table_other d t t' tb :
  t' <> t -> find_table (set_table d t tb) t' = find_table d t'.
Proof.
  intros Ht. induction d as [|[n tb'] d IH]; simpl.
  - apply String.eqb_neq in Ht. now rewrite Ht.
  - destruct (String.eqb t n) eqn:E; simpl.
    + apply String.eqb_eq in E; subst n.
      apply String.eqb_neq in Ht. now rewrite Ht.
    + now rewrite IH.
Qed.

Lemma set_table_same d t tb :
  find_table d t = Some tb -> set_table d t tb = d.
Proof.
  induction d as [|[n tb'] d IH]; simpl; [discriminate|].
  destruct (String.eqb t n) eqn:E; intros Hf.
  - now inversion Hf.
  - now rewrite IH.
Qed.

Lemma sql_eq_sym a b : sql_eq a b = sql_eq b a.
Proof.
  destruct a, b; simpl; auto using Z.eqb_sym, collate_sym.
Qed.

(** On integers [=] is identity. *)
Lemma sql_eq_int a z : sql_eq a (VInt z) = true <-> a = VInt z.
Proof.
  split; [|intros ->; apply Z.eqb_refl].
  destruct a; simpl; try discriminate.
  intros E. apply Z.eqb_eq in E. now subst.
Qed.

Lemma sql_eq_int_l z b : sql_eq (VInt z) b = true -> b = VInt z.
Proof. rewrite sql_eq_sym. apply sql_eq_int. Qed.

(** The same non-NULL cell, byte for byte: what a statement about the stored
    data can say without knowing the server's collation. *)
Definition same_cell (a b : value) : bool :=
  match a, b with
  | VInt x, VInt y => x =? y
  | VStr x, VStr y => String.eqb x y
  | _, _ => false
  end.



Lemma same_cell_int a z : same_cell a (VInt z) = sql_eq a (VInt z).
Proof. now destruct a. Qed.

(* ================================================================== *)
(** ** The executor on a live connection *)
(* ================================================================== *)

(** The singleton object [i] holds handle [h], whose session [s] is
    connected. *)
Definition live (i : nat) (w : world) (h : nat) (s : session) : Prop :=
  attr_connection i w = Some h /\ session_of w h = Some s /\ connected s = true.

(** ... and no transaction is open on it: the session sees exactly the
    committed state.  This is how every repository call finds and leaves the
    connection. *)
Definition ready (i : nat) (w : world) (h : nat) (s : session) : Prop :=
  live i w h s /\ working s = committed w.

(** The world after a call that left session [s'] on handle [h], committed
    state [cm], and issued [evs]. *)
Definition run_on (h : nat) (s' : session) (cm : database) (evs : list event)
    (w : world) : world :=
  mkworld (objects w) (cls_instance w) (list_set (handles w) h s') cm
    (server_up w) (now w) (entropy w) (draws w) (log w ++ evs).

Definition rows_or_nil (rs : option (list dict)) : list dict :=
  match rs with Some rows => rows | None => [] end.

(** What [_execute_query] does with a live connection, as a function of the
    server's verdict on the statement. *)
Definition executed (h : nat) (s : session) (q : stmt) (params : list value)
    (fetch : bool) (w : world) : result (option (list dict)) * world :=
  match exec_stmt (working s) (now w) (last_insert_id s) q params with
  | SqlOk o =>
      if fetch then
        (Ok (Some (rows_or_nil (o_rows o))),
         run_on h (mksession true (o_db o) (o_last o))
           (if is_ddl q then o_db o else committed w)
           [EvCursor h; EvExecute h q params; EvCursorClose h] w)
      else
        (Ok None,
         run_on h (mksession true (o_db o) (o_last o)) (o_db o)
           [EvCursor h; EvExecute h q params; EvCommit h; EvCursorClose h] w)
  | SqlErr e =>
      (Raise (Error e),
       run_on h (mksession true (committed w) (last_insert_id s)) (committed w)
         [EvCursor h; EvExecute h q params; EvRollback h;
          EvLogError "Database error" (Error e); EvCursorClose h] w)
  end.

Lemma get_connection_live i w h s :
  live i w h s -> get_connection i w = (Ok (Some h), w).
Proof.
  intros (Ha & Hs & Hc).
  unfold get_connection, bind, read, stale, is_connected.
  rewrite Ha, Hs, Hc. simpl. unfold ret. now rewrite Ha.
Qed.

Lemma execute_query_live self w h s q params fetch :
  live (self_db self) w h s ->
  _execute_query self q params fetch w = executed h s q params fetch w.
Proof.
  intros Hl. pose proof Hl as (Ha & Hs & Hc).
  unfold _execute_query, bind at 1. rewrite (get_connection_live _ _ _ _ Hl).
  unfold bind at 1. unfold conn_cursor, is_connected. rewrite Hs, Hc.
  unfold executed, finally, try_except, bind at 1.
  unfold cursor_execute, session_of, emit; simpl.
  fold (session_of w h). unfold session_of in *. rewrite Hs, Hc.
  destruct (exec_stmt (working s) (now w) (last_insert_id s) q params)
    as [o|e]; simpl.
  - destruct fetch; simpl.
    + unfold bind, cursor_fetchall, ret, cursor_close, emit, run_on.
      destruct (is_ddl q); simpl; rewrite <- !app_assoc; reflexivity.
    + unfold bind, conn_commit, session_of, ret, cursor_close, emit, run_on.
      destruct (is_ddl q); simpl;
        rewrite (nth_error_list_set _ _ _ _ Hs); simpl;
        rewrite <- !app_assoc; reflexivity.
  - unfold bind, conn_rollback, session_of, logging_error, raise, cursor_close,
      emit, run_on; simpl.
    rewrite Hs, Hc; simpl. rewrite <- !app_assoc. reflexivity.
Qed.

Lemma live_run_on i w h s s' cm evs :
  live i w h s -> connected s' = true -> live i (run_on h s' cm evs w) h s'.
Proof.
  intros (Ha & Hs & Hc) Hc'. repeat split; auto.
  unfold session_of, run_on; simpl. eapply nth_error_list_set; eauto.
Qed.

Lemma ready_run_on i w h s s' cm evs :
  live i w h s -> connected s' = true -> working s' = cm ->
  ready i (run_on h s' cm evs w) h s'.
Proof.
  intros Hl Hc' Hw. split; [eapply live_run_on; eauto | exact Hw].
Qed.

Lemma exec_stmt_query_rows d nw l q params o :
  exec_stmt d nw l q params = SqlOk o ->
  is_query q = true -> exists rows, o_rows o = Some rows /\ o_db o = d.
Proof.
  unfold exec_stmt.
  destruct (require _ _); simpl; [|discriminate].
  destruct q; simpl; try discriminate.
  - destruct (exec_select d params nw s); simpl; [|discriminate].
    intros E _; inversion E; simpl; eauto.
  - intros E _; inversion E; simpl; eauto.
Qed.


(** The executor leaves no transaction open behind a write, a read or a
    rejected statement: every repository call finds the connection as the
    previous one left it. *)
Lemma execute_query_keeps_ready self w h s q params fetch :
  ready (self_db self) w h s ->
  fetch = false \/ is_query q = true
  \/ (exists e, exec_stmt (working s) (now w) (last_insert_id s) q params
                = SqlErr e) ->
  exists s', ready (self_db self) (snd (_execute_query self q params fetch w))
               h s'.
Proof.
  intros [Hl Hw] Hcase.
  rewrite (execute_query_live _ _ _ _ _ _ _ Hl). unfold executed.
  destruct (exec_stmt _ _ _ _ _) as [o|e] eqn:E.
  - destruct fetch.
    + destruct Hcase as [Hf|[Hq|[e He]]]; try discriminate.
      destruct (exec_stmt_query_rows _ _ _ _ _ _ E Hq) as (rows & _ & Hdb).
      assert (Hd : is_ddl q = false) by (destruct q; auto; discriminate).
      rewrite Hd. eexists. cbn [snd].
      eapply ready_run_on; [exact Hl|reflexivity|].
      cbn. now rewrite Hdb.
    + eexists. cbn [snd].
      eapply ready_run_on; [exact Hl|reflexivity|reflexivity].
  - eexists. cbn [snd].
    eapply ready_run_on; [exact Hl|reflexivity|reflexivity].
Qed.

End Collated2.

(** *** A concrete process to run the model on *)

Definition me : BaseModel := mkBaseModel 0.

(** The world after the first [init_database] of a fresh process. *)
Definition w_init : world := after init_database world0.

Definition s_init : session := mksession true (committed w_init) 1.

(** Split conjunctions only, then decide each closed conjunct by running
    the model. *)
Ltac conjuncts := repeat match goal with |- _ /\ _ => split end.
Ltac by_running := conjuncts; vm_compute; reflexivity.

Lemma ready_w_init : ready 0 w_init 0 s_init.
Proof. unfold ready, live. by_running. Qed.

Section Collated3.
Context `{coll : Collation}.

(* ================================================================== *)
(** ** C3: the contract of the query executor *)
(* ================================================================== *)


End Collated3.


Section Collated4.
Context `{coll : Collation}.

(* ================================================================== *)
(** ** Schema initialization on a live connection *)
(* ================================================================== *)

(** A run of statements on one cursor, without parameters: the session's
    view [d], the committed state [cm] (DDL commits), LAST_INSERT_ID() and
    the number of statements sent. *)
Inductive script_result : Type :=
| ScriptOk (d cm : database) (last : Z)
| ScriptErr (e : Z) (d cm : database) (last : Z) (sent : nat).

Fixpoint run_script (d cm : database) (nw last : Z) (qs : list stmt)
  : script_result :=
  match qs with
  | [] => ScriptOk d cm last
  | q :: qs' =>
      match exec_stmt d nw last q [] with
      | SqlOk o =>
          match run_script (o_db o) (if is_ddl q then o_db o else cm) nw
                  (o_last o) qs' with
          | ScriptErr e d' cm' l' n => ScriptErr e d' cm' l' (S n)
          | r => r
          end
      | SqlErr e => ScriptErr e d cm last 1
      end
  end.

Definition sent_events (h : nat) (qs : list stmt) : list event :=
  map (fun q => EvExecute h q []) qs.

Lemma list_set_id {A} (l : list A) i x :
  nth_error l i = Some x -> list_set l i x = l.
Proof.
  revert i; induction l as [|y l IH]; intros [|i]; simpl; try discriminate.
  - now intros [= ->].
  - intros E. now rewrite IH.
Qed.

Lemma run_on_run_on h s1 s2 cm1 cm2 evs1 evs2 w :
  run_on h s2 cm2 evs2 (run_on h s1 cm1 evs1 w)
  = run_on h s2 cm2 (evs1 ++ evs2) w.
Proof.
  unfold run_on; simpl. now rewrite list_set_same, app_assoc.
Qed.

Lemma run_on_id h s w :
  session_of w h = Some s -> run_on h s (committed w) [] w = w.
Proof.
  intros Hs. unfold run_on. rewrite (list_set_id _ _ _ Hs), app_nil_r.
  now destruct w.
Qed.

Lemma session_run_on h s s' cm evs w :
  session_of w h = Some s -> session_of (run_on h s' cm evs w) h = Some s'.
Proof.
  intros Hs. unfold session_of, run_on; simpl.
  eapply nth_error_list_set; eauto.
Qed.

Lemma cursor_execute_live h s q w :
  session_of w h = Some s -> connected s = true ->
  cursor_execute h q [] w
  = match exec_stmt (working s) (now w) (last_insert_id s) q [] with
    | SqlOk o =>
        (Ok (o_rows o),
         run_on h (mksession true (o_db o) (o_last o))
           (if is_ddl q then o_db o else committed w) [EvExecute h q []] w)
    | SqlErr e =>
        (Raise (Error e), run_on h s (committed w) [EvExecute h q []] w)
    end.
Proof.
  intros Hs Hc. unfold cursor_execute. rewrite Hs, Hc.
  destruct (exec_stmt _ _ _ _ _) as [o|e].
  - unfold run_on, emit, set_handles, set_committed; simpl.
    now destruct (is_ddl q).
  - unfold run_on, emit; simpl. now rewrite (list_set_id _ _ _ Hs).
Qed.

Lemma execute_all_live h qs : forall w s,
  session_of w h = Some s -> connected s = true ->
  execute_all h qs w
  = match run_script (working s) (committed w) (now w) (last_insert_id s) qs with
    | ScriptOk d cm l =>
        (Ok tt, run_on h (mksession true d l) cm (sent_events h qs) w)
    | ScriptErr e d cm l n =>
        (Raise (Error e),
         run_on h (mksession true d l) cm (sent_events h (firstn n qs)) w)
    end.
Proof.
  induction qs as [|q qs IH]; intros w s Hs Hc.
  - simpl. unfold ret. destruct s as [c d l]; simpl in *; subst c.
    now rewrite (run_on_id _ _ _ Hs).
  - simpl. unfold bind. rewrite (cursor_execute_live _ _ _ _ Hs Hc).
    destruct (exec_stmt _ _ _ _ _) as [o|e].
    + erewrite IH; [|eapply session_run_on; eauto|reflexivity].
      simpl.
      destruct (run_script _ _ _ _ _); rewrite run_on_run_on; reflexivity.
    + simpl. destruct s as [c d l]; simpl in *; subst c. reflexivity.
Qed.

(** What [init_database] does once the singleton exists and is connected. *)
Definition initialized_by (h : nat) (s : session) (w : world)
  : result unit * world :=
  match run_script (working s) (committed w) (now w) (last_insert_id s)
          init_statements with
  | ScriptOk d cm l =>
      (Ok tt,
       run_on h (mksession true d l) d
         (EvCursor h :: sent_events h init_statements
          ++ [EvCommit h;
              EvLogInfo "Database schema initialized successfully";
              EvCursorClose h]) w)
  | ScriptErr e d cm l n =>
      (Raise (Error e),
       run_on h (mksession true cm l) cm
         (EvCursor h :: sent_events h (firstn n init_statements)
          ++ [EvRollback h;
              EvLogError "Error initializing database schema" (Error e);
              EvCursorClose h]) w)
  end.

Lemma init_database_live i w h s :
  cls_instance w = Some i -> live i w h s ->
  init_database w = initialized_by h s w.
Proof.
  intros Hi Hl. pose proof Hl as (Ha & Hs & Hc).
  unfold init_database, bind at 1. unfold DatabaseConnection_new. rewrite Hi.
  unfold bind at 1. rewrite (get_connection_live _ _ _ _ Hl).
  unfold bind at 1. unfold conn_cursor, is_connected. rewrite Hs, Hc.
  assert (Hs' : session_of (emit (EvCursor h) w) h = Some s) by exact Hs.
  unfold finally, try_except, bind at 1.
  rewrite (execute_all_live h init_statements _ s Hs' Hc).
  unfold initialized_by.
  change (committed (emit (EvCursor h) w)) with (committed w).
  change (now (emit (EvCursor h) w)) with (now w).
  destruct (run_script _ _ _ _ _) as [d cm l|e d cm l n].
  - unfold bind, conn_commit, logging_info, cursor_close.
    erewrite session_run_on by exact Hs'. simpl.
    unfold run_on, emit; simpl. rewrite <- !app_assoc. reflexivity.
  - unfold bind, conn_rollback, logging_error, raise, cursor_close.
    erewrite session_run_on by exact Hs'. simpl.
    unfold run_on, emit; simpl. rewrite list_set_same, <- !app_assoc.
    reflexivity.
Qed.

End Collated4.

(* ================================================================== *)
(** ** C2: how database failures leave the executor and the bootstrap *)
(* ================================================================== *)

(** A server that already holds a [roles] table from an older schema, without
    the [description] column. *)
Definition legacy_roles : table :=
  mktable [primary_key "role_id"; unique (not_null (col "role_name" (TVarchar 50)))]
    [] [] 1.

Definition w_legacy : world :=
  mkworld [] None [] [("roles", legacy_roles)] true 1000 (fun _ => salt0) 0 [].

(** C2, as stated, fails: a rejected statement leaves the executor as the
    connector's own [Error] (here 1062 for a duplicate role name), not as a
    [QueryError], and a rejected bootstrap statement leaves [init_database]
    as the connector's [Error] (here 1054 on the legacy table), not as a
    [SchemaError]. *)
Lemma C2_counterexample :
  (fst (_execute_query me q_insert_role [VStr "admin"; VStr "again"] false w_init)
   = Raise (Error 1062)
   /\ forall cause,
        fst (_execute_query me q_insert_role [VStr "admin"; VStr "again"] false
               w_init)
        <> Raise (QueryError cause))
  /\
  (fst (init_database w_legacy) = Raise (Error 1054)
   /\ forall cause, fst (init_database w_legacy) <> Raise (SchemaError cause)).
Proof.
  assert (E1 : fst (_execute_query me q_insert_role
                      [VStr "admin"; VStr "again"] false w_init)
               = Raise (Error 1062)) by (vm_compute; reflexivity).
  assert (E2 : fst (init_database w_legacy) = Raise (Error 1054))
    by (vm_compute; reflexivity).
  conjuncts; auto; intros cause; [rewrite E1 | rewrite E2]; discriminate.
Qed.

Section Collated5.
Context `{coll : Collation}.

(** C2, amended.  With the singleton connected: a statement the server
    rejects with error [e] leaves [_execute_query] as that same [Error e],
    raised after a rollback on the connection; and whenever [init_database]
    raises, one of its statements was rejected with some error [e], the
    exception is that same [Error e], and it is raised after a rollback. *)
Theorem C2_failures_reraised_unchanged i w h s :
  cls_instance w = Some i -> live i w h s ->
  (forall q params fetch e,
      exec_stmt (working s) (now w) (last_insert_id s) q params = SqlErr e ->
      let r := _execute_query (mkBaseModel i) q params fetch w in
      fst r = Raise (Error e) /\
      exists evs1 evs2, log (snd r) = log w ++ evs1 ++ EvRollback h :: evs2)
  /\
  (forall x,
      fst (init_database w) = Raise x ->
      exists e d cm l n,
        run_script (working s) (committed w) (now w) (last_insert_id s)
          init_statements = ScriptErr e d cm l n
        /\ x = Error e
        /\ exists evs1 evs2,
             log (snd (init_database w)) = log w ++ evs1 ++ EvRollback h :: evs2).
Proof.
  intros Hi Hl. split.
  - intros q params fetch e He r. subst r.
    rewrite (execute_query_live (mkBaseModel i) w h s q params fetch Hl).
    unfold executed. rewrite He. simpl. split; [reflexivity|].
    exists [EvCursor h; EvExecute h q params].
    eexists. reflexivity.
  - intros x. rewrite (init_database_live i w h s Hi Hl).
    unfold initialized_by.
    destruct (run_script _ _ _ _ _) as [d cm l|e d cm l n]; simpl.
    + discriminate.
    + intros [= <-]. exists e, d, cm, l, n. repeat split.
      exists (EvCursor h :: sent_events h (firstn n init_statements)).
      eexists. simpl. reflexivity.
Qed.

End Collated5.

Definition w_legacy1 : world := after init_database w_legacy.

Lemma C2_witness :
  cls_instance w_legacy1 = Some 0%nat
  /\ live 0 w_legacy1 0 (mksession true (committed w_legacy1) 0)
  /\ fst (_execute_query me seed_roles [] false w_legacy1) = Raise (Error 1054).
Proof.
  assert (Hi : cls_instance w_legacy1 = Some 0%nat)
    by (vm_compute; reflexivity).
  assert (Hl : live 0 w_legacy1 0 (mksession true (committed w_legacy1) 0))
    by (unfold live; by_running).
  assert (He : exec_stmt (committed w_legacy1) (now w_legacy1) 0 seed_roles []
               = SqlErr 1054) by (vm_compute; reflexivity).
  split; [exact Hi|]. split; [exact Hl|].
  destruct (C2_failures_reraised_unchanged 0 w_legacy1 0 _ Hi Hl) as [Hq _].
  exact (proj1 (Hq seed_roles [] false 1054 He)).
Defined.

Section Collated6.
Context `{coll : Collation}.

(* ================================================================== *)
(** ** Statements against the schema of [init_database] *)
(* ================================================================== *)

(** Table [t] exists with the columns [cols]. *)
Definition has_schema (d : database) (t : string) (cols : list column) : Prop :=
  exists tb, find_table d t = Some tb /\ tcols tb = cols.

(** The name-bearing columns of a user do not exist: both task listings name
    [first_name] and [last_name] of [users], which the schema does not
    declare. *)
Lemma tasks_by_user_rejected d nw l uid as_manager :
  has_schema d "tasks" tasks_cols ->
  has_schema d "task_status" task_status_cols ->
  has_schema d "users" users_cols ->
  exec_stmt d nw l
    (if as_manager : bool then q_tasks_assigned_by else q_tasks_assigned_to)
    [VInt uid]
  = SqlErr ER_BAD_FIELD.
Proof.
  intros (t1 & F1 & C1) (t2 & F2 & C2) (t3 & F3 & C3).
  destruct as_manager;
    unfold exec_stmt, exec_select, select_scope; simpl;
    unfold table_scope; rewrite F1, F2, F3; simpl;
    unfold col_names; rewrite C1, C2, C3; reflexivity.
Qed.

End Collated6.

(** *** More of the concrete process: a user, then a task assigned to and
    by that user *)

Definition w_bob : world :=
  after (create_user (H := Bcrypt.ref_impl) me "bob" "secret" "bob@x.org" 3 None)
    w_init.

Definition task1 : dict :=
  [("title", VStr "call back"); ("assigned_to", VInt 1); ("assigned_by", VInt 1);
   ("due_date", VInt 20000); ("status_id", VInt 1)].

Definition w_task : world := after (create_task me task1) w_bob.

Definition s_task : session := mksession true (committed w_task) 1.

Lemma ready_w_task : ready 0 w_task 0 s_task.
Proof. unfold ready, live. by_running. Qed.

Ltac schema_by_running :=
  unfold has_schema; eexists; split; vm_compute; reflexivity.

Section Collated7.
Context `{coll : Collation}.

(* ================================================================== *)
(** ** C6: the task listings *)
(* ================================================================== *)

(** C6 does not hold of the code.  On the schema that [init_database]
    creates, [get_tasks_by_user] raises the server's error 1054 (unknown
    column) for every user and both values of [as_manager], after a rollback
    that leaves the committed state as it was: the listings project
    [CONCAT(first_name, ' ', last_name)] of [users], and [users] has no such
    columns. *)
Theorem C6_get_tasks_by_user_raises self w h s uid as_manager :
  ready (self_db self) w h s ->
  has_schema (committed w) "tasks" tasks_cols ->
  has_schema (committed w) "task_status" task_status_cols ->
  has_schema (committed w) "users" users_cols ->
  fst (get_tasks_by_user self uid as_manager w) = Raise (Error 1054)
  /\ committed (snd (get_tasks_by_user self uid as_manager w)) = committed w.
Proof.
  intros [Hl Hw] H1 H2 H3. unfold get_tasks_by_user.
  rewrite (execute_query_live _ _ _ _ _ _ _ Hl). unfold executed.
  rewrite Hw, (tasks_by_user_rejected _ _ _ uid as_manager H1 H2 H3).
  split; reflexivity.
Qed.

End Collated7.

Lemma C6_witness :
  ready (self_db me) w_task 0 s_task
  /\ rows_of (committed w_task) "tasks"
     = [[("task_id", VInt 1); ("title", VStr "call back"); ("description", VNull);
         ("assigned_to", VInt 1); ("assigned_by", VInt 1);
         ("due_date", VInt 20000); ("status_id", VInt 1);
         ("priority", VStr "medium"); ("created_at", VInt 1000);
         ("updated_at", VInt 1000)]]
  /\ fst (get_tasks_by_user me 1 false w_task) = Raise (Error 1054)
  /\ fst (get_tasks_by_user me 1 true w_task) = Raise (Error 1054).
Proof.
  assert (H1 : has_schema (committed w_task) "tasks" tasks_cols)
    by schema_by_running.
  assert (H2 : has_schema (committed w_task) "task_status" task_status_cols)
    by schema_by_running.
  assert (H3 : has_schema (committed w_task) "users" users_cols)
    by schema_by_running.
  split; [exact ready_w_task|]. split; [vm_compute; reflexivity|].
  split.
  - exact (proj1 (C6_get_tasks_by_user_raises me w_task 0 s_task 1 false
                    ready_w_task H1 H2 H3)).
  - exact (proj1 (C6_get_tasks_by_user_raises me w_task 0 s_task 1 true
                    ready_w_task H1 H2 H3)).
Defined.

Section Collated8.
Context `{coll : Collation}.

(* ================================================================== *)
(** ** C9: updates that match no row *)
(* ================================================================== *)

Lemma update_rows_no_match d tb t nw params sets wc wv : forall todo before,
  existsb (fun r => sql_eq (dget_or r wc VNull) wv) todo = false ->
  update_rows d tb t nw params sets wc wv before todo = SqlOk (before ++ todo).
Proof.
  induction todo as [|r todo IH]; intros before Hn; simpl.
  - now rewrite app_nil_r.
  - simpl in Hn. apply orb_false_iff in Hn as [Hr Ht].
    rewrite Hr, IH by exact Ht. now rewrite <- app_assoc.
Qed.

Lemma table_eta tb : mktable (tcols tb) (tfks tb) (trows tb) (tnext tb) = tb.
Proof. now destruct tb. Qed.

(** An UPDATE ... WHERE key = v that matches no row succeeds and changes
    nothing. *)
Lemma update_no_match d nw l t sets wc we params tb :
  find_table d t = Some tb ->
  forallb (fun s => has_col tb (fst s) && expr_ok [(t, col_names tb)] (snd s))
    sets = true ->
  has_col tb wc && expr_ok [(t, col_names tb)] we = true ->
  Nat.eqb (stmt_params (SUpdate t sets wc we)) (List.length params) = true ->
  existsb (fun r => sql_eq (dget_or r wc VNull) (eval [] params nw we))
    (trows tb) = false ->
  exec_stmt d nw l (SUpdate t sets wc we) params = SqlOk (mkoutcome d None l).
Proof.
  intros Hf Hs Hw Hp Hn. unfold exec_stmt. rewrite Hp. simpl.
  unfold exec_update. rewrite Hf, Hs, Hw. simpl.
  rewrite update_rows_no_match by exact Hn. simpl.
  now rewrite table_eta, (set_table_same _ _ _ Hf).
Qed.

(** No stored row has cell [v] under [key], byte for byte. *)
Definition no_row_with (key : string) (v : value) (rows : list dict) : bool :=
  negb (existsb (fun r => same_cell (dget_or r key VNull) v) rows).

(** No stored row has under [key] a cell equal to [v] for the server: what a
    WHERE, a UNIQUE key or a FOREIGN KEY looks for. *)
Definition unmatched (key : string) (v : value) (rows : list dict) : bool :=
  negb (existsb (fun r => sql_eq (dget_or r key VNull) v) rows).

(** For an integer the two agree. *)
Lemma no_row_with_int key z rows :
  no_row_with key (VInt z) rows = unmatched key (VInt z) rows.
Proof.
  unfold no_row_with, unmatched.
  induction rows as [|r rows IH]; simpl; [reflexivity|].
  rewrite same_cell_int.
  destruct (sql_eq (dget_or r key VNull) (VInt z)); simpl; [reflexivity|].
  exact IH.
Qed.


Lemma contact_params_pure data w : snd (contact_params data w) = w.
Proof.
  unfold contact_params, bind, item, ret, raise.
  destruct (dget data "first_name"); [|reflexivity].
  destruct (dget data "last_name"); reflexivity.
Qed.

(** C9.  [update_task_status] and [update_contact] return [True] as soon as
    the executor returns from their UPDATE, and [True] is the only value
    they ever return; and for an id that matches no row (whatever status id
    or contact data is passed, as long as the contact data carries the two
    required names) the UPDATE is accepted: they return [True], the
    statement is committed, and the committed state is the one before.
    Nothing tells the caller that no row was updated. *)
Theorem C9_update_of_missing_row_returns_true self w h s :
  ready (self_db self) w h s ->
  (forall task_id status_id x,
      fst (_execute_query self q_update_task_status
             [VInt status_id; VInt task_id] false w) = Ok x ->
      fst (update_task_status self task_id status_id w) = Ok true)
  /\
  (forall contact_id data params x,
      fst (contact_params data w) = Ok params ->
      fst (_execute_query self q_update_contact (params ++ [VInt contact_id])
             false w) = Ok x ->
      fst (update_contact self contact_id data w) = Ok true)
  /\
  (forall task_id status_id v,
      fst (update_task_status self task_id status_id w) = Ok v -> v = true)
  /\
  (forall contact_id data v,
      fst (update_contact self contact_id data w) = Ok v -> v = true)
  /\
  (forall tb task_id status_id,
      find_table (committed w) "tasks" = Some tb ->
      tcols tb = tasks_cols ->
      no_row_with "task_id" (VInt task_id) (trows tb) = true ->
      let r := update_task_status self task_id status_id w in
      fst r = Ok true /\ committed (snd r) = committed w
      /\ In (EvCommit h) (log (snd r)))
  /\
  (forall tb contact_id data first_name last_name,
      find_table (committed w) "contacts" = Some tb ->
      tcols tb = contacts_cols ->
      dget data "first_name" = Some first_name ->
      dget data "last_name" = Some last_name ->
      no_row_with "contact_id" (VInt contact_id) (trows tb) = true ->
      let r := update_contact self contact_id data w in
      fst r = Ok true /\ committed (snd r) = committed w
      /\ In (EvCommit h) (log (snd r))).
Proof.
  intros [Hl Hw]. conjuncts.
  - intros task_id status_id x. unfold update_task_status, bind, ret.
    destruct (_execute_query _ _ _ _ _) as [[y|e] w']; simpl;
      [reflexivity|discriminate].
  - intros contact_id data params x. unfold update_contact, bind, ret.
    pose proof (contact_params_pure data w) as Hp.
    destruct (contact_params data w) as [[ps|e] w']; simpl in *;
      [|discriminate].
    subst w'. intros [= ->].
    destruct (_execute_query _ _ _ _ _) as [[y|e] w'']; simpl;
      [reflexivity|discriminate].
  - intros task_id status_id v. unfold update_task_status, bind, ret.
    destruct (_execute_query _ _ _ _ _) as [[x|e] w']; simpl; congruence.
  - intros contact_id data v. unfold update_contact, bind, ret.
    destruct (contact_params data w) as [[x|e] w']; simpl; [|congruence].
    destruct (_execute_query _ _ _ _ _) as [[y|e] w'']; simpl; congruence.
  - intros tb task_id status_id Hf Hc Hn r. subst r.
    unfold update_task_status, bind.
    rewrite (execute_query_live _ _ _ _ _ _ _ Hl). unfold executed.
    rewrite Hw. unfold q_update_task_status, q_update_contact.
    rewrite (update_no_match _ _ _ _ _ _ _ _ tb Hf).
    + simpl. conjuncts; auto. apply in_or_app. right. simpl; auto.
    + unfold has_col, col_names. rewrite Hc. reflexivity.
    + unfold has_col, col_names. rewrite Hc. reflexivity.
    + reflexivity.
    + rewrite no_row_with_int in Hn. apply negb_true_iff in Hn. exact Hn.
  - intros tb contact_id data first_name last_name Hf Hc H1 H2 Hn r. subst r.
    unfold update_contact, bind at 1. unfold contact_params, bind, item, ret.
    rewrite H1, H2.
    rewrite (execute_query_live _ _ _ _ _ _ _ Hl). unfold executed.
    rewrite Hw. unfold q_update_task_status, q_update_contact.
    rewrite (update_no_match _ _ _ _ _ _ _ _ tb Hf).
    + simpl. conjuncts; auto. apply in_or_app. right. simpl; auto.
    + unfold has_col, col_names. rewrite Hc. reflexivity.
    + unfold has_col, col_names. rewrite Hc. reflexivity.
    + reflexivity.
    + rewrite no_row_with_int in Hn. apply negb_true_iff in Hn. exact Hn.
Qed.

End Collated8.

Lemma C9_witness :
  ready (self_db me) w_task 0 s_task
  /\ fst (update_task_status me 77 99 w_task) = Ok true
  /\ fst (update_contact me 5 [("first_name", VStr "A"); ("last_name", VStr "B")]
            w_task) = Ok true.
Proof.
  split; [exact ready_w_task|].
  destruct (C9_update_of_missing_row_returns_true me w_task 0 s_task
              ready_w_task) as (_ & _ & _ & _ & Ht & Hc).
  split.
  - refine (proj1 (Ht (mktable tasks_cols tasks_fks
                         (rows_of (committed w_task) "tasks") 2) 77 99 _ _ _));
      vm_compute; reflexivity.
  - refine (proj1 (Hc (mktable contacts_cols contacts_fks [] 1) 5
                     [("first_name", VStr "A"); ("last_name", VStr "B")]
                     (VStr "A") (VStr "B") _ _ _ _ _));
      vm_compute; reflexivity.
Defined.

Section Collated9.
Context `{coll : Collation}.

(* ================================================================== *)
(** ** Single-row INSERT *)
(* ================================================================== *)

Lemma insert_row_inv d t tb nw given tb' g :
  insert_row d t tb nw given = SqlOk (tb', g) ->
  let r := build_row tb nw given in
  check_cols (tcols tb) r = SqlOk tt
  /\ unique_ok (tcols tb) (trows tb) r = true
  /\ fk_ok d t (tfks tb) r = true
  /\ tb' = mktable (tcols tb) (tfks tb) (trows tb ++ [r])
             (bump (tcols tb) r (tnext tb))
  /\ g = generated tb given.
Proof.
  intros H. cbv zeta. unfold insert_row in H.
  destruct (check_cols _ _) as [[]|e]; simpl in H; [|discriminate].
  destruct (unique_ok _ _ _); simpl in H; [|discriminate].
  destruct (fk_ok _ _ _ _); simpl in H; [|discriminate].
  inversion H. auto.
Qed.

(** A plain INSERT of one row of placeholders is the row insertion on the
    bound parameters. *)
Lemma exec_insert_one d nw l t cols es params tb :
  find_table d t = Some tb ->
  forallb (has_col tb) cols = true ->
  forallb (expr_ok []) es = true ->
  Nat.eqb (List.length es) (List.length cols) = true ->
  Nat.eqb (stmt_params (SInsert false t cols [es])) (List.length params) = true ->
  exec_stmt d nw l (SInsert false t cols [es]) params
  = match insert_row d t tb nw (combine cols (map (eval [] params nw) es)) with
    | SqlOk (tb', g) =>
        SqlOk (mkoutcome (set_table d t tb') None
                 (match g with Some i => i | None => l end))
    | SqlErr e => SqlErr e
    end.
Proof.
  intros Hf Hc He Hl Hp. unfold exec_stmt. rewrite Hp. simpl.
  unfold exec_insert. rewrite Hf, Hc. simpl. rewrite He. simpl.
  rewrite Hf, Hl. simpl.
  destruct (insert_row _ _ _ _ _) as [[tb' g]|e]; reflexivity.
Qed.






(** The world a rejected statement leaves behind. *)
Definition rejected (h : nat) (s : session) (q : stmt) (params : list value)
    (e : Z) (w : world) : world :=
  run_on h (mksession true (committed w) (last_insert_id s)) (committed w)
    [EvCursor h; EvExecute h q params; EvRollback h;
     EvLogError "Database error" (Error e); EvCursorClose h] w.

Lemma rejected_then {B} self w h s q params fetch e (k : M B) :
  live (self_db self) w h s ->
  exec_stmt (working s) (now w) (last_insert_id s) q params = SqlErr e ->
  (_execute_query self q params fetch ;;; k) w
  = (Raise (Error e), rejected h s q params e w).
Proof.
  intros Hl He. unfold bind.
  rewrite (execute_query_live _ _ _ _ _ _ _ Hl). unfold executed.
  now rewrite He.
Qed.

(* ================================================================== *)
(** ** C10: the administrative inserts are not idempotent *)
(* ================================================================== *)


End Collated9.


Section Collated10.
Context `{coll : Collation}.

(* ================================================================== *)
(** ** The create operations: INSERT, then SELECT LAST_INSERT_ID() *)
(* ================================================================== *)

(** The world an accepted write leaves behind, once the id was read back. *)
Definition inserted (h : nat) (q : stmt) (params : list value) (o : outcome)
    (w : world) : world :=
  run_on h (mksession true (o_db o) (o_last o)) (o_db o)
    [EvCursor h; EvExecute h q params; EvCommit h; EvCursorClose h;
     EvCursor h; EvExecute h SLastInsertId []; EvCursorClose h] w.

Lemma insert_then_last_id self w h s q params o :
  live (self_db self) w h s ->
  exec_stmt (working s) (now w) (last_insert_id s) q params = SqlOk o ->
  (_execute_query self q params false ;;; last_insert self) w
  = (Ok (VInt (o_last o)), inserted h q params o w).
Proof.
  intros Hl He. unfold bind at 1.
  rewrite (execute_query_live _ _ _ _ _ _ _ Hl). unfold executed.
  rewrite He. unfold last_insert, bind at 1.
  erewrite execute_query_live by (eapply live_run_on; [exact Hl|reflexivity]).
  unfold executed. cbn. unfold inserted.
  now rewrite run_on_run_on.
Qed.

Lemma committed_inserted h q params o w :
  committed (inserted h q params o w) = o_db o.
Proof. reflexivity. Qed.

Lemma live_set_draws i w h s n : live i w h s -> live i (set_draws n w) h s.
Proof. intros H; exact H. Qed.

Section CreateUser.
Context `{Bcrypt.impl}.

(** The cells [create_user] binds. *)
Definition user_params (w : world) (username password email : string)
    (role_id : Z) (manager_id : option Z) : list value :=
  [VStr username; VStr (Bcrypt.hashpw password (entropy w (draws w)));
   VStr email; VInt role_id; opt_int manager_id].

Lemma create_user_live self w h s username password email role_id manager_id :
  live (self_db self) w h s ->
  let params := user_params w username password email role_id manager_id in
  let w0 := set_draws (S (draws w)) w in
  create_user self username password email role_id manager_id w
  = match exec_stmt (working s) (now w) (last_insert_id s) q_insert_user params
    with
    | SqlOk o => (Ok (VInt (o_last o)), inserted h q_insert_user params o w0)
    | SqlErr e =>
        (Raise (Error e),
         emit (EvLogError "Error creating user" (Error e))
           (rejected h s q_insert_user params e w0))
    end.
Proof.
  intros Hl params w0.
  assert (Hl0 : live (self_db self) w0 h s) by exact Hl.
  unfold create_user, bind at 1. unfold gensalt. fold w0.
  unfold try_except. subst params. unfold user_params.
  destruct (exec_stmt _ _ _ _ _) as [o|e] eqn:E.
  - now rewrite (insert_then_last_id _ _ _ _ _ _ _ Hl0 E).
  - now rewrite (rejected_then _ _ _ _ _ _ _ _ _ Hl0 E).
Qed.

End CreateUser.

(** The cells [create_task] binds, when the five required keys are there. *)
Definition task_params (data : dict) : option (list value) :=
  match dget data "title", dget data "assigned_to", dget data "assigned_by",
        dget data "due_date", dget data "status_id" with
  | Some title, Some assigned_to, Some assigned_by, Some due_date,
    Some status_id =>
      Some [title; get data "description"; assigned_to; assigned_by; due_date;
            status_id; dget_or data "priority" (VStr "medium")]
  | _, _, _, _, _ => None
  end.

Lemma create_task_live self w h s data params :
  live (self_db self) w h s ->
  task_params data = Some params ->
  create_task self data w
  = match exec_stmt (working s) (now w) (last_insert_id s) q_insert_task
            params with
    | SqlOk o => (Ok (VInt (o_last o)), inserted h q_insert_task params o w)
    | SqlErr e => (Raise (Error e), rejected h s q_insert_task params e w)
    end.
Proof.
  intros Hl. unfold task_params, create_task.
  unfold bind at 1. unfold item at 1.
  destruct (dget data "title") as [title|]; [|discriminate].
  unfold ret at 1. unfold bind at 1. unfold item at 1.
  destruct (dget data "assigned_to") as [assigned_to|]; [|discriminate].
  unfold ret at 1. unfold bind at 1. unfold item at 1.
  destruct (dget data "assigned_by") as [assigned_by|]; [|discriminate].
  unfold ret at 1. unfold bind at 1. unfold item at 1.
  destruct (dget data "due_date") as [due_date|]; [|discriminate].
  unfold ret at 1. unfold bind at 1. unfold item at 1.
  destruct (dget data "status_id") as [status_id|]; [|discriminate].
  unfold ret at 1. intros [= <-].
  destruct (exec_stmt _ _ _ _ _) as [o|e] eqn:E.
  - now rewrite (insert_then_last_id _ _ _ _ _ _ _ Hl E).
  - now rewrite (rejected_then _ _ _ _ _ _ _ _ _ Hl E).
Qed.

Lemma create_task_missing_key self data w :
  task_params data = None -> exists k, fst (create_task self data w) = Raise (KeyError k).
Proof.
  unfold task_params, create_task, bind, item, ret, raise.
  destruct (dget data "title"); [|intros _; eexists; reflexivity].
  destruct (dget data "assigned_to"); [|intros _; eexists; reflexivity].
  destruct (dget data "assigned_by"); [|intros _; eexists; reflexivity].
  destruct (dget data "due_date"); [|intros _; eexists; reflexivity].
  destruct (dget data "status_id"); [discriminate|].
  intros _; eexists; reflexivity.
Qed.

(* ================================================================== *)
(** ** C8: defaults of [create_task] and [create_user] *)
(* ================================================================== *)

Section Defaults.
Context `{Bcrypt.impl}.

(** C8.  When [create_task] is given data without a ["priority"] key and
    returns, the row it added to [tasks] carries priority ["medium"] and the
    returned id.  When [create_user] is called without a manager and returns,
    the row it added to [users] carries a NULL [manager_id] and the returned
    id; and it does return, with the table's next id, whenever the user name
    and the e-mail address fit their columns and are equal, under the
    server's collation, to no stored user's, the role id is within INT and
    names a stored role, and the table's counter is within INT and no stored
    user's id: the absent manager is not an error. *)
Theorem C8_defaults self w h s :
  ready (self_db self) w h s ->
  (forall tb data v,
      find_table (committed w) "tasks" = Some tb ->
      tcols tb = tasks_cols ->
      dget data "priority" = None ->
      let r := create_task self data w in
      fst r = Ok v ->
      exists row,
        rows_of (committed (snd r)) "tasks" = trows tb ++ [row]
        /\ dget row "priority" = Some (VStr "medium")
        /\ dget row "task_id" = Some v)
  /\
  (forall tb username password email role_id v,
      find_table (committed w) "users" = Some tb ->
      tcols tb = users_cols ->
      let r := create_user self username password email role_id None w in
      fst r = Ok v ->
      exists row,
        rows_of (committed (snd r)) "users" = trows tb ++ [row]
        /\ dget row "manager_id" = Some VNull
        /\ dget row "user_id" = Some v)
  /\
  (forall tb username password email role_id,
      find_table (committed w) "users" = Some tb ->
      tcols tb = users_cols ->
      tfks tb = users_fks ->
      Nat.leb (String.length username) 50 = true ->
      Nat.leb (String.length email) 100 = true ->
      int32 role_id = true ->
      int32 (tnext tb) = true ->
      unmatched "user_id" (VInt (tnext tb)) (trows tb) = true ->
      unmatched "username" (VStr username) (trows tb) = true ->
      unmatched "email" (VStr email) (trows tb) = true ->
      unmatched "role_id" (VInt role_id) (rows_of (committed w) "roles")
      = false ->
      fst (create_user self username password email role_id None w)
      = Ok (VInt (tnext tb))).
Proof.
  intros [Hl Hw]. conjuncts.
  - intros tb data v Hf Hc Hp r. subst r.
    destruct (task_params data) as [params|] eqn:Ep.
    2:{ destruct (create_task_missing_key self data w Ep) as [k ->].
        discriminate. }
    rewrite (create_task_live _ _ _ _ _ _ Hl Ep).
    destruct (exec_stmt _ _ _ _ _) as [o|e] eqn:E; [|discriminate].
    cbn [fst snd]. rewrite committed_inserted. intros [= <-].
    unfold task_params in Ep.
    destruct (dget data "title") as [title|]; [|discriminate].
    destruct (dget data "assigned_to") as [assigned_to|]; [|discriminate].
    destruct (dget data "assigned_by") as [assigned_by|]; [|discriminate].
    destruct (dget data "due_date") as [due_date|]; [|discriminate].
    destruct (dget data "status_id") as [status_id|]; [|discriminate].
    injection Ep as <-. unfold dget_or at 1 in E. rewrite Hp in E.
    rewrite Hw in E. unfold q_insert_task in E.
    rewrite (exec_insert_one _ _ _ _ _ _ _ tb Hf) in E;
      try (unfold has_col, col_names; rewrite ?Hc; reflexivity).
    cbn [map params_from seq eval nth combine] in E.
    destruct (insert_row _ _ _ _) as [[tb' g]|e] eqn:Ei; [|discriminate].
    apply insert_row_inv in Ei as (_ & _ & _ & -> & ->).
    inversion E; subst o; clear E. cbn [o_db o_last].
    unfold rows_of. rewrite find_set_table_same. cbn [trows].
    eexists. split; [reflexivity|].
    unfold build_row, generated. rewrite Hc. cbn. auto.
  - intros tb username password email role_id v Hf Hc r. subst r.
    rewrite (create_user_live _ _ _ _ _ _ _ _ _ Hl). cbv zeta.
    destruct (exec_stmt _ _ _ _ _) as [o|e] eqn:E; [|discriminate].
    cbn [fst snd]. rewrite committed_inserted. intros [= <-].
    rewrite Hw in E. unfold q_insert_user, user_params in E.
    rewrite (exec_insert_one _ _ _ _ _ _ _ tb Hf) in E;
      try (unfold has_col, col_names; rewrite ?Hc; reflexivity).
    cbn [map params_from seq eval nth combine opt_int] in E.
    destruct (insert_row _ _ _ _) as [[tb' g]|e] eqn:Ei; [|discriminate].
    apply insert_row_inv in Ei as (_ & _ & _ & -> & ->).
    inversion E; subst o; clear E. cbn [o_db o_last].
    unfold rows_of. rewrite find_set_table_same. cbn [trows].
    eexists. split; [reflexivity|].
    unfold build_row, generated. rewrite Hc. cbn. auto.
  - intros tb username password email role_id Hf Hc Hk Hu He Hri _ Hid Hnu Hne
      Hr.
    rewrite (create_user_live _ _ _ _ _ _ _ _ _ Hl). cbv zeta.
    rewrite Hw. unfold q_insert_user, user_params.
    rewrite (exec_insert_one _ _ _ _ _ _ _ tb Hf);
      try (unfold has_col, col_names; rewrite ?Hc; reflexivity).
    cbn [map params_from seq eval nth combine opt_int].
    unfold unmatched in *.
    apply negb_true_iff in Hid, Hnu, Hne. apply negb_false_iff in Hr.
    unfold insert_row, build_row, generated. rewrite Hc, Hk. cbn.
    rewrite Hu, He, Hri, Bcrypt.hashpw_length. cbn.
    rewrite Hid, Hnu, Hne. cbn. rewrite Hr. cbn. reflexivity.
Qed.

End Defaults.

End Collated10.

Definition s_bob : session := mksession true (committed w_bob) 1.

Lemma ready_w_bob : ready 0 w_bob 0 s_bob.
Proof. unfold ready, live. by_running. Qed.

Lemma C8_witness :
  ready (self_db me) w_bob 0 s_bob
  /\ (exists row,
        rows_of (committed (snd (create_task me task1 w_bob))) "tasks" = [row]
        /\ dget row "priority" = Some (VStr "medium")
        /\ dget row "task_id" = Some (VInt 1))
  /\ fst (create_user (H := Bcrypt.ref_impl) me "amy" "pw" "amy@x.org" 2 None
            w_bob)
     = Ok (VInt 2).
Proof.
  split; [exact ready_w_bob|].
  destruct (C8_defaults (H := Bcrypt.ref_impl) me w_bob 0 s_bob ready_w_bob)
    as (A & _ & C).
  split.
  - assert (Hf : find_table (committed w_bob) "tasks"
                 = Some (mktable tasks_cols tasks_fks [] 1))
      by (vm_compute; reflexivity).
    assert (Hv : fst (create_task me task1 w_bob) = Ok (VInt 1))
      by (vm_compute; reflexivity).
    exact (A _ task1 (VInt 1) Hf eq_refl eq_refl Hv).
  - assert (Hf : find_table (committed w_bob) "users"
                 = Some (mktable users_cols users_fks
                           (rows_of (committed w_bob) "users") 2))
      by (vm_compute; reflexivity).
    refine (C _ "amy" "pw" "amy@x.org" 2 Hf eq_refl eq_refl eq_refl eq_refl
              eq_refl eq_refl _ _ _ _); vm_compute; reflexivity.
Defined.

Section Collated11.
Context `{coll : Collation}.

(* ================================================================== *)
(** ** SELECT against the schema *)
(* ================================================================== *)

Lemma filter_map_comm {A B} (p : B -> bool) (f : A -> B) (l : list A) :
  filter p (map f l) = map f (filter (fun x => p (f x)) l).
Proof.
  induction l as [|x l IH]; simpl; [reflexivity|].
  destruct (p (f x)); simpl; now rewrite IH.
Qed.

Lemma filter_none {A} (p : A -> bool) (l : list A) :
  existsb p l = false -> filter p l = [].
Proof.
  induction l as [|x l IH]; simpl; [reflexivity|].
  intros E. apply orb_false_iff in E as [-> E]. auto.
Qed.

(** [SELECT password_hash FROM users WHERE username = %s] *)
Lemma select_password_hash d nw l tb username :
  find_table d "users" = Some tb ->
  tcols tb = users_cols ->
  exec_stmt d nw l q_password_hash [VStr username]
  = SqlOk (mkoutcome d
             (Some (map (fun r => [("password_hash",
                                    dget_or r "password_hash" VNull)])
                      (filter (fun r => sql_eq (dget_or r "username" VNull)
                                               (VStr username))
                         (trows tb))))
             l).
Proof.
  intros Hf Hc.
  unfold exec_stmt, q_password_hash, exec_select, select_scope, table_scope.
  cbn [stmt_params s_proj s_where where_eq expr_params sum_nat map fold_right
       List.length Nat.add Nat.eqb require sbind s_table s_alias s_joins
       joins_scope s_order].
  rewrite Hf. unfold col_names. rewrite Hc. cbn.
  unfold select_envs, from_envs, rows_of. cbn. rewrite Hf.
  rewrite filter_map_comm, map_map. reflexivity.
Qed.

(** What [verify_password] does on a live connection. *)
Section VerifyPassword.
Context `{Bcrypt.impl}.

Lemma verify_password_live self w h s tb username password :
  live (self_db self) w h s ->
  find_table (working s) "users" = Some tb ->
  tcols tb = users_cols ->
  fst (verify_password self username password w)
  = match filter (fun r => sql_eq (dget_or r "username" VNull) (VStr username))
            (trows tb) with
    | [] => Ok false
    | r :: _ =>
        match dget_or r "password_hash" VNull with
        | VStr stored_hash => Ok (Bcrypt.checkpw password stored_hash)
        | _ => Raise AttributeError
        end
    end.
Proof.
  intros Hl Hf Hc. unfold verify_password, bind at 1.
  rewrite (execute_query_live _ _ _ _ _ _ _ Hl). unfold executed.
  rewrite (select_password_hash _ _ _ tb _ Hf Hc). cbn [o_rows rows_or_nil].
  destruct (filter _ _) as [|r rest]; [reflexivity|].
  cbn [map]. unfold bind, item. cbn [dget String.eqb Ascii.eqb Bool.eqb].
  cbn. destruct (dget_or r "password_hash" VNull); reflexivity.
Qed.

Lemma checkpw_own_hash p salt :
  Bcrypt.checkpw p (Bcrypt.hashpw p salt) = true.
Proof.
  unfold Bcrypt.checkpw. rewrite Bcrypt.hashpw_resalt. apply String.eqb_refl.
Qed.

(** Only the first 72 bytes of a candidate are looked at. *)
Lemma checkpw_truncates p q salt :
  Bcrypt.take 72 q = Bcrypt.take 72 p ->
  Bcrypt.checkpw q (Bcrypt.hashpw p salt) = true.
Proof.
  intros E. unfold Bcrypt.checkpw.
  rewrite Bcrypt.hashpw_resalt, (Bcrypt.hashpw_truncates q), E,
    <- (Bcrypt.hashpw_truncates p).
  apply String.eqb_refl.
Qed.

(** C1, amended.  For a user name that is equal, under the server's
    collation, to that of no stored user, [verify_password] returns [False]
    (a name that differs from a stored one in case only is that user's name
    on a server whose collation ignores case).  After [create_user] returned
    for user name [username] and password [P]: the row it added carries
    [bcrypt.hashpw(P, salt)] for the salt drawn, a 60-byte string, hence not
    [P] unless [P] itself has 60 bytes; [verify_password(username, Q)]
    returns exactly what [bcrypt.checkpw] says of [Q] against that hash;
    this is [True] for [Q = P], and for every [Q] with the same first 72
    bytes as [P] (so also for [P + "x"] when [P] has 72 bytes or more). *)
Theorem C1_password_round_trip self w h s tb :
  ready (self_db self) w h s ->
  find_table (committed w) "users" = Some tb ->
  tcols tb = users_cols ->
  (forall other Q,
      unmatched "username" (VStr other) (trows tb) = true ->
      fst (verify_password self other Q w) = Ok false)
  /\
  (forall username P email role_id manager_id v,
      fst (create_user self username P email role_id manager_id w) = Ok v ->
      let w1 := snd (create_user self username P email role_id manager_id w) in
      let stored := Bcrypt.hashpw P (entropy w (draws w)) in
      (exists row,
          rows_of (committed w1) "users" = trows tb ++ [row]
          /\ dget row "username" = Some (VStr username)
          /\ dget row "password_hash" = Some (VStr stored))
      /\ String.length stored = 60%nat
      /\ (String.length P <> 60%nat -> stored <> P)
      /\ (forall Q,
            fst (verify_password self username Q w1)
            = Ok (Bcrypt.checkpw Q stored))
      /\ fst (verify_password self username P w1) = Ok true
      /\ (forall Q,
            Bcrypt.take 72 Q = Bcrypt.take 72 P ->
            fst (verify_password self username Q w1) = Ok true)).
Proof.
  intros [Hl Hw] Hf Hc. split.
  { intros other Q Hn. unfold unmatched in Hn. apply negb_true_iff in Hn.
    rewrite <- Hw in Hf.
    rewrite (verify_password_live _ _ _ _ tb _ _ Hl Hf Hc).
    now rewrite (filter_none _ _ Hn). }
  intros username P email role_id manager_id v Hv w1 stored.
  assert (Hlen : String.length stored = 60%nat) by apply Bcrypt.hashpw_length.
  (* the accepted INSERT *)
  subst w1. revert Hv.
  rewrite (create_user_live _ _ _ _ _ _ _ _ _ Hl). cbv zeta.
  destruct (exec_stmt _ _ _ _ _) as [o|e] eqn:E; [|discriminate].
  cbn [fst snd]. intros _.
  rewrite Hw in E. unfold q_insert_user, user_params in E.
  rewrite (exec_insert_one _ _ _ _ _ _ _ tb Hf) in E;
    try (unfold has_col, col_names; rewrite ?Hc; reflexivity).
  cbn [map params_from seq eval nth combine] in E. fold stored in E.
  destruct (insert_row _ _ _ _) as [[tb' g]|e] eqn:Ei; [|discriminate].
  apply insert_row_inv in Ei as (_ & Hu & _ & Etb & _).
  assert (Hdb : o_db o = set_table (committed w) "users" tb')
    by (inversion E; reflexivity).
  clear E.
  set (ps := user_params w username P email role_id manager_id).
  set (w0 := set_draws (S (draws w)) w).
  assert (Hl1 : live (self_db self) (inserted h q_insert_user ps o w0) h
                  (mksession true (o_db o) (o_last o))).
  { unfold inserted. eapply live_run_on; [exact Hl|reflexivity]. }
  assert (Hf1 : find_table (o_db o) "users" = Some tb')
    by (rewrite Hdb; apply find_set_table_same).
  assert (Hc1 : tcols tb' = users_cols) by (rewrite Etb; exact Hc).
  (* the stored row *)
  unfold build_row in Etb, Hu. rewrite Hc in Etb, Hu.
  cbn [map users_cols cname primary_key unique not_null col default
       on_update_now created_at updated_at] in Etb, Hu.
  unfold cell_for, auto_here in Etb, Hu. cbn in Etb, Hu.
  apply andb_prop in Hu as [_ Hu]. apply andb_prop in Hu as [Hu _].
  apply negb_true_iff in Hu.
  assert (Hrows : filter (fun r => sql_eq (dget_or r "username" VNull)
                                     (VStr username)) (trows tb')
                  = [[("user_id", VInt (tnext tb)); ("username", VStr username);
                      ("password_hash", VStr stored); ("email", VStr email);
                      ("role_id", VInt role_id);
                      ("manager_id", opt_int manager_id);
                      ("is_active", VInt 1); ("created_at", VInt (now w));
                      ("updated_at", VInt (now w))]]).
  { rewrite Etb. cbn [trows]. rewrite filter_app, (filter_none _ _ Hu).
    cbn. now rewrite collate_refl. }
  assert (Hver : forall Q,
             fst (verify_password self username Q
                    (inserted h q_insert_user ps o w0))
             = Ok (Bcrypt.checkpw Q stored)).
  { intros Q.
    rewrite (verify_password_live _ _ _ _ tb' _ _ Hl1 Hf1 Hc1), Hrows.
    reflexivity. }
  conjuncts.
  - eexists. rewrite committed_inserted. unfold rows_of. rewrite Hf1, Etb.
    cbn [trows]. split; [reflexivity|]. split; reflexivity.
  - exact Hlen.
  - intros Hp E. apply Hp. now rewrite <- E.
  - exact Hver.
  - rewrite Hver. unfold stored. now rewrite checkpw_own_hash.
  - intros Q HQ. rewrite Hver. unfold stored.
    now rewrite (checkpw_truncates _ _ _ HQ).
Qed.

End VerifyPassword.

End Collated11.

(** A password of exactly 72 bytes. *)
Definition P72 : string :=
  "correct horse battery staple correct horse battery staple correct horse!".

Definition w_carol : world :=
  after (create_user (H := Bcrypt.ref_impl) me "carol" P72 "carol@x.org" 3 None)
    w_init.

(** C1, as stated, fails: for the 72-byte password [P72], the user is
    created, and [verify_password] accepts [P72 + "x"].  (By the theorem
    above this is so for every implementation of the bcrypt interface, not
    only the reference one the model is run with.) *)
Lemma C1_counterexample :
  String.length P72 = 72%nat
  /\ fst (create_user (H := Bcrypt.ref_impl) me "carol" P72 "carol@x.org" 3 None
            w_init)
     = Ok (VInt 1)
  /\ fst (verify_password (H := Bcrypt.ref_impl) me "carol" (P72 ++ "x")%string
            w_carol)
     = Ok true.
Proof. by_running. Qed.

Lemma C1_witness :
  ready (self_db me) w_init 0 s_init
  /\ fst (verify_password (H := Bcrypt.ref_impl) me "bob" "secret" w_bob)
     = Ok true
  /\ fst (verify_password (H := Bcrypt.ref_impl) me "carol" (P72 ++ "x")%string
            w_carol)
     = Ok true
  /\ fst (verify_password (H := Bcrypt.ref_impl) me "nobody" "secret" w_init)
     = Ok false.
Proof.
  split; [exact ready_w_init|].
  assert (Hf : find_table (committed w_init) "users"
               = Some (mktable users_cols users_fks [] 1))
    by (vm_compute; reflexivity).
  destruct (C1_password_round_trip (H := Bcrypt.ref_impl) me w_init 0 s_init _
              ready_w_init Hf eq_refl) as [Hno Hyes].
  assert (Hb : fst (create_user (H := Bcrypt.ref_impl) me "bob" "secret"
                      "bob@x.org" 3 None w_init) = Ok (VInt 1))
    by (vm_compute; reflexivity).
  assert (Hc : fst (create_user (H := Bcrypt.ref_impl) me "carol" P72
                      "carol@x.org" 3 None w_init) = Ok (VInt 1))
    by (vm_compute; reflexivity).
  split; [|split].
  - exact (proj1 (proj2 (proj2 (proj2 (proj2
             (Hyes "bob" "secret" "bob@x.org" 3 None (VInt 1) Hb)))))).
  - refine (proj2 (proj2 (proj2 (proj2 (proj2
             (Hyes "carol" P72 "carol@x.org" 3 None (VInt 1) Hc)))))
             (P72 ++ "x")%string _).
    vm_compute; reflexivity.
  - exact (Hno "nobody" "secret" eq_refl).
Defined.

Section Collated12.
Context `{coll : Collation}.

(* ================================================================== *)
(** ** C5: [get_user] joins the role *)
(* ================================================================== *)

(** No two rows carry the same non-NULL value under [key]. *)
Fixpoint distinct_keys (key : string) (rows : list dict) : bool :=
  match rows with
  | [] => true
  | r :: rest =>
      negb (existsb (fun r' => sql_eq (dget_or r key VNull)
                                      (dget_or r' key VNull)) rest)
      && distinct_keys key rest
  end.

Lemma distinct_keys_inj key rows r1 r2 :
  distinct_keys key rows = true ->
  In r1 rows -> In r2 rows ->
  sql_eq (dget_or r1 key VNull) (dget_or r2 key VNull) = true ->
  r1 = r2.
Proof.
  induction rows as [|r rows IH]; simpl; [intros _ []|].
  intros Hd H1 H2 He. apply andb_prop in Hd as [Hn Hd].
  apply negb_true_iff in Hn.
  assert (Hno : forall x, In x rows ->
                  sql_eq (dget_or r key VNull) (dget_or x key VNull) = false).
  { intros x Hx.
    destruct (sql_eq (dget_or r key VNull) (dget_or x key VNull)) eqn:E;
      [|reflexivity].
    rewrite <- Hn. symmetry. apply existsb_exists. eauto. }
  destruct H1 as [<-|H1], H2 as [<-|H2]; auto.
  - rewrite (Hno _ H2) in He. discriminate.
  - rewrite sql_eq_sym, (Hno _ H1) in He. discriminate.
Qed.

(** The record [get_user] builds from a user row and its role row: the user's
    columns, then [role_name]. *)
Definition user_record (u r : dict) : dict :=
  map (fun c => (cname c, dget_or u (cname c) VNull)) users_cols
  ++ [("role_name", dget_or r "role_name" VNull)].

Lemma filter_flat_map_comm {A B} (p : B -> bool) (f : A -> list B) (l : list A) :
  filter p (flat_map f l) = flat_map (fun x => filter p (f x)) l.
Proof.
  induction l as [|x l IH]; simpl; [reflexivity|].
  now rewrite filter_app, IH.
Qed.

(** The shape of a two-table join with a filter, row by row. *)
Lemma join_where_shape {D} (P : env -> D) (W : env -> bool)
    (J : env -> dict -> bool) (R : dict -> dict -> D)
    (C : dict -> dict -> bool) (a b : string) (us rs : list dict) :
  (forall u r, J [(a, u)] r && W ([(a, u)] ++ [(b, r)]) = C u r) ->
  (forall u r, P ([(a, u)] ++ [(b, r)]) = R u r) ->
  map P
    (filter W
       (flat_map (fun en => map (fun r => en ++ [(b, r)]) (filter (J en) rs))
          (map (fun u => [(a, u)]) us)))
  = flat_map (fun u => map (R u) (filter (C u) rs)) us.
Proof.
  unfold env in *.
  intros HC HP. induction us as [|u us IH]; [reflexivity|].
  simpl. rewrite filter_app, map_app, IH. f_equal.
  clear IH. induction rs as [|r rs IHr]; [reflexivity|].
  simpl. rewrite <- HC.
  destruct (J [(a, u)] r); simpl; [|exact IHr].
  specialize (HP u r). simpl in HP.
  destruct (W ((a, u) :: [(b, r)])); simpl; rewrite IHr, ?HP; reflexivity.
Qed.

(** [SELECT u.*, r.role_name FROM users u JOIN roles r ON u.role_id =
    r.role_id WHERE u.user_id = %s]: a user row with the id, paired with
    every role row its [role_id] equals. *)
Lemma select_get_user d nw l tu tr user_id :
  find_table d "users" = Some tu -> tcols tu = users_cols ->
  find_table d "roles" = Some tr -> tcols tr = roles_cols ->
  exec_stmt d nw l q_get_user [VInt user_id]
  = SqlOk (mkoutcome d
             (Some (flat_map
                      (fun u =>
                         map (user_record u)
                           (filter
                              (fun r =>
                                 sql_eq (dget_or u "user_id" VNull)
                                   (VInt user_id)
                                 && sql_eq (dget_or u "role_id" VNull)
                                      (dget_or r "role_id" VNull))
                              (trows tr)))
                      (trows tu)))
             l).
Proof.
  intros Hu Cu Hr Cr.
  unfold exec_stmt, q_get_user, exec_select, select_scope, table_scope.
  cbn [stmt_params s_proj s_where where_eq expr_params sum_nat map fold_right
       List.length Nat.add Nat.eqb require sbind s_table s_alias s_joins
       joins_scope s_order j_table j_alias join_roles].
  unfold table_scope. rewrite Hu, Hr. unfold col_names. rewrite Cu, Cr. cbn.
  unfold select_envs, from_envs, join_envs, rows_of. cbn. rewrite Hu, Hr.
  f_equal. f_equal. f_equal.
  apply join_where_shape.
  - intros u r. cbn. apply andb_comm.
  - intros u r. reflexivity.
Qed.

Lemma get_user_rows_in tu tr user_id x :
  In x (flat_map
          (fun u =>
             map (user_record u)
               (filter
                  (fun r =>
                     sql_eq (dget_or u "user_id" VNull) (VInt user_id)
                     && sql_eq (dget_or u "role_id" VNull)
                          (dget_or r "role_id" VNull))
                  tr))
          tu) ->
  exists u r,
    In u tu /\ In r tr
    /\ sql_eq (dget_or u "user_id" VNull) (VInt user_id) = true
    /\ sql_eq (dget_or u "role_id" VNull) (dget_or r "role_id" VNull) = true
    /\ x = user_record u r.
Proof.
  intros Hx. apply in_flat_map in Hx as (u & Hu & Hx).
  apply in_map_iff in Hx as (r & <- & Hr).
  apply filter_In in Hr as (Hr & Hc). apply andb_prop in Hc as [H1 H2].
  exists u, r. auto.
Qed.

Lemma get_user_live self w h s tu tr user_id :
  ready (self_db self) w h s ->
  find_table (committed w) "users" = Some tu -> tcols tu = users_cols ->
  find_table (committed w) "roles" = Some tr -> tcols tr = roles_cols ->
  fst (get_user self user_id w)
  = Ok (first_or_none
          (Some (flat_map
                   (fun u =>
                      map (user_record u)
                        (filter
                           (fun r =>
                              sql_eq (dget_or u "user_id" VNull) (VInt user_id)
                              && sql_eq (dget_or u "role_id" VNull)
                                   (dget_or r "role_id" VNull))
                           (trows tr)))
                   (trows tu)))).
Proof.
  intros [Hl Hw] Hu Cu Hr Cr. unfold get_user, bind.
  rewrite (execute_query_live _ _ _ _ _ _ _ Hl). unfold executed.
  rewrite Hw, (select_get_user _ _ _ tu tr _ Hu Cu Hr Cr). reflexivity.
Qed.

(** C5, amended.  With distinct user ids and role ids (the primary keys):
    for a user row whose [role_id] is set and the role row it names,
    [get_user] returns that user's columns together with that role's
    [role_name]; for a user row whose [role_id] is NULL it returns [None], as
    it does for an id no user row bears. *)
Theorem C5_get_user_joins_role self w h s tu tr :
  ready (self_db self) w h s ->
  find_table (committed w) "users" = Some tu -> tcols tu = users_cols ->
  find_table (committed w) "roles" = Some tr -> tcols tr = roles_cols ->
  distinct_keys "user_id" (trows tu) = true ->
  distinct_keys "role_id" (trows tr) = true ->
  (forall user_id u role_id r,
      In u (trows tu) -> dget_or u "user_id" VNull = VInt user_id ->
      dget_or u "role_id" VNull = VInt role_id ->
      In r (trows tr) -> dget_or r "role_id" VNull = VInt role_id ->
      fst (get_user self user_id w) = Ok (Some (user_record u r))
      /\ dget (user_record u r) "role_name"
         = Some (dget_or r "role_name" VNull)
      /\ dget (user_record u r) "user_id" = Some (VInt user_id))
  /\
  (forall user_id u,
      In u (trows tu) -> dget_or u "user_id" VNull = VInt user_id ->
      dget_or u "role_id" VNull = VNull ->
      fst (get_user self user_id w) = Ok None)
  /\
  (forall user_id,
      no_row_with "user_id" (VInt user_id) (trows tu) = true ->
      fst (get_user self user_id w) = Ok None).
Proof.
  intros Hrd Hu Cu Hr Cr Du Dr. conjuncts.
  - intros user_id u role_id r Iu Eid Erole Ir Erid.
    rewrite (get_user_live _ _ _ _ tu tr _ Hrd Hu Cu Hr Cr).
    split; [|split; [reflexivity | cbn; now rewrite Eid]].
    match goal with |- Ok (first_or_none (Some ?l)) = _ => set (L := l) end.
    assert (Hall : forall x, In x L -> x = user_record u r).
    { intros x Hx. apply get_user_rows_in in Hx
        as (u' & r' & Iu' & Ir' & H1 & H2 & ->).
      assert (u' = u).
      { apply (distinct_keys_inj "user_id" (trows tu)); auto.
        now rewrite Eid. }
      subst u'. rewrite Erole in H2.
      assert (r' = r).
      { apply (distinct_keys_inj "role_id" (trows tr)); auto.
        now rewrite Erid, sql_eq_sym. }
      now subst r'. }
    assert (Hin : In (user_record u r) L).
    { apply in_flat_map. exists u. split; [exact Iu|].
      apply in_map, filter_In. split; [exact Ir|].
      rewrite Eid, Erole, Erid. cbn. now rewrite !Z.eqb_refl. }
    destruct L as [|x rest]; [destruct Hin|].
    cbn. now rewrite (Hall x (or_introl eq_refl)).
  - intros user_id u Iu Eid Erole.
    rewrite (get_user_live _ _ _ _ tu tr _ Hrd Hu Cu Hr Cr).
    match goal with |- Ok (first_or_none (Some ?l)) = _ => set (L := l) end.
    destruct L as [|x rest] eqn:EL; [reflexivity|]. exfalso.
    assert (Hx : In x L) by (rewrite EL; now left).
    apply get_user_rows_in in Hx as (u' & r' & Iu' & Ir' & H1 & H2 & _).
    assert (u' = u).
    { apply (distinct_keys_inj "user_id" (trows tu)); auto. now rewrite Eid. }
    subst u'. rewrite Erole in H2. discriminate.
  - intros user_id Hn. rewrite no_row_with_int in Hn.
    apply negb_true_iff in Hn.
    rewrite (get_user_live _ _ _ _ tu tr _ Hrd Hu Cu Hr Cr).
    match goal with |- Ok (first_or_none (Some ?l)) = _ => set (L := l) end.
    destruct L as [|x rest] eqn:EL; [reflexivity|]. exfalso.
    assert (Hx : In x L) by (rewrite EL; now left).
    apply get_user_rows_in in Hx as (u' & r' & Iu' & _ & H1 & _).
    assert (existsb (fun r => sql_eq (dget_or r "user_id" VNull) (VInt user_id))
              (trows tu) = true) by (apply existsb_exists; eauto).
    congruence.
Qed.

End Collated12.

(** *** A user stored without a role *)

(** [role_id] is a nullable column: a row like this one is accepted by the
    table. *)
Definition orphan : dict :=
  [("user_id", VInt 1); ("username", VStr "dana");
   ("password_hash", VStr "$2b$12$abcdefghijklmnopqrstuvABCDEFGHIJKLMNOPQRSTUVWXYZ01234");
   ("email", VStr "dana@x.org"); ("role_id", VNull); ("manager_id", VNull);
   ("is_active", VInt 1); ("created_at", VInt 1000); ("updated_at", VInt 1000)].

Definition d_orphan : database :=
  set_table (committed w_init) "users" (mktable users_cols users_fks [orphan] 2).

Definition s_orphan : session := mksession true d_orphan 0.

Definition w_orphan : world :=
  mkworld (objects w_init) (cls_instance w_init) [s_orphan] d_orphan true 1000
    (fun _ => salt0) 0 [].

Lemma ready_w_orphan : ready 0 w_orphan 0 s_orphan.
Proof. unfold ready, live. by_running. Qed.

(** C5, as stated, fails: the row [orphan] satisfies every constraint of
    [users], user id 1 identifies it, and [get_user(1)] returns [None]. *)
Lemma C5_counterexample :
  rows_of (committed w_orphan) "users" = [orphan]
  /\ check_cols users_cols orphan = SqlOk tt
  /\ fk_ok (committed w_orphan) "users" users_fks orphan = true
  /\ dget orphan "user_id" = Some (VInt 1)
  /\ fst (get_user me 1 w_orphan) = Ok None.
Proof. by_running. Qed.

Lemma C5_witness :
  ready (self_db me) w_bob 0 s_bob
  /\ fst (get_user me 1 w_bob)
     = Ok (Some [("user_id", VInt 1); ("username", VStr "bob");
                 ("password_hash",
                  VStr "$2b$12$abcdefghijklmnopqrstuvsecret.........................");
                 ("email", VStr "bob@x.org"); ("role_id", VInt 3);
                 ("manager_id", VNull); ("is_active", VInt 1);
                 ("created_at", VInt 1000); ("updated_at", VInt 1000);
                 ("role_name", VStr "employee")])
  /\ fst (get_user me 2 w_bob) = Ok None.
Proof.
  split; [exact ready_w_bob|].
  assert (Hu : find_table (committed w_bob) "users"
               = Some (mktable users_cols users_fks
                         (rows_of (committed w_bob) "users") 2))
    by (vm_compute; reflexivity).
  assert (Hr : find_table (committed w_bob) "roles"
               = Some (mktable roles_cols []
                         (rows_of (committed w_bob) "roles") 4))
    by (vm_compute; reflexivity).
  assert (Du : distinct_keys "user_id" (rows_of (committed w_bob) "users") = true)
    by (vm_compute; reflexivity).
  assert (Dr : distinct_keys "role_id" (rows_of (committed w_bob) "roles") = true)
    by (vm_compute; reflexivity).
  destruct (C5_get_user_joins_role me w_bob 0 s_bob _ _ ready_w_bob
              Hu eq_refl Hr eq_refl Du Dr) as (A & _ & C).
  split.
  - refine (proj1 (A 1
             [("user_id", VInt 1); ("username", VStr "bob");
              ("password_hash",
               VStr "$2b$12$abcdefghijklmnopqrstuvsecret.........................");
              ("email", VStr "bob@x.org"); ("role_id", VInt 3);
              ("manager_id", VNull); ("is_active", VInt 1);
              ("created_at", VInt 1000); ("updated_at", VInt 1000)]
             3
             [("role_id", VInt 3); ("role_name", VStr "employee");
              ("description", VStr "Regular employee with basic access");
              ("created_at", VInt 1000); ("updated_at", VInt 1000)]
             _ eq_refl eq_refl _ eq_refl)).
    + vm_compute. auto.
    + vm_compute. auto.
  - apply C. vm_compute; reflexivity.
Defined.

Section Collated13.
Context `{coll : Collation}.

(* ================================================================== *)
(** ** C7: the connection manager as a state machine *)
(* ================================================================== *)

(** What can happen to the process: the calls of the connection manager and
    of everything built on it, and what the environment does to it. *)
Inductive action : Type :=
| Construct                                   (* DatabaseConnection() *)
| Connect (self : nat)                        (* self.connect() *)
| Disconnect (self : nat)                     (* self.disconnect() *)
| GetConnection (self : nat)                  (* self.get_connection() *)
| InitDatabase                                (* init_database() *)
| Query (self : nat) (q : stmt) (params : list value) (fetch : bool)
                                              (* a repository's _execute_query *)
| Salt                                        (* bcrypt.gensalt() *)
| Log (ev : event)                            (* logging *)
| Drop (h : nat)                              (* a connection is lost *)
| Server (up : bool)                          (* the server stops or starts *)
| Clock (t : Z)                               (* time passes *)
| External (d : database).                    (* another client commits *)

Definition drop (h : nat) (w : world) : world :=
  match session_of w h with
  | Some s =>
      set_handles
        (list_set (handles w) h (mksession false (working s) (last_insert_id s)))
        w
  | None => w
  end.

Definition set_server (up : bool) (w : world) : world :=
  mkworld (objects w) (cls_instance w) (handles w) (committed w) up (now w)
    (entropy w) (draws w) (log w).

Definition set_now (t : Z) (w : world) : world :=
  mkworld (objects w) (cls_instance w) (handles w) (committed w) (server_up w) t
    (entropy w) (draws w) (log w).

Definition perform (a : action) (w : world) : world :=
  match a with
  | Construct => after DatabaseConnection_new w
  | Connect i => after (connect i) w
  | Disconnect i => after (disconnect i) w
  | GetConnection i => after (get_connection i) w
  | InitDatabase => after init_database w
  | Query i q params fetch =>
      after (_execute_query (mkBaseModel i) q params fetch) w
  | Salt => after gensalt w
  | Log ev => emit ev w
  | Drop h => drop h w
  | Server up => set_server up w
  | Clock t => set_now t w
  | External d => set_committed d w
  end.

(** A method is called on an object that exists. *)
Definition allowed (a : action) (w : world) : Prop :=
  match a with
  | Connect i | Disconnect i | GetConnection i | Query i _ _ _ =>
      (i < List.length (objects w))%nat
  | _ => True
  end.

(** The worlds a process can be in: it starts without objects and without
    connections. *)
Inductive reachable : world -> Prop :=
| reach_start w :
    objects w = [] -> cls_instance w = None -> handles w = [] -> reachable w
| reach_step w a :
    reachable w -> allowed a w -> reachable (perform a w).

(** The invariant: the class attribute names the only object, if any, and
    every connected handle is the one that object holds. *)
Definition singleton_inv (w : world) : Prop :=
  match cls_instance w with
  | None => objects w = []
  | Some i => i = 0%nat /\ List.length (objects w) = 1%nat
  end
  /\ forall h, is_connected w h = true -> attr_connection 0 w = Some h.

(** [w'] has the objects of [w] and no connected handle that [w] has not. *)
Definition narrows (w w' : world) : Prop :=
  objects w' = objects w
  /\ cls_instance w' = cls_instance w
  /\ forall h, is_connected w' h = true -> is_connected w h = true.

Lemma narrows_refl w : narrows w w.
Proof. repeat split; auto. Qed.

Lemma narrows_trans w1 w2 w3 : narrows w1 w2 -> narrows w2 w3 -> narrows w1 w3.
Proof.
  intros (A1 & B1 & C1) (A2 & B2 & C2). repeat split; try congruence; auto.
Qed.

Lemma narrows_inv w w' : singleton_inv w -> narrows w w' -> singleton_inv w'.
Proof.
  intros [Hi Hl] (Ho & Hc & Hn). split.
  - now rewrite Hc, Ho.
  - intros h Hh. unfold attr_connection. rewrite Ho. apply Hl, Hn, Hh.
Qed.

(** A computation that only narrows, whatever it returns. *)
Definition narrowing {A} (m : M A) : Prop := forall w, narrows w (snd (m w)).

Lemma narrowing_ret {A} (a : A) : narrowing (ret a).
Proof. intros w. apply narrows_refl. Qed.

Lemma narrowing_raise {A} e : narrowing (@raise A e).
Proof. intros w. apply narrows_refl. Qed.

Lemma narrowing_read {A} (f : world -> A) : narrowing (read f).
Proof. intros w. apply narrows_refl. Qed.

Lemma narrowing_bind {A B} (m : M A) (k : A -> M B) :
  narrowing m -> (forall a, narrowing (k a)) -> narrowing (bind m k).
Proof.
  intros Hm Hk w. unfold bind. specialize (Hm w).
  destruct (m w) as [[a|e] w1]; simpl in *; auto.
  eapply narrows_trans; [exact Hm|apply Hk].
Qed.

Lemma narrowing_try {A} (m : M A) c (hd : exn -> M A) :
  narrowing m -> (forall e, narrowing (hd e)) -> narrowing (try_except m c hd).
Proof.
  intros Hm Hh w. unfold try_except. specialize (Hm w).
  destruct (m w) as [[a|e] w1]; simpl in *; auto.
  destruct (c e); simpl; auto.
  eapply narrows_trans; [exact Hm|apply Hh].
Qed.

Lemma narrowing_finally {A} (m : M A) (f : M unit) :
  narrowing m -> narrowing f -> narrowing (finally m f).
Proof.
  intros Hm Hf w. unfold finally. specialize (Hm w).
  destruct (m w) as [r w1]; simpl in *. specialize (Hf w1).
  destruct (f w1) as [[u|e] w2]; simpl in *;
    eapply narrows_trans; eauto.
Qed.

Lemma narrows_same_handles w w' :
  objects w' = objects w -> cls_instance w' = cls_instance w ->
  handles w' = handles w -> narrows w w'.
Proof.
  intros Ho Hc Hh. repeat split; auto.
  intros h. unfold is_connected, session_of. now rewrite Hh.
Qed.

End Collated13.

Ltac same_handles := apply narrows_same_handles; reflexivity.

Section Collated14.
Context `{coll : Collation}.

Lemma narrows_emit ev w : narrows w (emit ev w).
Proof. same_handles. Qed.

(** Replacing a session keeps the connected handles when the new session is
    not connected or the old one was. *)
Lemma narrows_set_session w h s s' :
  session_of w h = Some s ->
  (connected s' = true -> connected s = true) ->
  narrows w (set_handles (list_set (handles w) h s') w).
Proof.
  intros Hs Hc. repeat split. intros k. unfold is_connected, session_of.
  simpl. destruct (Nat.eq_dec h k) as [<-|Hne].
  - rewrite (nth_error_list_set _ _ _ _ Hs). unfold session_of in Hs.
    now rewrite Hs.
  - now rewrite nth_error_list_set_other.
Qed.

Lemma narrowing_logging_info msg : narrowing (logging_info msg).
Proof. intros w. same_handles. Qed.

Lemma narrowing_logging_error msg e : narrowing (logging_error msg e).
Proof. intros w. same_handles. Qed.

Lemma narrowing_cursor_close h : narrowing (cursor_close h).
Proof. intros w. same_handles. Qed.

Lemma narrowing_conn_cursor c : narrowing (conn_cursor c).
Proof.
  intros w. unfold conn_cursor. destruct c as [h|]; [|same_handles].
  destruct (is_connected w h); same_handles.
Qed.

Lemma narrowing_conn_close h : narrowing (conn_close h).
Proof.
  intros w. unfold conn_close. destruct (session_of w h) as [s|] eqn:Hs;
    [|same_handles].
  simpl. eapply narrows_trans; [|apply narrows_emit].
  eapply narrows_set_session; eauto. discriminate.
Qed.

Lemma narrowing_conn_commit h : narrowing (conn_commit h).
Proof.
  intros w. unfold conn_commit. destruct (session_of w h) as [s|];
    [|same_handles].
  destruct (connected s); same_handles.
Qed.

Lemma narrowing_conn_rollback h : narrowing (conn_rollback h).
Proof.
  intros w. unfold conn_rollback. destruct (session_of w h) as [s|] eqn:Hs;
    [|same_handles].
  destruct (connected s) eqn:Hc; [|same_handles].
  simpl. eapply narrows_trans; [|apply narrows_emit].
  eapply narrows_set_session; eauto.
Qed.

Lemma narrowing_cursor_execute h q params : narrowing (cursor_execute h q params).
Proof.
  intros w. unfold cursor_execute. destruct (session_of w h) as [s|] eqn:Hs;
    [|same_handles].
  destruct (connected s) eqn:Hc; [|same_handles].
  destruct (exec_stmt _ _ _ _ _) as [o|e]; [|same_handles].
  simpl.
  assert (N : narrows w
                (set_handles
                   (list_set (handles (emit (EvExecute h q params) w)) h
                      (mksession true (o_db o) (o_last o)))
                   (emit (EvExecute h q params) w))).
  { eapply narrows_trans; [apply (narrows_emit (EvExecute h q params))|].
    eapply narrows_set_session; eauto. }
  destruct (is_ddl q); [|exact N].
  eapply narrows_trans; [exact N|]. same_handles.
Qed.

Lemma narrowing_execute_all h qs : narrowing (execute_all h qs).
Proof.
  induction qs as [|q qs IH]; simpl.
  - apply narrowing_ret.
  - apply narrowing_bind; [apply narrowing_cursor_execute|intros _; exact IH].
Qed.

Lemma narrowing_disconnect i : narrowing (disconnect i).
Proof.
  unfold disconnect. apply narrowing_try.
  - apply narrowing_bind; [apply narrowing_read|]. intros [h|].
    + apply narrowing_bind; [apply narrowing_read|]. intros [|].
      * apply narrowing_bind; [apply narrowing_conn_close|].
        intros _. apply narrowing_logging_info.
      * apply narrowing_ret.
    + apply narrowing_ret.
  - intros e. apply narrowing_bind; [apply narrowing_logging_error|].
    intros _. apply narrowing_raise.
Qed.

(** The world after a successful [connect] of object [i]. *)
Definition opened (i : nat) (w : world) : world :=
  let h := List.length (handles w) in
  emit (EvLogInfo "Database connection established successfully")
    (set_attr_connection i (Some h)
       (emit (EvConnect h)
          (set_handles (handles w ++ [mksession true (committed w) 0]) w))).

Definition refused (w : world) : world :=
  emit (EvLogError "Error connecting to MySQL database"
          (Error CR_CONN_HOST_ERROR)) w.

Lemma connect_cases i w :
  connect i w
  = if stale i w then
      if server_up w then (Ok tt, opened i w)
      else (Raise (Error CR_CONN_HOST_ERROR), refused w)
    else (Ok tt, w).
Proof.
  unfold connect, try_except, bind, read.
  destruct (stale i w); [|reflexivity].
  unfold mysql_connect. destruct (server_up w); reflexivity.
Qed.

Lemma attr_opened i w o :
  nth_error (objects w) i = Some o ->
  attr_connection i (opened i w) = Some (List.length (handles w)).
Proof.
  intros Ho. unfold attr_connection, opened; simpl.
  now rewrite (nth_error_list_set _ _ _ _ Ho).
Qed.

Lemma get_connection_cases i w o :
  nth_error (objects w) i = Some o ->
  get_connection i w
  = if stale i w then
      if server_up w then (Ok (Some (List.length (handles w))), opened i w)
      else (Raise (Error CR_CONN_HOST_ERROR), refused w)
    else (Ok (attr_connection i w), w).
Proof.
  intros Ho. unfold get_connection, bind at 1. unfold read at 1.
  destruct (stale i w) eqn:Hs; [|reflexivity].
  unfold bind. rewrite connect_cases, Hs.
  destruct (server_up w); [|reflexivity].
  unfold read. now rewrite (attr_opened _ _ _ Ho).
Qed.

Lemma is_connected_opened i w k :
  is_connected (opened i w) k = true ->
  k = List.length (handles w) \/ is_connected w k = true.
Proof.
  unfold is_connected, session_of, opened; simpl.
  destruct (Nat.lt_ge_cases k (List.length (handles w))) as [Hlt|Hge].
  - rewrite nth_error_app1 by exact Hlt. auto.
  - destruct (Nat.eq_dec k (List.length (handles w))) as [->|Hne]; auto.
    rewrite nth_error_app2 by exact Hge.
    destruct (k - List.length (handles w))%nat as [|n] eqn:E; [lia|].
    simpl. destruct n; discriminate.
Qed.

Lemma opened_connected i w :
  is_connected (opened i w) (List.length (handles w)) = true.
Proof.
  unfold is_connected, session_of, opened; simpl.
  rewrite nth_error_app2, Nat.sub_diag by lia. reflexivity.
Qed.

(** When the held handle is absent or dead, no handle is connected. *)
Lemma stale_no_live w k :
  singleton_inv w -> stale 0 w = true -> is_connected w k = false.
Proof.
  intros [_ Hl] Hs. destruct (is_connected w k) eqn:Hk; [|reflexivity].
  unfold stale in Hs. rewrite (Hl k Hk), Hk in Hs. discriminate.
Qed.

Lemma inv_opened w o :
  singleton_inv w -> nth_error (objects w) 0 = Some o -> stale 0 w = true ->
  singleton_inv (opened 0 w).
Proof.
  intros Hinv Ho Hs. pose proof Hinv as [Hi Hl]. split.
  - unfold opened; simpl. rewrite list_set_length.
    destruct (cls_instance w); [exact Hi|].
    rewrite Hi in Ho. discriminate.
  - intros k Hk. rewrite (attr_opened _ _ _ Ho).
    apply is_connected_opened in Hk as [->|Hk]; [reflexivity|].
    rewrite (stale_no_live w k Hinv Hs) in Hk. discriminate.
Qed.

Lemma inv_refused w : singleton_inv w -> singleton_inv (refused w).
Proof. intros Hinv. eapply narrows_inv; [exact Hinv|same_handles]. Qed.

Lemma inv_connect w o :
  singleton_inv w -> nth_error (objects w) 0 = Some o ->
  singleton_inv (after (connect 0) w).
Proof.
  intros Hinv Ho. unfold after. rewrite connect_cases.
  destruct (stale 0 w) eqn:Hs; [|exact Hinv].
  destruct (server_up w); simpl.
  - eapply inv_opened; eauto.
  - now apply inv_refused.
Qed.

Lemma inv_get_connection w o :
  singleton_inv w -> nth_error (objects w) 0 = Some o ->
  singleton_inv (after (get_connection 0) w).
Proof.
  intros Hinv Ho. unfold after. rewrite (get_connection_cases _ _ _ Ho).
  destruct (stale 0 w) eqn:Hs; [|exact Hinv].
  destruct (server_up w); simpl.
  - eapply inv_opened; eauto.
  - now apply inv_refused.
Qed.

(** After [get_connection], the object is still there. *)
Lemma get_connection_keeps_objects w o :
  nth_error (objects w) 0 = Some o ->
  exists o', nth_error (objects (after (get_connection 0) w)) 0 = Some o'.
Proof.
  intros Ho. unfold after. rewrite (get_connection_cases _ _ _ Ho).
  destruct (stale 0 w); [|eauto].
  destruct (server_up w); [|simpl; eauto].
  eexists. unfold opened; cbn [snd objects emit set_attr_connection set_objects].
  eapply nth_error_list_set; eauto.
Qed.

Lemma inv_allowed_zero w i :
  singleton_inv w -> (i < List.length (objects w))%nat ->
  i = 0%nat /\ exists o, nth_error (objects w) 0 = Some o.
Proof.
  intros [Hi _] Hlt. destruct (cls_instance w) as [j|].
  - destruct Hi as [_ Hlen]. split; [lia|].
    destruct (objects w) as [|o os]; [discriminate|]. simpl. eauto.
  - rewrite Hi in Hlt. simpl in Hlt. lia.
Qed.

(** The part of [_execute_query] and of [init_database] that follows
    [get_connection]. *)
Lemma narrowing_query_body c q params (fetch : bool) :
  narrowing
    (cursor <- conn_cursor c ;;
     finally
       (try_except
          (rs <- cursor_execute cursor q params ;;
           (if fetch then
              rows <- cursor_fetchall rs ;;
              ret (Some rows)
            else
              conn_commit cursor ;;;
              ret None))
          is_Error
          (fun e =>
             conn_rollback cursor ;;;
             logging_error "Database error" e ;;;
             raise e))
       (cursor_close cursor)).
Proof.
  apply narrowing_bind; [apply narrowing_conn_cursor|]. intros cursor.
  apply narrowing_finally; [|apply narrowing_cursor_close].
  apply narrowing_try.
  - apply narrowing_bind; [apply narrowing_cursor_execute|]. intros rs.
    destruct fetch.
    + apply narrowing_bind; [apply narrowing_ret|]. intros; apply narrowing_ret.
    + apply narrowing_bind; [apply narrowing_conn_commit|].
      intros; apply narrowing_ret.
  - intros e. apply narrowing_bind; [apply narrowing_conn_rollback|]. intros _.
    apply narrowing_bind; [apply narrowing_logging_error|]. intros _.
    apply narrowing_raise.
Qed.

(** What [init_database] does with the connection it obtained. *)
Definition init_body (c : option nat) : M unit :=
  cursor <- conn_cursor c ;;
  finally
    (try_except
       (execute_all cursor init_statements ;;;
        conn_commit cursor ;;;
        logging_info "Database schema initialized successfully")
       is_Error
       (fun e =>
          conn_rollback cursor ;;;
          logging_error "Error initializing database schema" e ;;;
          raise e))
    (cursor_close cursor).

Lemma init_database_body :
  init_database
  = (db <- DatabaseConnection_new ;; c <- get_connection db ;; init_body c).
Proof. reflexivity. Qed.

Lemma narrowing_init_body c : narrowing (init_body c).
Proof.
  unfold init_body.
  apply narrowing_bind; [apply narrowing_conn_cursor|]. intros cursor.
  apply narrowing_finally; [|apply narrowing_cursor_close].
  apply narrowing_try.
  - apply narrowing_bind; [apply narrowing_execute_all|]. intros _.
    apply narrowing_bind; [apply narrowing_conn_commit|]. intros _.
    apply narrowing_logging_info.
  - intros e. apply narrowing_bind; [apply narrowing_conn_rollback|]. intros _.
    apply narrowing_bind; [apply narrowing_logging_error|]. intros _.
    apply narrowing_raise.
Qed.

(** [get_connection], then something that only narrows. *)
Lemma inv_after_get_connection {A} (k : option nat -> M A) w o :
  singleton_inv w -> nth_error (objects w) 0 = Some o ->
  (forall c, narrowing (k c)) ->
  singleton_inv (after (c <- get_connection 0 ;; k c) w).
Proof.
  intros Hinv Ho Hk. unfold after, bind.
  pose proof (inv_get_connection w o Hinv Ho) as H1. unfold after in H1.
  destruct (get_connection 0 w) as [[c|e] w1]; simpl in *; [|exact H1].
  eapply narrows_inv; [exact H1|apply Hk].
Qed.

Lemma inv_construct w :
  singleton_inv w ->
  singleton_inv (after DatabaseConnection_new w)
  /\ fst (DatabaseConnection_new w) = Ok 0%nat
  /\ exists o, nth_error (objects (after DatabaseConnection_new w)) 0 = Some o.
Proof.
  intros Hinv. pose proof Hinv as [Hi Hl].
  unfold after, DatabaseConnection_new.
  destruct (cls_instance w) as [i|] eqn:Hc.
  - destruct Hi as [-> Hlen]. split; [exact Hinv|]. split; [reflexivity|].
    cbn [snd]. destruct (objects w) as [|o os]; [discriminate|]. simpl; eauto.
  - rewrite Hi. cbn [fst snd app List.length].
    split; [|split; [reflexivity|eexists; reflexivity]].
    split; cbn.
    + auto.
    + intros h Hh.
      assert (Hh' : is_connected w h = true) by exact Hh.
      specialize (Hl h Hh').
      unfold attr_connection in Hl. rewrite Hi in Hl. discriminate.
Qed.

Lemma inv_perform a w :
  singleton_inv w -> allowed a w -> singleton_inv (perform a w).
Proof.
  intros Hinv Ha. destruct a; simpl in *.
  - apply (inv_construct w Hinv).
  - destruct (inv_allowed_zero w self Hinv Ha) as [-> [o Ho]].
    eapply inv_connect; eauto.
  - eapply narrows_inv; [exact Hinv|apply narrowing_disconnect].
  - destruct (inv_allowed_zero w self Hinv Ha) as [-> [o Ho]].
    eapply inv_get_connection; eauto.
  - destruct (inv_construct w Hinv) as (H1 & H2 & o & Ho).
    unfold after, init_database, bind at 1.
    unfold after in H1, Ho.
    destruct (DatabaseConnection_new w) as [[i|e] w1]; simpl in *;
      [|exact H1].
    injection H2 as ->.
    apply (inv_after_get_connection _ w1 o H1 Ho).
    intros c. apply narrowing_init_body.
  - destruct (inv_allowed_zero w self Hinv Ha) as [-> [o Ho]].
    apply (inv_after_get_connection _ w o Hinv Ho).
    intros c. apply narrowing_query_body.
  - eapply narrows_inv; [exact Hinv|same_handles].
  - eapply narrows_inv; [exact Hinv|same_handles].
  - eapply narrows_inv; [exact Hinv|]. unfold drop.
    destruct (session_of w h) as [s|] eqn:Hs; [|apply narrows_refl].
    eapply narrows_set_session; eauto. discriminate.
  - eapply narrows_inv; [exact Hinv|same_handles].
  - eapply narrows_inv; [exact Hinv|same_handles].
  - eapply narrows_inv; [exact Hinv|same_handles].
Qed.

Lemma reachable_inv w : reachable w -> singleton_inv w.
Proof.
  induction 1 as [w Ho Hc Hh|w a Hr IH Ha].
  - split.
    + now rewrite Hc.
    + intros h. unfold is_connected, session_of. rewrite Hh.
      destruct h; discriminate.
  - now apply inv_perform.
Qed.

(** C7.  In every world the process can reach: at most one
    [DatabaseConnection] object exists; at most one connection handle is
    connected; every construction returns the same object (object 0, which
    is then the class's instance); and [get_connection] on the instance
    leaves the world untouched and returns the held, connected handle when
    that handle is there and reports itself connected, opens exactly one new
    connection and returns it, connected, when the held handle is absent or
    disconnected and the server is reachable, and raises the connector's
    error, opening nothing, when the server is not. *)
Theorem C7_singleton_connection w :
  reachable w ->
  (List.length (objects w) <= 1)%nat
  /\ (forall h1 h2,
        is_connected w h1 = true -> is_connected w h2 = true -> h1 = h2)
  /\ (fst (DatabaseConnection_new w) = Ok 0%nat
      /\ cls_instance (snd (DatabaseConnection_new w)) = Some 0%nat
      /\ (List.length (objects (snd (DatabaseConnection_new w))) = 1)%nat)
  /\ (forall i,
        cls_instance w = Some i ->
        (stale i w = false ->
         get_connection i w = (Ok (attr_connection i w), w)
         /\ exists h, attr_connection i w = Some h /\ is_connected w h = true)
        /\ (stale i w = true -> server_up w = true ->
            let r := get_connection i w in
            fst r = Ok (Some (List.length (handles w)))
            /\ is_connected (snd r) (List.length (handles w)) = true
            /\ List.length (handles (snd r)) = S (List.length (handles w)))
        /\ (stale i w = true -> server_up w = false ->
            let r := get_connection i w in
            fst r = Raise (Error 2003)
            /\ handles (snd r) = handles w)).
Proof.
  intros Hr. pose proof (reachable_inv w Hr) as Hinv.
  pose proof Hinv as [Hi Hl]. conjuncts.
  - destruct (cls_instance w); [destruct Hi as [_ ->]; lia|].
    rewrite Hi. simpl. lia.
  - intros h1 h2 H1 H2. pose proof (Hl h1 H1) as E1.
    rewrite (Hl h2 H2) in E1. now injection E1.
  - apply (inv_construct w Hinv).
  - destruct (inv_construct w Hinv) as ([Hi' _] & _ & _). unfold after in Hi'.
    unfold DatabaseConnection_new in *.
    destruct (cls_instance w) as [i|] eqn:Hc; cbn [snd] in *.
    + rewrite Hc. now destruct Hi as [-> _].
    + cbn. rewrite Hi. reflexivity.
  - unfold DatabaseConnection_new.
    destruct (cls_instance w) as [i|] eqn:Hc; cbn [snd].
    + now destruct Hi.
    + cbn. rewrite Hi. reflexivity.
  - intros i Hc. rewrite Hc in Hi. destruct Hi as [-> Hlen].
    destruct (objects w) as [|o os] eqn:Ho; [discriminate|].
    assert (Ho' : nth_error (objects w) 0 = Some o) by now rewrite Ho.
    rewrite (get_connection_cases _ _ _ Ho'). conjuncts.
    + intros Hs. rewrite Hs. split; [reflexivity|]. unfold stale in Hs.
      destruct (attr_connection 0 w) as [h|]; [|discriminate].
      exists h. split; [reflexivity|]. now apply negb_false_iff.
    + intros Hs Hup. rewrite Hs, Hup. cbn [fst snd]. conjuncts.
      * reflexivity.
      * apply opened_connected.
      * unfold opened; cbn. rewrite length_app. simpl. lia.
    + intros Hs Hup. rewrite Hs, Hup. split; reflexivity.
Qed.

End Collated14.

Lemma reachable_w_init : reachable w_init.
Proof.
  assert (E : w_init = perform InitDatabase world0) by (vm_compute; reflexivity).
  rewrite E. apply reach_step; [|exact I].
  apply reach_start; reflexivity.
Qed.

Lemma C7_witness :
  reachable w_init
  /\ (List.length (objects w_init) <= 1)%nat
  /\ fst (DatabaseConnection_new w_init) = Ok 0%nat.
Proof.
  split; [exact reachable_w_init|].
  destruct (C7_singleton_connection w_init reachable_w_init)
    as (A & _ & (B & _) & _).
  split; assumption.
Defined.

Section Collated15.
Context `{coll : Collation}.

(* ================================================================== *)
(** ** Seeding a table of named reference rows *)
(* ================================================================== *)

(** Every stored id under [key] is below the AUTO_INCREMENT counter. *)
Definition ids_below (key : string) (next : Z) (rows : list dict) : bool :=
  forallb (fun r => match dget_or r key VNull with
                    | VInt z => z <? next
                    | _ => true
                    end) rows.

Lemma ids_below_fresh key next rows :
  ids_below key next rows = true ->
  existsb (fun r => sql_eq (dget_or r key VNull) (VInt next)) rows = false.
Proof.
  unfold ids_below. induction rows as [|r rows IH]; simpl; [reflexivity|].
  intros H. apply andb_prop in H as [Hr H]. rewrite (IH H), orb_false_r.
  destruct (dget_or r key VNull); simpl; auto.
  apply Z.ltb_lt in Hr. apply Z.eqb_neq. lia.
Qed.

Lemma ids_below_weaken key next next' rows :
  next <= next' -> ids_below key next rows = true ->
  ids_below key next' rows = true.
Proof.
  intros Hle. unfold ids_below. rewrite !forallb_forall. intros H r Hr.
  specialize (H r Hr). destruct (dget_or r key VNull); auto.
  apply Z.ltb_lt in H. apply Z.ltb_lt. lia.
Qed.

Lemma distinct_keys_snoc key rows r :
  distinct_keys key rows = true ->
  existsb (fun r' => sql_eq (dget_or r' key VNull) (dget_or r key VNull)) rows
  = false ->
  distinct_keys key (rows ++ [r]) = true.
Proof.
  induction rows as [|x rows IH]; simpl; [reflexivity|].
  intros Hd Hn. apply andb_prop in Hd as [Hx Hd].
  apply orb_false_iff in Hn as [Hxr Hn].
  rewrite (IH Hd Hn), andb_true_r, existsb_app. simpl.
  apply negb_true_iff in Hx. now rewrite Hx, Hxr.
Qed.

Lemma set_table_twice d t a b :
  set_table (set_table d t a) t b = set_table d t b.
Proof.
  induction d as [|[n0 tb0] d IH]; simpl.
  - now rewrite String.eqb_refl.
  - destruct (String.eqb t n0) eqn:E; simpl; rewrite E; [reflexivity|].
    now rewrite IH.
Qed.

Section Seeds.

(** A table [t] of reference rows: an AUTO_INCREMENT id [idcol], a unique
    name [namecol], a description; [mkrow id name description now] is the row
    an INSERT of (name, description) stores. *)
Variable t : string.
Variable cols : list column.
Variables idcol namecol : string.
Variable mkrow : Z -> string -> string -> Z -> dict.

Hypothesis mkrow_name :
  forall i n ds nw, dget_or (mkrow i n ds nw) namecol VNull = VStr n.
Hypothesis mkrow_id :
  forall i n ds nw, dget_or (mkrow i n ds nw) idcol VNull = VInt i.

(** What the engine does with one such row. *)
Hypothesis insert_named :
  forall d tb nw n ds,
    tcols tb = cols -> tfks tb = [] ->
    Nat.leb (String.length n) 50 = true ->
    ids_below idcol (tnext tb) (trows tb) = true ->
    insert_row d t tb nw [(namecol, VStr n); ("description", VStr ds)]
    = if unmatched namecol (VStr n) (trows tb)
      then SqlOk (mktable cols [] (trows tb ++ [mkrow (tnext tb) n ds nw])
                    (tnext tb + 1),
                  Some (tnext tb))
      else SqlErr ER_DUP_ENTRY.

(** A row that INSERT IGNORE skips has taken its id from the counter. *)
Hypothesis skipped_named :
  forall tb n ds,
    tcols tb = cols -> tfks tb = [] ->
    skipped tb [(namecol, VStr n); ("description", VStr ds)]
    = mktable cols [] (trows tb) (tnext tb + 1).

(** The table is as [init_database] declares it, its counter is ahead of its
    ids and its names are distinct. *)
Definition seed_ready (tb : table) : Prop :=
  tcols tb = cols /\ tfks tb = []
  /\ ids_below idcol (tnext tb) (trows tb) = true
  /\ distinct_keys namecol (trows tb) = true.

(** The table with its counter moved on by [k]. *)
Definition advanced (k : Z) (tb : table) : table :=
  mktable cols [] (trows tb) (tnext tb + k).

(** INSERT IGNORE of one named row: stored when its name is equal, for the
    server, to no stored one, and skipped otherwise; the counter moves on in
    both cases. *)
Definition seed_one (nw : Z) (tb : table) (nd : string * string) : table :=
  if unmatched namecol (VStr (fst nd)) (trows tb)
  then mktable cols [] (trows tb ++ [mkrow (tnext tb) (fst nd) (snd nd) nw])
         (tnext tb + 1)
  else advanced 1 tb.

Definition seed_all (nw : Z) (tb : table) (nds : list (string * string)) : table :=
  fold_left (seed_one nw) nds tb.

Definition seed_values (nds : list (string * string)) : list (list expr) :=
  map (fun nd => [lit (fst nd); lit (snd nd)]) nds.

Definition short_names (nds : list (string * string)) : bool :=
  forallb (fun nd => Nat.leb (String.length (fst nd)) 50) nds.

(** Some stored row has a name equal, for the server, to [n]. *)
Definition has_name (n : string) (tb : table) : bool :=
  negb (unmatched namecol (VStr n) (trows tb)).

Lemma advanced_ready k tb : 0 <= k -> seed_ready tb -> seed_ready (advanced k tb).
Proof.
  intros Hk (Hc & Hf & Hi & Hd). repeat split; simpl; auto.
  apply (ids_below_weaken idcol (tnext tb)); [lia|exact Hi].
Qed.

Lemma advanced_advanced j k tb :
  advanced k (advanced j tb) = advanced (j + k) tb.
Proof. unfold advanced; simpl. f_equal. lia. Qed.

Lemma seed_one_ready nw tb nd :
  seed_ready tb -> seed_ready (seed_one nw tb nd).
Proof.
  intros Hr. pose proof Hr as (Hc & Hk & Hi & Hd). unfold seed_one.
  destruct (unmatched _ _ _) eqn:Hn; [|apply advanced_ready; [lia|exact Hr]].
  repeat split; simpl.
  - unfold ids_below in *. rewrite forallb_app. simpl.
    rewrite mkrow_id, andb_true_r.
    replace (tnext tb <? tnext tb + 1) with true
      by (symmetry; apply Z.ltb_lt; lia).
    rewrite andb_true_r.
    apply (ids_below_weaken idcol (tnext tb)); [lia|exact Hi].
  - apply distinct_keys_snoc; [exact Hd|].
    rewrite mkrow_name. unfold unmatched in Hn.
    now apply negb_true_iff in Hn.
Qed.

Lemma seed_one_has_own nw tb nd : has_name (fst nd) (seed_one nw tb nd) = true.
Proof.
  unfold has_name, seed_one.
  destruct (unmatched namecol (VStr (fst nd)) (trows tb)) eqn:Hn.
  - unfold unmatched. simpl. rewrite negb_involutive, existsb_app. simpl.
    rewrite mkrow_name. simpl. now rewrite collate_refl, orb_true_r.
  - cbn [advanced trows]. now rewrite Hn.
Qed.

Lemma seed_one_keeps_names nw tb nd n :
  has_name n tb = true -> has_name n (seed_one nw tb nd) = true.
Proof.
  unfold has_name, seed_one. intros H.
  destruct (unmatched namecol (VStr (fst nd)) (trows tb)); [|exact H].
  unfold unmatched in *. simpl. rewrite negb_involutive in *.
  rewrite existsb_app, H. reflexivity.
Qed.

(** A seed whose name is there is skipped: only the counter moves. *)
Lemma seed_one_known nw tb nd :
  has_name (fst nd) tb = true -> seed_one nw tb nd = advanced 1 tb.
Proof.
  unfold has_name, seed_one. intros H. apply negb_true_iff in H.
  now rewrite H.
Qed.

Lemma seed_all_ready nw nds : forall tb,
  seed_ready tb -> seed_ready (seed_all nw tb nds).
Proof.
  induction nds as [|nd nds IH]; intros tb H; simpl; auto.
  apply IH, seed_one_ready, H.
Qed.

Lemma seed_all_keeps_names nw nds n : forall tb,
  has_name n tb = true -> has_name n (seed_all nw tb nds) = true.
Proof.
  induction nds as [|nd nds IH]; intros tb H; simpl; auto.
  apply IH, seed_one_keeps_names, H.
Qed.

Lemma seed_all_has_names nw nds : forall tb nd,
  In nd nds -> has_name (fst nd) (seed_all nw tb nds) = true.
Proof.
  induction nds as [|x nds IH]; intros tb nd [].
  - subst x. simpl. apply seed_all_keeps_names, seed_one_has_own.
  - simpl. now apply IH.
Qed.

Lemma seed_all_known nw nds : forall tb,
  tcols tb = cols -> tfks tb = [] ->
  (forall nd, In nd nds -> has_name (fst nd) tb = true) ->
  seed_all nw tb nds = advanced (Z.of_nat (List.length nds)) tb.
Proof.
  induction nds as [|x nds IH]; intros tb Hc Hk H.
  - simpl. unfold advanced. rewrite Z.add_0_r, <- Hc, <- Hk.
    now destruct tb.
  - cbn [seed_all fold_left]. rewrite seed_one_known by (apply H; now left).
    fold (seed_all nw (advanced 1 tb) nds).
    rewrite IH; try reflexivity.
    + rewrite advanced_advanced. f_equal. cbn [List.length]. lia.
    + intros nd Hnd. apply H. now right.
Qed.

(** Seeding again, any number of times, adds no row: every seed is skipped,
    and each skip moves the counter. *)
Lemma seed_all_again nw nw' nds tb k :
  seed_all nw' (advanced k (seed_all nw tb nds)) nds
  = advanced (k + Z.of_nat (List.length nds)) (seed_all nw tb nds).
Proof.
  rewrite seed_all_known; try reflexivity.
  - apply advanced_advanced.
  - intros nd Hnd. now apply seed_all_has_names.
Qed.

(** The INSERT IGNORE statement over the seed rows never fails and stores
    [seed_all]. *)
Lemma insert_rows_seed nw nds : forall d tb first,
  find_table d t = Some tb -> seed_ready tb -> short_names nds = true ->
  exists first',
    insert_rows true d t nw [] [namecol; "description"] (seed_values nds) first
    = SqlOk (set_table d t (seed_all nw tb nds), first').
Proof.
  induction nds as [|nd nds IH]; intros d tb first Hf Hr Hs.
  - simpl. rewrite (set_table_same _ _ _ Hf). eauto.
  - simpl in Hs. apply andb_prop in Hs as [Hn Hs].
    pose proof Hr as (Hc & Hk & Hi & Hd).
    cbn [seed_values map insert_rows]. rewrite Hf.
    cbn [List.length Nat.eqb require sbind lit eval combine map].
    rewrite (insert_named d tb nw (fst nd) (snd nd) Hc Hk Hn Hi).
    cbn [seed_all fold_left]. unfold seed_one at 2.
    destruct (unmatched namecol (VStr (fst nd)) (trows tb)) eqn:Hno.
    + assert (Hf' : find_table
                      (set_table d t
                         (mktable cols []
                            (trows tb ++ [mkrow (tnext tb) (fst nd) (snd nd) nw])
                            (tnext tb + 1))) t
                    = Some (mktable cols []
                              (trows tb ++ [mkrow (tnext tb) (fst nd) (snd nd) nw])
                              (tnext tb + 1)))
        by apply find_set_table_same.
      assert (Hr' : seed_ready
                      (mktable cols []
                         (trows tb ++ [mkrow (tnext tb) (fst nd) (snd nd) nw])
                         (tnext tb + 1))).
      { pose proof (seed_one_ready nw tb nd Hr) as H.
        unfold seed_one in H. now rewrite Hno in H. }
      destruct (IH _ _ (first_some first (Some (tnext tb))) Hf' Hr' Hs)
        as [first' E].
      fold (seed_values nds). rewrite E. exists first'.
      now rewrite set_table_twice.
    + cbn [andb ignorable]. unfold ER_DUP_ENTRY. cbn [Z.eqb Pos.eqb orb].
      rewrite (skipped_named tb (fst nd) (snd nd) Hc Hk).
      fold (seed_values nds).
      assert (Hf' : find_table (set_table d t (advanced 1 tb)) t
                    = Some (advanced 1 tb)) by apply find_set_table_same.
      destruct (IH _ _ first Hf' (advanced_ready 1 tb ltac:(lia) Hr) Hs)
        as [first' E].
      fold (advanced 1 tb). rewrite E. exists first'.
      now rewrite set_table_twice.
Qed.

Hypothesis cols_named :
  forallb (fun c => existsb (String.eqb c) (map cname cols))
    [namecol; "description"] = true.

Lemma seed_values_closed nds :
  sum_nat (map (fun r => sum_nat (map expr_params r)) (seed_values nds)) = 0%nat
  /\ forallb (forallb (expr_ok [])) (seed_values nds) = true.
Proof.
  induction nds as [|nd nds [IH1 IH2]]; simpl; auto.
Qed.

Lemma exec_seed d nw l nds tb :
  find_table d t = Some tb -> seed_ready tb -> short_names nds = true ->
  exists l',
    exec_stmt d nw l
      (SInsert true t [namecol; "description"] (seed_values nds)) []
    = SqlOk (mkoutcome (set_table d t (seed_all nw tb nds)) None l').
Proof.
  intros Hf Hr Hs. pose proof Hr as (Hc & _).
  destruct (seed_values_closed nds) as [Hp He].
  destruct (insert_rows_seed nw nds d tb None Hf Hr Hs) as [first' E].
  unfold exec_stmt. cbn [stmt_params]. rewrite Hp.
  cbn [List.length Nat.eqb require sbind]. unfold exec_insert. rewrite Hf.
  unfold has_col, col_names. rewrite Hc, cols_named, He.
  cbn [require sbind]. rewrite E. cbn [sbind fst snd]. eauto.
Qed.

End Seeds.

(** *** The two seeded tables *)

Definition roles_row (i : Z) (n ds : string) (nw : Z) : dict :=
  [("role_id", VInt i); ("role_name", VStr n); ("description", VStr ds);
   ("created_at", VInt nw); ("updated_at", VInt nw)].

Definition task_status_row (i : Z) (n ds : string) (nw : Z) : dict :=
  [("status_id", VInt i); ("status_name", VStr n); ("description", VStr ds);
   ("created_at", VInt nw)].

Lemma insert_named_role t d tb nw n ds :
  tcols tb = roles_cols -> tfks tb = [] ->
  Nat.leb (String.length n) 50 = true ->
  ids_below "role_id" (tnext tb) (trows tb) = true ->
  insert_row d t tb nw [("role_name", VStr n); ("description", VStr ds)]
  = if unmatched "role_name" (VStr n) (trows tb)
    then SqlOk (mktable roles_cols [] (trows tb ++ [roles_row (tnext tb) n ds nw])
                  (tnext tb + 1),
                Some (tnext tb))
    else SqlErr ER_DUP_ENTRY.
Proof.
  intros Hc Hk Hn Hi.
  unfold insert_row, build_row, generated, unmatched.
  rewrite Hc, Hk. cbn. rewrite Hn. cbn.
  rewrite (ids_below_fresh _ _ _ Hi). cbn.
  destruct (existsb _ _); cbn; [reflexivity|].
  now rewrite Z.max_r by lia.
Qed.

Lemma insert_named_task_status t d tb nw n ds :
  tcols tb = task_status_cols -> tfks tb = [] ->
  Nat.leb (String.length n) 50 = true ->
  ids_below "status_id" (tnext tb) (trows tb) = true ->
  insert_row d t tb nw [("status_name", VStr n); ("description", VStr ds)]
  = if unmatched "status_name" (VStr n) (trows tb)
    then SqlOk (mktable task_status_cols []
                  (trows tb ++ [task_status_row (tnext tb) n ds nw])
                  (tnext tb + 1),
                Some (tnext tb))
    else SqlErr ER_DUP_ENTRY.
Proof.
  intros Hc Hk Hn Hi.
  unfold insert_row, build_row, generated, unmatched.
  rewrite Hc, Hk. cbn. rewrite Hn. cbn.
  rewrite (ids_below_fresh _ _ _ Hi). cbn.
  destruct (existsb _ _); cbn; [reflexivity|].
  now rewrite Z.max_r by lia.
Qed.

Lemma skipped_named_role tb n ds :
  tcols tb = roles_cols -> tfks tb = [] ->
  skipped tb [("role_name", VStr n); ("description", VStr ds)]
  = mktable roles_cols [] (trows tb) (tnext tb + 1).
Proof. intros Hc Hk. unfold skipped, generated. now rewrite Hc, Hk. Qed.

Lemma skipped_named_task_status tb n ds :
  tcols tb = task_status_cols -> tfks tb = [] ->
  skipped tb [("status_name", VStr n); ("description", VStr ds)]
  = mktable task_status_cols [] (trows tb) (tnext tb + 1).
Proof. intros Hc Hk. unfold skipped, generated. now rewrite Hc, Hk. Qed.

Definition role_seeds : list (string * string) :=
  [ ("admin", "System administrator with full access");
    ("manager", "Team manager with reporting and task assignment capabilities");
    ("employee", "Regular employee with basic access") ].

Definition task_status_seeds : list (string * string) :=
  [ ("not_started", "Task has not been started");
    ("in_progress", "Task is currently being worked on");
    ("completed", "Task has been completed");
    ("on_hold", "Task is temporarily on hold") ].

Lemma seed_roles_values :
  seed_roles = SInsert true "roles" ["role_name"; "description"]
                 (seed_values role_seeds).
Proof. reflexivity. Qed.

Lemma seed_task_status_values :
  seed_task_status = SInsert true "task_status" ["status_name"; "description"]
                       (seed_values task_status_seeds).
Proof. reflexivity. Qed.

(* ================================================================== *)
(** ** What [init_database] does to the database *)
(* ================================================================== *)

Definition has_table (d : database) (t : string) : bool :=
  match find_table d t with Some _ => true | None => false end.

(** CREATE TABLE IF NOT EXISTS *)
Definition create_if_absent (d : database) (t : string) (cols : list column)
    (fks : list foreign_key) : database :=
  match find_table d t with
  | Some _ => d
  | None => set_table d t (mktable cols fks [] 1)
  end.

Lemma find_create_same d t cols fks :
  find_table (create_if_absent d t cols fks) t
  = Some (match find_table d t with
          | Some tb => tb
          | None => mktable cols fks [] 1
          end).
Proof.
  unfold create_if_absent. destruct (find_table d t) eqn:E; [exact E|].
  apply find_set_table_same.
Qed.

Lemma find_create_other d t t' cols fks :
  t' <> t -> find_table (create_if_absent d t cols fks) t' = find_table d t'.
Proof.
  intros Hne. unfold create_if_absent. destruct (find_table d t); [reflexivity|].
  now apply find_set_table_other.
Qed.

Lemma has_table_create d t t' cols fks :
  has_table (create_if_absent d t cols fks) t'
  = String.eqb t' t || has_table d t'.
Proof.
  unfold has_table. destruct (String.eqb t' t) eqn:E.
  - apply String.eqb_eq in E; subst t'. now rewrite find_create_same.
  - apply String.eqb_neq in E. now rewrite find_create_other.
Qed.

Lemma has_table_set d t t' tb :
  has_table (set_table d t tb) t' = String.eqb t' t || has_table d t'.
Proof.
  unfold has_table. destruct (String.eqb t' t) eqn:E.
  - apply String.eqb_eq in E; subst t'. now rewrite find_set_table_same.
  - apply String.eqb_neq in E. now rewrite find_set_table_other.
Qed.

Lemma create_if_absent_present d t cols fks :
  has_table d t = true -> create_if_absent d t cols fks = d.
Proof.
  unfold has_table, create_if_absent. now destruct (find_table d t).
Qed.

(** CREATE TABLE IF NOT EXISTS goes through when the table is there, or
    when its foreign keys are well declared. *)
Lemma exec_create_table d nw l t cols fks :
  (find_table d t = None -> fks_decl_ok d t cols fks = SqlOk tt) ->
  exec_stmt d nw l (SCreateTable t cols fks) []
  = SqlOk (mkoutcome (create_if_absent d t cols fks) None l).
Proof.
  intros Hfk. unfold exec_stmt, exec_create, create_if_absent. cbn.
  destruct (find_table d t); [reflexivity|]. now rewrite Hfk.
Qed.

(** Table [t], if it is there, has an INT column [k] with a key on it: what
    a foreign key to [t (k)] needs. *)
Definition keyed (d : database) (t k : string) : Prop :=
  forall tb, find_table d t = Some tb ->
  exists c, find_col (tcols tb) k = Some c
            /\ cunique c = true /\ ctype c = TInt.

Lemma keyed_other d t k t' cols fks :
  t <> t' -> keyed d t k -> keyed (create_if_absent d t' cols fks) t k.
Proof.
  intros Hne Hk tb. rewrite find_create_other by exact Hne. apply Hk.
Qed.

(** Once [t] was created with such a column, it is there and has it. *)
Lemma keyed_created d t k cols fks c :
  keyed d t k ->
  find_col cols k = Some c -> cunique c = true -> ctype c = TInt ->
  exists tb c',
    find_table (create_if_absent d t cols fks) t = Some tb
    /\ find_col (tcols tb) k = Some c' /\ cunique c' = true /\ ctype c' = TInt.
Proof.
  intros Hk Hc Hu Ht. rewrite find_create_same.
  destruct (find_table d t) as [tb|] eqn:E.
  - destruct (Hk tb E) as (c' & H1 & H2 & H3). eauto 10.
  - exists (mktable cols fks [] 1), c. auto.
Qed.

(** A foreign key from an INT column to a keyed table that is there. *)
Lemma fk_to_keyed d t cols fk child tb c :
  String.eqb (fk_table fk) t = false ->
  find_col cols (fk_col fk) = Some child -> ctype child = TInt ->
  find_table d (fk_table fk) = Some tb ->
  find_col (tcols tb) (fk_ref fk) = Some c ->
  cunique c = true -> ctype c = TInt ->
  fk_decl_ok d t cols fk = SqlOk tt.
Proof.
  intros Hne Hch Hty Hf Hc Hu Ht.
  unfold fk_decl_ok, parent_cols. rewrite Hch, Hne, Hf. cbn [sbind].
  rewrite Hc, Hu, Hty, Ht. reflexivity.
Qed.

(** The five CREATE TABLE IF NOT EXISTS, in order. *)
Definition schema_created (d : database) : database :=
  create_if_absent
    (create_if_absent
       (create_if_absent
          (create_if_absent
             (create_if_absent d "roles" roles_cols [])
             "users" users_cols users_fks)
          "contacts" contacts_cols contacts_fks)
       "task_status" task_status_cols [])
    "tasks" tasks_cols tasks_fks.

Definition seed_roles_table (nw : Z) (tb : table) : table :=
  seed_all roles_cols "role_name" roles_row nw tb role_seeds.

Definition seed_task_status_table (nw : Z) (tb : table) : table :=
  seed_all task_status_cols "status_name" task_status_row nw tb
    task_status_seeds.

(** One table rewritten, if it is there. *)
Definition on_table (d : database) (t : string) (f : table -> table) : database :=
  match find_table d t with
  | Some tb => set_table d t (f tb)
  | None => d
  end.

(** The two INSERT IGNORE statements. *)
Definition seeded (nw : Z) (d : database) : database :=
  on_table (on_table d "roles" (seed_roles_table nw))
    "task_status" (seed_task_status_table nw).

(** The database after a successful [init_database] at time [nw]. *)
Definition init_pure (nw : Z) (d : database) : database :=
  seeded nw (schema_created d).

Definition roles_ready : table -> Prop :=
  seed_ready roles_cols "role_id" "role_name".
Definition task_status_ready : table -> Prop :=
  seed_ready task_status_cols "status_id" "status_name".

(** Table [t] is absent, or as [init_database] declares it. *)
Definition declared (d : database) (t : string) (cols : list column)
    (fks : list foreign_key) : Prop :=
  forall tb, find_table d t = Some tb -> tcols tb = cols /\ tfks tb = fks.

(** A database [init_database] is meant for: each of its five tables is
    absent, or as an earlier run declared it; the counters of [roles] and
    [task_status] are ahead of their ids and their names are distinct for
    the server. *)
Definition compatible (d : database) : Prop :=
  (forall tb, find_table d "roles" = Some tb -> roles_ready tb)
  /\ (forall tb, find_table d "task_status" = Some tb -> task_status_ready tb)
  /\ declared d "users" users_cols users_fks
  /\ declared d "contacts" contacts_cols contacts_fks
  /\ declared d "tasks" tasks_cols tasks_fks.

(** The tables the foreign keys of the schema point to carry their keys. *)
Definition parents_keyed (d : database) : Prop :=
  keyed d "roles" "role_id" /\ keyed d "users" "user_id"
  /\ keyed d "task_status" "status_id".

Lemma compatible_keyed d : compatible d -> parents_keyed d.
Proof.
  intros (Hr & Hs & Hu & _). unfold parents_keyed, keyed.
  conjuncts; intros tb E.
  - destruct (Hr tb E) as (-> & _). eexists. conjuncts; reflexivity.
  - destruct (Hu tb E) as (-> & _). eexists. conjuncts; reflexivity.
  - destruct (Hs tb E) as (-> & _). eexists. conjuncts; reflexivity.
Qed.

Lemma fresh_table_ready cols fks idcol namecol :
  fks = [] -> seed_ready cols idcol namecol (mktable cols fks [] 1).
Proof. intros ->. repeat split. Qed.

Lemma roles_after_schema d :
  compatible d ->
  exists tb, find_table (schema_created d) "roles" = Some tb /\ roles_ready tb.
Proof.
  intros [Hr _]. unfold schema_created.
  rewrite !find_create_other by discriminate. rewrite find_create_same.
  eexists; split; [reflexivity|].
  destruct (find_table d "roles") as [tb|] eqn:E; [now apply Hr|].
  now apply fresh_table_ready.
Qed.

Lemma task_status_after_schema d :
  compatible d ->
  exists tb, find_table (schema_created d) "task_status" = Some tb
             /\ task_status_ready tb.
Proof.
  intros (_ & Hs & _). unfold schema_created.
  rewrite !find_create_other by discriminate. rewrite find_create_same.
  rewrite !find_create_other by discriminate.
  eexists; split; [reflexivity|].
  destruct (find_table d "task_status") as [tb|] eqn:E; [now apply Hs|].
  now apply fresh_table_ready.
Qed.

Lemma roles_row_name i n ds nw : dget_or (roles_row i n ds nw) "role_name" VNull = VStr n.
Proof. reflexivity. Qed.
Lemma roles_row_id i n ds nw : dget_or (roles_row i n ds nw) "role_id" VNull = VInt i.
Proof. reflexivity. Qed.
Lemma task_status_row_name i n ds nw :
  dget_or (task_status_row i n ds nw) "status_name" VNull = VStr n.
Proof. reflexivity. Qed.
Lemma task_status_row_id i n ds nw :
  dget_or (task_status_row i n ds nw) "status_id" VNull = VInt i.
Proof. reflexivity. Qed.

(** The five CREATE TABLE IF NOT EXISTS statements are accepted when the
    tables their foreign keys point to, as far as they are there already,
    carry their keys: each parent that is missing was created just before. *)
Lemma run_script_schema d cm nw l :
  parents_keyed d ->
  run_script d cm nw l init_statements
  = match run_script (schema_created d) (schema_created d) nw l
            [seed_roles; seed_task_status] with
    | ScriptErr e d' cm' l' n => ScriptErr e d' cm' l' (5 + n)
    | r => r
    end.
Proof.
  intros (Kr & Ku & Ks).
  set (d1 := create_if_absent d "roles" roles_cols []).
  set (d2 := create_if_absent d1 "users" users_cols users_fks).
  set (d3 := create_if_absent d2 "contacts" contacts_cols contacts_fks).
  set (d4 := create_if_absent d3 "task_status" task_status_cols []).
  (* the parents, where they are needed *)
  destruct (keyed_created d "roles" "role_id" roles_cols [] _ Kr eq_refl
              eq_refl eq_refl) as (tr & cr & Fr & Cr & Ur & Tr).
  fold d1 in Fr.
  assert (Ku1 : keyed d1 "users" "user_id")
    by (apply keyed_other; [discriminate|exact Ku]).
  destruct (keyed_created d1 "users" "user_id" users_cols users_fks _ Ku1
              eq_refl eq_refl eq_refl) as (tu & cu & Fu & Cu & Uu & Tu).
  fold d2 in Fu.
  assert (Fu4 : find_table d4 "users" = Some tu).
  { unfold d4, d3. now rewrite !find_create_other by discriminate. }
  assert (Ks3 : keyed d3 "task_status" "status_id").
  { unfold d3, d2, d1. repeat (apply keyed_other; [discriminate|]). exact Ks. }
  destruct (keyed_created d3 "task_status" "status_id" task_status_cols [] _
              Ks3 eq_refl eq_refl eq_refl) as (ts & cs & Fs & Cs & Us & Ts).
  fold d4 in Fs.
  unfold init_statements. cbn [run_script].
  rewrite exec_create_table by reflexivity. cbn [o_db o_last is_ddl].
  fold d1.
  rewrite exec_create_table.
  2:{ intros _. cbn [fks_decl_ok users_fks].
      rewrite (fk_to_keyed d1 "users" users_cols
                 (mkfk "role_id" "roles" "role_id") _ tr cr eq_refl eq_refl
                 eq_refl Fr Cr Ur Tr).
      reflexivity. }
  cbn [o_db o_last is_ddl]. fold d2.
  rewrite exec_create_table.
  2:{ intros _. cbn [fks_decl_ok contacts_fks].
      rewrite (fk_to_keyed d2 "contacts" contacts_cols
                 (mkfk "assigned_to" "users" "user_id") _ tu cu eq_refl
                 eq_refl eq_refl Fu Cu Uu Tu).
      reflexivity. }
  cbn [o_db o_last is_ddl]. fold d3.
  rewrite exec_create_table by reflexivity. cbn [o_db o_last is_ddl].
  fold d4.
  rewrite exec_create_table.
  2:{ intros _. cbn [fks_decl_ok tasks_fks].
      rewrite (fk_to_keyed d4 "tasks" tasks_cols
                 (mkfk "assigned_to" "users" "user_id") _ tu cu eq_refl
                 eq_refl eq_refl Fu4 Cu Uu Tu).
      cbn [sbind].
      rewrite (fk_to_keyed d4 "tasks" tasks_cols
                 (mkfk "assigned_by" "users" "user_id") _ tu cu eq_refl
                 eq_refl eq_refl Fu4 Cu Uu Tu).
      cbn [sbind].
      rewrite (fk_to_keyed d4 "tasks" tasks_cols
                 (mkfk "status_id" "task_status" "status_id") _ ts cs eq_refl
                 eq_refl eq_refl Fs Cs Us Ts).
      reflexivity. }
  cbn [o_db o_last is_ddl].
  change (create_if_absent d4 "tasks" tasks_cols tasks_fks)
    with (schema_created d).
  destruct (exec_stmt (schema_created d) nw l seed_roles []) as [o|e];
    [|reflexivity].
  cbn [is_ddl seed_roles].
  destruct (exec_stmt (o_db o) nw (o_last o) seed_task_status []) as [o'|e];
    reflexivity.
Qed.

(** The script of [init_database] on a compatible database: it succeeds, the
    session sees [init_pure], and the DDL has committed the schema. *)
Lemma run_script_init d cm nw l :
  compatible d ->
  exists l',
    run_script d cm nw l init_statements
    = ScriptOk (init_pure nw d) (schema_created d) l'.
Proof.
  intros Hc.
  destruct (roles_after_schema d Hc) as (tr & Fr & Rr).
  destruct (task_status_after_schema d Hc) as (ts & Fs & Rs).
  rewrite (run_script_schema _ _ _ _ (compatible_keyed d Hc)).
  cbn [run_script].
  rewrite seed_roles_values, seed_task_status_values.
  destruct (exec_seed "roles" roles_cols "role_id" "role_name" roles_row
              roles_row_name roles_row_id (insert_named_role "roles")
              skipped_named_role eq_refl
              (schema_created d) nw l role_seeds tr Fr Rr eq_refl) as [l1 E1].
  rewrite E1. cbn [o_db o_last is_ddl].
  assert (Fs' : find_table
                  (set_table (schema_created d) "roles"
                     (seed_all roles_cols "role_name" roles_row nw tr role_seeds))
                  "task_status" = Some ts)
    by (rewrite find_set_table_other by discriminate; exact Fs).
  destruct (exec_seed "task_status" task_status_cols "status_id" "status_name"
              task_status_row task_status_row_name task_status_row_id
              (insert_named_task_status "task_status")
              skipped_named_task_status eq_refl _ nw l1 task_status_seeds ts
              Fs' Rs eq_refl) as [l2 E2].
  rewrite E2. cbn [o_db o_last is_ddl]. exists l2.
  unfold init_pure, seeded, on_table, seed_roles_table, seed_task_status_table.
  rewrite Fr, Fs'. reflexivity.
Qed.

(** The shape of the database after [init_database]. *)
Lemma init_pure_shape nw d :
  compatible d ->
  exists tr ts,
    roles_ready tr /\ task_status_ready ts
    /\ init_pure nw d
       = set_table
           (set_table (schema_created d) "roles" (seed_roles_table nw tr))
           "task_status" (seed_task_status_table nw ts).
Proof.
  intros Hc.
  destruct (roles_after_schema d Hc) as (tr & Fr & Rr).
  destruct (task_status_after_schema d Hc) as (ts & Fs & Rs).
  exists tr, ts. split; [exact Rr|]. split; [exact Rs|].
  unfold init_pure, seeded, on_table. rewrite Fr.
  now rewrite find_set_table_other, Fs by discriminate.
Qed.

Lemma has_table_schema_created d t :
  In t ["roles"; "users"; "contacts"; "task_status"; "tasks"] ->
  has_table (schema_created d) t = true.
Proof.
  unfold schema_created. rewrite !has_table_create.
  intros [<-|[<-|[<-|[<-|[<-|[]]]]]]; cbn; rewrite ?orb_true_r; reflexivity.
Qed.

Lemma has_table_init_pure nw d t :
  compatible d ->
  In t ["roles"; "users"; "contacts"; "task_status"; "tasks"] ->
  has_table (init_pure nw d) t = true.
Proof.
  intros Hc Ht. destruct (init_pure_shape nw d Hc) as (tr & ts & _ & _ & ->).
  rewrite !has_table_set, (has_table_schema_created d t Ht).
  now rewrite !orb_true_r.
Qed.

(** After [init_database], both seeded tables are as declared and bear every
    seed name, and no name twice. *)
Lemma init_pure_seeds nw d :
  compatible d ->
  exists tr0 ts0,
    roles_ready tr0 /\ task_status_ready ts0
    /\ find_table (init_pure nw d) "roles" = Some (seed_roles_table nw tr0)
    /\ find_table (init_pure nw d) "task_status"
       = Some (seed_task_status_table nw ts0)
    /\ roles_ready (seed_roles_table nw tr0)
    /\ task_status_ready (seed_task_status_table nw ts0)
    /\ (forall nd, In nd role_seeds ->
                   has_name "role_name" (fst nd) (seed_roles_table nw tr0) = true)
    /\ (forall nd, In nd task_status_seeds ->
                   has_name "status_name" (fst nd)
                     (seed_task_status_table nw ts0) = true).
Proof.
  intros Hc. destruct (init_pure_shape nw d Hc) as (tr & ts & Rr & Rs & E).
  exists tr, ts. rewrite E. conjuncts; auto.
  - rewrite find_set_table_other by discriminate. apply find_set_table_same.
  - apply find_set_table_same.
  - apply seed_all_ready; auto using roles_row_name, roles_row_id.
  - apply seed_all_ready; auto using task_status_row_name, task_status_row_id.
  - intros nd Hnd. apply seed_all_has_names; auto using roles_row_name.
  - intros nd Hnd. apply seed_all_has_names; auto using task_status_row_name.
Qed.

(** *** Running it again *)

(** The database with the counters of the two seeded tables moved on by
    three and four per run, for [k] runs. *)
Definition reseeded (k : Z) (d : database) : database :=
  on_table (on_table d "roles" (advanced roles_cols (3 * k)))
    "task_status" (advanced task_status_cols (4 * k)).

(** Setting [t], then [t'], then [t] again is setting [t] once. *)
Lemma set_table_over d t t' a a' b :
  t <> t' ->
  set_table (set_table (set_table d t a) t' b) t a'
  = set_table (set_table d t a') t' b.
Proof.
  intros Hne.
  assert (E1 : String.eqb t' t = false) by (apply String.eqb_neq; congruence).
  induction d as [|[n x] d IH]; simpl.
  - rewrite E1. simpl. now rewrite String.eqb_refl.
  - destruct (String.eqb t n) eqn:E; simpl.
    + apply String.eqb_eq in E. subst n.
      rewrite E1. simpl. now rewrite String.eqb_refl.
    + destruct (String.eqb t' n) eqn:E2; simpl; rewrite E; [|now rewrite IH].
      now rewrite set_table_twice.
Qed.

Lemma reseeded_shape k D tr ts :
  find_table D "roles" = Some tr -> find_table D "task_status" = Some ts ->
  reseeded k D
  = set_table (set_table D "roles" (advanced roles_cols (3 * k) tr))
      "task_status" (advanced task_status_cols (4 * k) ts).
Proof.
  intros Fr Fs. unfold reseeded, on_table. rewrite Fr.
  now rewrite find_set_table_other, Fs by discriminate.
Qed.

Lemma find_on_table_same d t f :
  find_table (on_table d t f) t = option_map f (find_table d t).
Proof.
  unfold on_table. destruct (find_table d t) as [tb|] eqn:E; simpl.
  - apply find_set_table_same.
  - exact E.
Qed.

Lemma find_on_table_other d t t' f :
  t' <> t -> find_table (on_table d t f) t' = find_table d t'.
Proof.
  intros Hne. unfold on_table. destruct (find_table d t); [|reflexivity].
  now apply find_set_table_other.
Qed.

Lemma compatible_reseeded k D :
  0 <= k -> compatible D ->
  compatible (reseeded k D).
Proof.
  intros Hk (Hr & Hs & Hu & Hc & Ht). unfold reseeded, compatible, declared.
  conjuncts; intros tb.
  - rewrite find_on_table_other, find_on_table_same by discriminate.
    destruct (find_table D "roles") as [tr|]; cbn [option_map]; [|discriminate].
    intros E. assert (E' : advanced roles_cols (3 * k) tr = tb) by congruence.
    rewrite <- E'. apply advanced_ready; [lia|now apply Hr].
  - rewrite find_on_table_same, find_on_table_other by discriminate.
    destruct (find_table D "task_status") as [ts|]; cbn [option_map];
      [|discriminate].
    intros E.
    assert (E' : advanced task_status_cols (4 * k) ts = tb) by congruence.
    rewrite <- E'. apply advanced_ready; [lia|now apply Hs].
  - rewrite !find_on_table_other by discriminate. apply Hu.
  - rewrite !find_on_table_other by discriminate. apply Hc.
  - rewrite !find_on_table_other by discriminate. apply Ht.
Qed.

(** Initializing an initialized database, once more after [k] more runs:
    no table and no row is added, whatever the time; the two counters move
    on. *)
Lemma init_pure_again nw nw' d k :
  compatible d ->
  init_pure nw' (reseeded k (init_pure nw d))
  = reseeded (k + 1) (init_pure nw d).
Proof.
  intros Hc.
  destruct (init_pure_seeds nw d Hc)
    as (tr0 & ts0 & Rr0 & Rs0 & Fr & Fs & Rr & Rs & Nr & Ns).
  set (D := init_pure nw d) in *.
  set (tr := seed_roles_table nw tr0) in *.
  set (ts := seed_task_status_table nw ts0) in *.
  rewrite (reseeded_shape k D tr ts Fr Fs).
  rewrite (reseeded_shape (k + 1) D tr ts Fr Fs).
  set (R := set_table (set_table D "roles" _) "task_status" _).
  assert (FrR : find_table R "roles" = Some (advanced roles_cols (3 * k) tr)).
  { unfold R. rewrite find_set_table_other by discriminate.
    apply find_set_table_same. }
  assert (FsR : find_table R "task_status"
                = Some (advanced task_status_cols (4 * k) ts))
    by apply find_set_table_same.
  assert (HT : forall t,
             In t ["roles"; "users"; "contacts"; "task_status"; "tasks"] ->
             has_table R t = true).
  { intros t Ht. unfold R. rewrite !has_table_set.
    unfold D. rewrite (has_table_init_pure nw d t Hc Ht).
    now rewrite !orb_true_r. }
  unfold init_pure at 1. unfold schema_created.
  rewrite (create_if_absent_present R "roles") by (apply HT; simpl; auto 10).
  rewrite (create_if_absent_present R "users") by (apply HT; simpl; auto 10).
  rewrite (create_if_absent_present R "contacts") by (apply HT; simpl; auto 10).
  rewrite (create_if_absent_present R "task_status")
    by (apply HT; simpl; auto 10).
  rewrite (create_if_absent_present R "tasks") by (apply HT; simpl; auto 10).
  unfold seeded, on_table. rewrite FrR.
  rewrite find_set_table_other, FsR by discriminate.
  unfold seed_roles_table, seed_task_status_table.
  unfold tr at 1, ts at 1. unfold seed_roles_table, seed_task_status_table.
  rewrite (seed_all_again roles_cols "role_name" roles_row roles_row_name).
  rewrite (seed_all_again task_status_cols "status_name" task_status_row
             task_status_row_name).
  fold (seed_roles_table nw tr0) (seed_task_status_table nw ts0).
  fold tr ts. unfold R.
  rewrite set_table_over by discriminate.
  rewrite set_table_over by discriminate.
  cbn [List.length role_seeds task_status_seeds].
  replace (3 * k + Z.of_nat 3) with (3 * (k + 1)) by lia.
  replace (4 * k + Z.of_nat 4) with (4 * (k + 1)) by lia.
  reflexivity.
Qed.

Lemma reseeded_zero nw d :
  compatible d -> reseeded 0 (init_pure nw d) = init_pure nw d.
Proof.
  intros Hc.
  destruct (init_pure_seeds nw d Hc)
    as (tr0 & ts0 & _ & _ & Fr & Fs & (Cr & Kr & _) & (Cs & Ks & _) & _).
  rewrite (reseeded_shape 0 _ _ _ Fr Fs).
  unfold advanced. rewrite !Z.add_0_r.
  rewrite <- Cr, <- Kr, <- Cs, <- Ks at 1. rewrite !table_eta.
  rewrite (set_table_same _ _ _ Fr). apply (set_table_same _ _ _ Fs).
Qed.

(** *** The tables and their rows *)

(** What a database holds apart from its counters: the tables, in order,
    each with its columns, its foreign keys and its rows. *)
Definition layout (d : database)
  : list (string * (list column * list foreign_key * list dict)) :=
  map (fun p => (fst p, (tcols (snd p), tfks (snd p), trows (snd p)))) d.

Definition same_tables (d1 d2 : database) : Prop := layout d1 = layout d2.

Lemma layout_set_table d t tb tb' :
  find_table d t = Some tb ->
  tcols tb' = tcols tb -> tfks tb' = tfks tb -> trows tb' = trows tb ->
  layout (set_table d t tb') = layout d.
Proof.
  intros Hf Hc Hk Hr. induction d as [|[n x] d IH]; simpl in *; [discriminate|].
  destruct (String.eqb t n) eqn:E; simpl.
  - injection Hf as ->. now rewrite Hc, Hk, Hr.
  - now rewrite IH.
Qed.

Lemma same_tables_reseeded k nw d :
  compatible d -> same_tables (reseeded k (init_pure nw d)) (init_pure nw d).
Proof.
  intros Hc.
  destruct (init_pure_seeds nw d Hc)
    as (tr0 & ts0 & _ & _ & Fr & Fs & (Cr & Kr & _) & (Cs & Ks & _) & _).
  rewrite (reseeded_shape k _ _ _ Fr Fs). unfold same_tables.
  rewrite (layout_set_table _ _ (seed_task_status_table nw ts0));
    [|rewrite find_set_table_other by discriminate; exact Fs
     |now rewrite Cs|now rewrite Ks|reflexivity].
  apply (layout_set_table _ _ _ _ Fr); [now rewrite Cr|now rewrite Kr|reflexivity].
Qed.

(* ================================================================== *)
(** ** C4: schema initialization is idempotent *)
(* ================================================================== *)

(** The first two steps of [init_database] in a process that has not built
    the singleton yet. *)
Definition booted (w : world) : world :=
  opened 0 (set_instance (Some 0%nat) (set_objects [mkdbconn None] w)).

Lemma booted_ready w :
  ready 0 (booted w) (List.length (handles w)) (mksession true (committed w) 0).
Proof.
  unfold ready, live. conjuncts; try reflexivity.
  unfold session_of, booted, opened; simpl.
  now rewrite nth_error_app2, Nat.sub_diag by lia.
Qed.

Lemma init_database_fresh w :
  cls_instance w = None -> objects w = [] -> server_up w = true ->
  init_database w = init_database (booted w).
Proof.
  intros Hc Ho Hup.
  pose proof (booted_ready w) as [Hl _].
  rewrite init_database_body.
  unfold bind at 1 3. unfold DatabaseConnection_new at 2.
  replace (cls_instance (booted w)) with (Some 0%nat) by reflexivity.
  unfold bind at 2. rewrite (get_connection_live _ _ _ _ Hl).
  unfold DatabaseConnection_new. rewrite Hc, Ho. cbn [List.length app].
  unfold bind at 1.
  rewrite (get_connection_cases 0 _ (mkdbconn None)) by reflexivity.
  replace (stale 0 (set_instance (Some 0%nat) (set_objects [mkdbconn None] w)))
    with true by reflexivity.
  replace (server_up (set_instance (Some 0%nat)
                        (set_objects [mkdbconn None] w)))
    with true by (symmetry; exact Hup).
  reflexivity.
Qed.

(** One run on a connected singleton with no open transaction. *)
Lemma init_database_ready i w h s :
  cls_instance w = Some i -> ready i w h s -> compatible (committed w) ->
  fst (init_database w) = Ok tt
  /\ committed (snd (init_database w)) = init_pure (now w) (committed w)
  /\ now (snd (init_database w)) = now w
  /\ cls_instance (snd (init_database w)) = Some i
  /\ exists s', ready i (snd (init_database w)) h s'.
Proof.
  intros Hi [Hl Hw] Hc.
  rewrite (init_database_live i w h s Hi Hl). unfold initialized_by.
  rewrite Hw.
  destruct (run_script_init (committed w) (committed w) (now w)
              (last_insert_id s) Hc) as [l' E].
  rewrite E. cbn [fst snd]. conjuncts; try reflexivity; try exact Hi.
  eexists. eapply ready_run_on; [exact Hl|reflexivity|reflexivity].
Qed.

(** A process that can run [init_database]: it has not built the singleton
    yet and the server is reachable, or the singleton is connected with no
    transaction open. *)
Definition startable (w : world) : Prop :=
  (cls_instance w = None /\ objects w = [] /\ server_up w = true)
  \/ exists i h s, cls_instance w = Some i /\ ready i w h s.

Lemma init_database_startable w :
  startable w -> compatible (committed w) ->
  fst (init_database w) = Ok tt
  /\ committed (snd (init_database w)) = init_pure (now w) (committed w)
  /\ now (snd (init_database w)) = now w
  /\ startable (snd (init_database w)).
Proof.
  intros [(Hc & Ho & Hup)|(i & h & s & Hi & Hr)] Hcm.
  - rewrite (init_database_fresh w Hc Ho Hup).
    destruct (init_database_ready 0 (booted w) _ _ eq_refl (booted_ready w) Hcm)
      as (A & B & C & D & s' & E).
    conjuncts; auto. right. eauto.
  - destruct (init_database_ready i w h s Hi Hr Hcm) as (A & B & C & D & s' & E).
    conjuncts; auto. right. eauto.
Qed.

(** [n] runs of [init_database], one after the other. *)
Fixpoint runs (n : nat) (w : world) : world :=
  match n with
  | O => w
  | S n' => after init_database (runs n' w)
  end.

Lemma compatible_init_pure nw d : compatible d -> compatible (init_pure nw d).
Proof.
  intros Hc. pose proof Hc as (_ & _ & Hu & Hk & Ht).
  destruct (init_pure_seeds nw d Hc)
    as (tr0 & ts0 & _ & _ & Fr & Fs & Rr & Rs & _).
  destruct (init_pure_shape nw d Hc) as (tr & ts & _ & _ & E).
  unfold compatible, declared. conjuncts; intros tb.
  - rewrite Fr. intros E'. now replace tb with (seed_roles_table nw tr0)
      by congruence.
  - rewrite Fs. intros E'. now replace tb with (seed_task_status_table nw ts0)
      by congruence.
  - rewrite E, !find_set_table_other by discriminate. unfold schema_created.
    rewrite !find_create_other by discriminate. rewrite find_create_same.
    rewrite find_create_other by discriminate.
    destruct (find_table d "users") as [tu|] eqn:F; intros E';
      [assert (X : tu = tb) by congruence; rewrite <- X; now apply Hu
      |assert (X : mktable users_cols users_fks [] 1 = tb) by congruence;
       rewrite <- X; now split].
  - rewrite E, !find_set_table_other by discriminate. unfold schema_created.
    rewrite !find_create_other by discriminate. rewrite find_create_same.
    rewrite !find_create_other by discriminate.
    destruct (find_table d "contacts") as [tu|] eqn:F; intros E';
      [assert (X : tu = tb) by congruence; rewrite <- X; now apply Hk
      |assert (X : mktable contacts_cols contacts_fks [] 1 = tb) by congruence;
       rewrite <- X; now split].
  - rewrite E, !find_set_table_other by discriminate. unfold schema_created.
    rewrite find_create_same.
    rewrite !find_create_other by discriminate.
    destruct (find_table d "tasks") as [tu|] eqn:F; intros E';
      [assert (X : tu = tb) by congruence; rewrite <- X; now apply Ht
      |assert (X : mktable tasks_cols tasks_fks [] 1 = tb) by congruence;
       rewrite <- X; now split].
Qed.

(** C4.  On a database each of whose five tables is absent or as
    [init_database] declares it, in a process that can reach the server:
    every run of [init_database], the first and each later one, returns
    without error, and after any number [n + 1] of runs the committed
    database has the tables, the columns, the foreign keys and the rows it
    had after the first run.  In it [roles] and [task_status] bear no name
    twice, and the server finds each of the three seed role names and four
    seed status names.  What the later runs do change is the AUTO_INCREMENT
    counter of the two tables: each run moves it on by the number of seed
    rows it skipped, three and four. *)
Theorem C4_init_database_idempotent w :
  startable w -> compatible (committed w) ->
  forall n,
    fst (init_database (runs n w)) = Ok tt
    /\ same_tables (committed (runs (S n) w)) (committed (runs 1 w))
    /\ exists tr ts tr1 ts1,
         find_table (committed (runs (S n) w)) "roles" = Some tr
         /\ find_table (committed (runs (S n) w)) "task_status" = Some ts
         /\ find_table (committed (runs 1 w)) "roles" = Some tr1
         /\ find_table (committed (runs 1 w)) "task_status" = Some ts1
         /\ trows tr = trows tr1 /\ trows ts = trows ts1
         /\ tnext tr = tnext tr1 + 3 * Z.of_nat n
         /\ tnext ts = tnext ts1 + 4 * Z.of_nat n
         /\ distinct_keys "role_name" (trows tr) = true
         /\ distinct_keys "status_name" (trows ts) = true
         /\ (forall name, In name ["admin"; "manager"; "employee"] ->
                          unmatched "role_name" (VStr name) (trows tr) = false)
         /\ (forall name,
                In name ["not_started"; "in_progress"; "completed"; "on_hold"] ->
                unmatched "status_name" (VStr name) (trows ts) = false).
Proof.
  intros Hs Hc.
  set (D := init_pure (now w) (committed w)).
  assert (HD : compatible D) by now apply compatible_init_pure.
  assert (H1 : forall n,
             startable (runs (S n) w)
             /\ committed (runs (S n) w) = reseeded (Z.of_nat n) D
             /\ now (runs (S n) w) = now w
             /\ fst (init_database (runs n w)) = Ok tt).
  { induction n as [|n (IHs & IHc & IHn & _)].
    - destruct (init_database_startable w Hs Hc) as (A & B & C & E).
      cbn [runs]. unfold after. conjuncts; auto.
      rewrite B. symmetry. now apply reseeded_zero.
    - assert (Hc' : compatible (committed (runs (S n) w)))
        by (rewrite IHc; apply compatible_reseeded; [lia|exact HD]).
      destruct (init_database_startable _ IHs Hc') as (A & B & C & E).
      change (runs (S (S n)) w) with (snd (init_database (runs (S n) w))).
      conjuncts; auto.
      + rewrite B, IHc, IHn. unfold D. rewrite init_pure_again by exact Hc.
        f_equal. lia.
      + now rewrite C. }
  intros n. destruct (H1 n) as (_ & En & _ & Ok_n).
  destruct (H1 0%nat) as (_ & E1 & _ & _).
  change (Z.of_nat 0) with 0 in E1. unfold D in E1.
  rewrite reseeded_zero in E1 by exact Hc. fold D in E1.
  split; [exact Ok_n|]. rewrite En, E1.
  split; [now apply same_tables_reseeded|].
  destruct (init_pure_seeds (now w) (committed w) Hc)
    as (tr0 & ts0 & _ & _ & Fr & Fs & (_ & _ & _ & Dr) & (_ & _ & _ & Ds)
        & Nr & Ns).
  fold D in Fr, Fs.
  rewrite (reseeded_shape (Z.of_nat n) D _ _ Fr Fs).
  exists (advanced roles_cols (3 * Z.of_nat n)
            (seed_roles_table (now w) tr0)),
         (advanced task_status_cols (4 * Z.of_nat n)
            (seed_task_status_table (now w) ts0)),
         (seed_roles_table (now w) tr0),
         (seed_task_status_table (now w) ts0).
  conjuncts; auto.
  - rewrite find_set_table_other by discriminate. apply find_set_table_same.
  - apply find_set_table_same.
  - intros name Hn. apply negb_true_iff.
    change ["admin"; "manager"; "employee"] with (map fst role_seeds) in Hn.
    apply in_map_iff in Hn as (nd & <- & Hnd). exact (Nr nd Hnd).
  - intros name Hn. apply negb_true_iff.
    change ["not_started"; "in_progress"; "completed"; "on_hold"]
      with (map fst task_status_seeds) in Hn.
    apply in_map_iff in Hn as (nd & <- & Hnd). exact (Ns nd Hnd).
Qed.

End Collated15.

Lemma startable_world0 : startable world0.
Proof. left. conjuncts; reflexivity. Qed.

Lemma compatible_world0 : compatible (committed world0).
Proof. unfold compatible, declared. conjuncts; intros tb E; discriminate E. Qed.

Lemma C4_witness :
  startable world0 /\ compatible (committed world0)
  /\ fst (init_database (runs 2 world0)) = Ok tt
  /\ same_tables (committed (runs 3 world0)) (committed (runs 1 world0))
  /\ map (fun r => dget_or r "role_name" VNull)
       (rows_of (committed (runs 3 world0)) "roles")
     = [VStr "admin"; VStr "manager"; VStr "employee"]
  /\ map (fun r => dget_or r "status_name" VNull)
       (rows_of (committed (runs 3 world0)) "task_status")
     = [VStr "not_started"; VStr "in_progress"; VStr "completed";
        VStr "on_hold"]
  /\ map (fun k => option_map tnext (find_table (committed (runs k world0))
                                       "roles")) [1; 2; 3]%nat
     = [Some 4; Some 7; Some 10].
Proof.
  split; [exact startable_world0|]. split; [exact compatible_world0|].
  destruct (C4_init_database_idempotent world0 startable_world0
              compatible_world0 2%nat) as (A & B & _).
  split; [exact A|]. split; [exact B|].
  conjuncts; vm_compute; reflexivity.
Defined.
Section Collated16.
Context `{coll : Collation}.

(* ================================================================== *)
(** * Further properties of the repositories and the connection manager *)
(* ================================================================== *)

(** ** [get_task] *)

Lemma get_task_rejected d nw l task_id :
  has_schema d "tasks" tasks_cols ->
  has_schema d "task_status" task_status_cols ->
  has_schema d "users" users_cols ->
  exec_stmt d nw l q_get_task [VInt task_id] = SqlErr ER_BAD_FIELD.
Proof.
  intros (t1 & F1 & C1) (t2 & F2 & C2) (t3 & F3 & C3).
  unfold exec_stmt, q_get_task, exec_select, select_scope; simpl.
  unfold table_scope; rewrite F1, F2, F3; simpl.
  unfold col_names; rewrite C1, C2, C3; reflexivity.
Qed.

Lemma rejected_bind {B} self w h s q params fetch e
    (k : option (list dict) -> M B) :
  live (self_db self) w h s ->
  exec_stmt (working s) (now w) (last_insert_id s) q params = SqlErr e ->
  bind (_execute_query self q params fetch) k w
  = (Raise (Error e), rejected h s q params e w).
Proof.
  intros Hl He. unfold bind.
  rewrite (execute_query_live _ _ _ _ _ _ _ Hl). unfold executed.
  now rewrite He.
Qed.

(** The world an accepted read leaves behind. *)
Definition fetched (h : nat) (s : session) (q : stmt) (params : list value)
    (w : world) : world :=
  run_on h (mksession true (working s) (last_insert_id s)) (committed w)
    [EvCursor h; EvExecute h q params; EvCursorClose h] w.

Lemma fetched_bind {B} self w h s q params o (k : option (list dict) -> M B) :
  live (self_db self) w h s ->
  is_query q = true ->
  exec_stmt (working s) (now w) (last_insert_id s) q params = SqlOk o ->
  bind (_execute_query self q params true) k w
  = k (Some (rows_or_nil (o_rows o))) (fetched h s q params w).
Proof.
  intros Hl Hq He. unfold bind.
  rewrite (execute_query_live _ _ _ _ _ _ _ Hl). unfold executed.
  rewrite He.
  destruct (exec_stmt_query_rows _ _ _ _ _ _ He Hq) as (rows & _ & Hdb).
  assert (Hd : is_ddl q = false) by (destruct q; auto; discriminate).
  assert (Hlast : o_last o = last_insert_id s).
  { unfold exec_stmt in He. destruct (require _ _); [|discriminate].
    cbn in He. destruct q; try discriminate.
    - destruct (exec_select _ _ _ _); [|discriminate]. now inversion He.
    - now inversion He. }
  rewrite Hd, Hdb, Hlast. reflexivity.
Qed.

(** X1.  On the schema of [init_database], [get_task] raises the server's
    error 1054 for every task id, existing or not, after a rollback that
    leaves the committed state as it was: it projects [first_name] and
    [last_name] of [users], which [users] does not have. *)
Theorem X1_get_task_raises self w h s task_id :
  ready (self_db self) w h s ->
  has_schema (committed w) "tasks" tasks_cols ->
  has_schema (committed w) "task_status" task_status_cols ->
  has_schema (committed w) "users" users_cols ->
  fst (get_task self task_id w) = Raise (Error 1054)
  /\ committed (snd (get_task self task_id w)) = committed w
  /\ In (EvRollback h) (log (snd (get_task self task_id w))).
Proof.
  intros [Hl Hw] H1 H2 H3. unfold get_task.
  assert (E : exec_stmt (working s) (now w) (last_insert_id s) q_get_task
                [VInt task_id] = SqlErr ER_BAD_FIELD)
    by (rewrite Hw; now apply get_task_rejected).
  rewrite (rejected_bind _ _ _ _ _ _ _ _ _ Hl E). cbn.
  conjuncts; auto. apply in_or_app. right. simpl; auto.
Qed.

End Collated16.

Lemma X1_witness :
  ready (self_db me) w_task 0 s_task
  /\ no_row_with "task_id" (VInt 1) (rows_of (committed w_task) "tasks") = false
  /\ fst (get_task me 1 w_task) = Raise (Error 1054).
Proof.
  assert (H1 : has_schema (committed w_task) "tasks" tasks_cols)
    by schema_by_running.
  assert (H2 : has_schema (committed w_task) "task_status" task_status_cols)
    by schema_by_running.
  assert (H3 : has_schema (committed w_task) "users" users_cols)
    by schema_by_running.
  split; [exact ready_w_task|]. split; [vm_compute; reflexivity|].
  exact (proj1 (X1_get_task_raises me w_task 0 s_task 1 ready_w_task H1 H2 H3)).
Defined.

Section Collated17.
Context `{coll : Collation}.

(** ** [create_user], then [get_user] and [get_user_by_username] *)

Lemma select_get_user_by_username d nw l tu tr username :
  find_table d "users" = Some tu -> tcols tu = users_cols ->
  find_table d "roles" = Some tr -> tcols tr = roles_cols ->
  exec_stmt d nw l q_get_user_by_username [VStr username]
  = SqlOk (mkoutcome d
             (Some (flat_map
                      (fun u =>
                         map (user_record u)
                           (filter
                              (fun r =>
                                 sql_eq (dget_or u "username" VNull)
                                   (VStr username)
                                 && sql_eq (dget_or u "role_id" VNull)
                                      (dget_or r "role_id" VNull))
                              (trows tr)))
                      (trows tu)))
             l).
Proof.
  intros Hu Cu Hr Cr.
  unfold exec_stmt, q_get_user_by_username, exec_select, select_scope,
    table_scope.
  cbn [stmt_params s_proj s_where where_eq expr_params sum_nat map fold_right
       List.length Nat.add Nat.eqb require sbind s_table s_alias s_joins
       joins_scope s_order j_table j_alias join_roles].
  unfold table_scope. rewrite Hu, Hr. unfold col_names. rewrite Cu, Cr. cbn.
  unfold select_envs, from_envs, join_envs, rows_of. cbn. rewrite Hu, Hr.
  f_equal. f_equal. f_equal.
  apply join_where_shape.
  - intros u r. cbn. apply andb_comm.
  - intros u r. reflexivity.
Qed.

(** Among the joined rows, only the user rows that pass [cond] count. *)
Lemma joined_new_row (cond : dict -> bool) (J : dict -> dict -> bool)
    (rows : list dict) (row : dict) (tr : list dict) :
  existsb cond rows = false -> cond row = true ->
  flat_map (fun u => map (user_record u) (filter (fun r => cond u && J u r) tr))
    (rows ++ [row])
  = map (user_record row) (filter (J row) tr).
Proof.
  intros Hn Hy. rewrite flat_map_app. simpl. rewrite app_nil_r, Hy. simpl.
  replace (flat_map _ rows) with (@nil dict); [reflexivity|].
  symmetry. clear Hy. induction rows as [|u rows IH]; [reflexivity|].
  simpl in *. apply orb_false_iff in Hn as [Hu Hn]. rewrite Hu. simpl.
  rewrite IH by exact Hn.
  replace (filter (fun _ => false) tr) with (@nil dict); [reflexivity|].
  clear. induction tr; simpl; auto.
Qed.

Section UserRoundTrip.
Context `{Bcrypt.impl}.

(** X2.  After [create_user] returned: the id it returned is the table's
    next id, the row it added bears it, and both [get_user] with that id and
    [get_user_by_username] with the user name return the same record: the
    columns of the new row together with the [role_name] of a role row whose
    id is the given [role_id]. *)
Theorem X2_create_user_then_get_user self w h s tu tr username password
    email role_id manager_id v :
  ready (self_db self) w h s ->
  find_table (committed w) "users" = Some tu ->
  tcols tu = users_cols -> tfks tu = users_fks ->
  find_table (committed w) "roles" = Some tr ->
  tcols tr = roles_cols ->
  fst (create_user self username password email role_id manager_id w) = Ok v ->
  let w1 := snd (create_user self username password email role_id manager_id w) in
  v = VInt (tnext tu)
  /\ exists row r,
       rows_of (committed w1) "users" = trows tu ++ [row]
       /\ In r (trows tr)
       /\ dget_or r "role_id" VNull = VInt role_id
       /\ fst (get_user self (tnext tu) w1) = Ok (Some (user_record row r))
       /\ fst (get_user_by_username self username w1)
          = Ok (Some (user_record row r))
       /\ dget (user_record row r) "user_id" = Some v
       /\ dget (user_record row r) "username" = Some (VStr username)
       /\ dget (user_record row r) "email" = Some (VStr email)
       /\ dget (user_record row r) "role_name"
          = Some (dget_or r "role_name" VNull).
Proof.
  intros [Hl Hw] Hf Hc Hk Hfr Hcr Hv w1. subst w1. revert Hv.
  rewrite (create_user_live _ _ _ _ _ _ _ _ _ Hl). cbv zeta.
  destruct (exec_stmt _ _ _ _ _) as [o|e] eqn:E; [|discriminate].
  cbn [fst snd]. intros Hv.
  rewrite Hw in E. unfold q_insert_user, user_params in E.
  rewrite (exec_insert_one _ _ _ _ _ _ _ tu Hf) in E;
    try (unfold has_col, col_names; rewrite ?Hc; reflexivity).
  cbn [map params_from seq eval nth combine] in E.
  set (stored := Bcrypt.hashpw password (entropy w (draws w))) in *.
  destruct (insert_row _ _ _ _) as [[tb' g]|e] eqn:Ei; [|discriminate].
  apply insert_row_inv in Ei as (_ & Hu & Hfk & Etb & Eg).
  assert (Hdb : o_db o = set_table (committed w) "users" tb')
    by (inversion E; reflexivity).
  assert (Hlast : o_last o = tnext tu).
  { inversion E. cbn. rewrite Eg. unfold generated. rewrite Hc. reflexivity. }
  clear E.
  set (ps := user_params w username password email role_id manager_id) in *.
  set (w0 := set_draws (S (draws w)) w) in *.
  assert (Hr1 : ready (self_db self) (inserted h q_insert_user ps o w0) h
                  (mksession true (o_db o) (o_last o))).
  { unfold inserted. eapply ready_run_on; [exact Hl|reflexivity|reflexivity]. }
  assert (Hf1 : find_table (committed (inserted h q_insert_user ps o w0)) "users"
                = Some tb')
    by (rewrite committed_inserted, Hdb; apply find_set_table_same).
  assert (Hfr1 : find_table (committed (inserted h q_insert_user ps o w0))
                   "roles" = Some tr).
  { rewrite committed_inserted, Hdb.
    rewrite find_set_table_other by discriminate. exact Hfr. }
  assert (Hc1 : tcols tb' = users_cols) by (rewrite Etb; exact Hc).
  unfold build_row in Etb, Hu, Hfk. rewrite Hc in Etb, Hu, Hfk.
  unfold fk_ok in Hfk. rewrite Hk in Hfk.
  cbn [forallb users_fks fk_col fk_table fk_ref] in Hfk.
  unfold rows_of in Hfk. rewrite Hfr, Hf in Hfk.
  cbn [map users_cols cname primary_key unique not_null col default
       on_update_now created_at updated_at] in Etb, Hu, Hfk.
  unfold cell_for, auto_here in Etb, Hu, Hfk. cbn in Etb, Hu, Hfk.
  set (row := [("user_id", VInt (tnext tu)); ("username", VStr username);
               ("password_hash", VStr stored); ("email", VStr email);
               ("role_id", VInt role_id); ("manager_id", opt_int manager_id);
               ("is_active", VInt 1); ("created_at", VInt (now w));
               ("updated_at", VInt (now w))]) in *.
  apply andb_prop in Hu as [Hid Hu]. apply andb_prop in Hu as [Hun _].
  apply negb_true_iff in Hid, Hun.
  apply andb_prop in Hfk as [Hrole _].
  (* the role row the join finds *)
  destruct (filter (fun r => sql_eq (VInt role_id) (dget_or r "role_id" VNull))
              (trows tr)) as [|r rest] eqn:Efil.
  { exfalso. rewrite orb_false_r in Hrole.
    apply existsb_exists in Hrole as (r & Hr & Hm).
    assert (Hin : In r (filter (fun r => sql_eq (VInt role_id)
                                           (dget_or r "role_id" VNull))
                          (trows tr)))
      by (apply filter_In; split; [exact Hr|now rewrite sql_eq_sym]).
    rewrite Efil in Hin. destruct Hin. }
  assert (Hr : In r (trows tr) /\ dget_or r "role_id" VNull = VInt role_id).
  { assert (Hin : In r (r :: rest)) by now left.
    rewrite <- Efil in Hin. apply filter_In in Hin as [Hin Hm].
    split; [exact Hin|]. now apply sql_eq_int_l. }
  split; [now inversion Hv; rewrite Hlast|].
  exists row, r. destruct Hr as [Hr1' Hr2]. conjuncts; auto.
  - rewrite committed_inserted, Hdb. unfold rows_of.
    rewrite find_set_table_same, Etb. reflexivity.
  - rewrite (get_user_live _ _ _ _ tb' tr _ Hr1 Hf1 Hc1 Hfr1 Hcr).
    rewrite Etb. cbn [trows].
    rewrite (joined_new_row
               (fun u => sql_eq (dget_or u "user_id" VNull) (VInt (tnext tu)))
               (fun u r => sql_eq (dget_or u "role_id" VNull)
                             (dget_or r "role_id" VNull)))
      by (auto; cbn; apply Z.eqb_refl).
    cbn [dget_or dget row String.eqb Ascii.eqb Bool.eqb].
    change (dget_or row "role_id" VNull) with (VInt role_id).
    now rewrite Efil.
  - unfold get_user_by_username.
    destruct Hr1 as [Hl1 Hw1].
    pose proof (select_get_user_by_username (o_db o)
                  (now (inserted h q_insert_user ps o w0)) (o_last o) tb' tr
                  username Hf1 Hc1 Hfr1 Hcr) as Es.
    rewrite (fetched_bind self _ h _ q_get_user_by_username [VStr username] _ _
               Hl1 eq_refl Es).
    cbn [o_rows rows_or_nil ret fst]. rewrite Etb. cbn [trows].
    rewrite (joined_new_row
               (fun u => sql_eq (dget_or u "username" VNull) (VStr username))
               (fun u r => sql_eq (dget_or u "role_id" VNull)
                             (dget_or r "role_id" VNull)))
      by (auto; cbn; apply collate_refl).
    change (dget_or row "role_id" VNull) with (VInt role_id).
    now rewrite Efil.
  - cbn. now inversion Hv; rewrite Hlast.
Qed.

End UserRoundTrip.

End Collated17.

Lemma X2_witness :
  ready (self_db me) w_init 0 s_init
  /\ fst (get_user_by_username me "bob" w_bob) = fst (get_user me 1 w_bob)
  /\ fst (get_user_by_username me "bob" w_bob)
     = Ok (Some [("user_id", VInt 1); ("username", VStr "bob");
                 ("password_hash",
                  VStr "$2b$12$abcdefghijklmnopqrstuvsecret.........................");
                 ("email", VStr "bob@x.org"); ("role_id", VInt 3);
                 ("manager_id", VNull); ("is_active", VInt 1);
                 ("created_at", VInt 1000); ("updated_at", VInt 1000);
                 ("role_name", VStr "employee")]).
Proof.
  split; [exact ready_w_init|].
  assert (Hu : find_table (committed w_init) "users"
               = Some (mktable users_cols users_fks [] 1))
    by (vm_compute; reflexivity).
  assert (Hr : find_table (committed w_init) "roles"
               = Some (mktable roles_cols []
                         (rows_of (committed w_init) "roles") 4))
    by (vm_compute; reflexivity).
  assert (Hv : fst (create_user (H := Bcrypt.ref_impl) me "bob" "secret"
                      "bob@x.org" 3 None w_init) = Ok (VInt 1))
    by (vm_compute; reflexivity).
  destruct (X2_create_user_then_get_user (H := Bcrypt.ref_impl) me w_init 0
              s_init _ _ "bob" "secret" "bob@x.org" 3 None (VInt 1)
              ready_w_init Hu eq_refl eq_refl Hr eq_refl Hv)
    as (_ & row & r & _ & _ & _ & G1 & G2 & _).
  split.
  - etransitivity; [exact G2|symmetry; exact G1].
  - vm_compute; reflexivity.
Defined.

Section Collated18.
Context `{coll : Collation}.

(** ** What [create_user] refuses *)

Section CreateUserRefused.
Context `{Bcrypt.impl}.





End CreateUserRefused.

End Collated18.




Section Collated19.
Context `{coll : Collation}.

(* ================================================================== *)
(** ** Required keys are read before anything is sent *)
(* ================================================================== *)

(** The first of [keys] that [data] lacks. *)
Fixpoint first_missing (keys : list string) (data : dict) : option string :=
  match keys with
  | [] => None
  | k :: keys' =>
      match dget data k with
      | Some _ => first_missing keys' data
      | None => Some k
      end
  end.

Definition contact_required : list string := ["first_name"; "last_name"].
Definition task_required : list string :=
  ["title"; "assigned_to"; "assigned_by"; "due_date"; "status_id"].

Lemma contact_params_missing data k w :
  first_missing contact_required data = Some k ->
  contact_params data w = (Raise (KeyError k), w).
Proof.
  unfold contact_required, first_missing, contact_params, bind, item, ret, raise.
  destruct (dget data "first_name"); [|now intros [= <-]].
  destruct (dget data "last_name"); [discriminate|now intros [= <-]].
Qed.


(** X5.  [create_contact], [update_contact] and [create_task] index their
    required keys while building the parameter tuple, before the executor is
    called: when [data] lacks one, they raise [KeyError] for the first
    missing key in the order of the tuple, and the world is left exactly as
    it was: no connection is opened, nothing is sent or logged.  This holds
    in every world, also with the server down. *)
Theorem X5_missing_key_raises_before_any_query self data k w :
  (first_missing contact_required data = Some k ->
   create_contact self data w = (Raise (KeyError k), w)
   /\ forall contact_id,
        update_contact self contact_id data w = (Raise (KeyError k), w))
  /\ (first_missing task_required data = Some k ->
      create_task self data w = (Raise (KeyError k), w)).
Proof.
  split.
  - intros Hm. split; [|intros contact_id];
      unfold create_contact, update_contact, bind at 1;
      now rewrite (contact_params_missing _ _ _ Hm).
  - unfold task_required, first_missing, create_task, bind, item, ret, raise.
    destruct (dget data "title"); [|now intros [= <-]].
    destruct (dget data "assigned_to"); [|now intros [= <-]].
    destruct (dget data "assigned_by"); [|now intros [= <-]].
    destruct (dget data "due_date"); [|now intros [= <-]].
    destruct (dget data "status_id"); [discriminate|now intros [= <-]].
Qed.

End Collated19.

Lemma X5_witness :
  first_missing contact_required [("first_name", VStr "Ann")] = Some "last_name"
  /\ create_contact me [("first_name", VStr "Ann")] world0
     = (Raise (KeyError "last_name"), world0).
Proof.
  split; [reflexivity|].
  exact (proj1 (proj1 (X5_missing_key_raises_before_any_query me
                         [("first_name", VStr "Ann")] "last_name" world0)
                  eq_refl)).
Defined.

Section Collated20.
Context `{coll : Collation}.

(* ================================================================== *)
(** ** Contacts: what is stored and what is read back *)
(* ================================================================== *)

(** The record [SELECT *] builds from a stored contact row. *)
Definition contact_record (r : dict) : dict :=
  map (fun c => (cname c, dget_or r (cname c) VNull)) contacts_cols.

End Collated20.

Ltac select_contacts Hf Hc :=
  unfold exec_stmt, q_get_contact, q_contacts_by_user, exec_select,
    select_scope, table_scope;
  cbn [stmt_params s_proj s_where where_eq expr_params sum_nat map fold_right
       List.length Nat.add Nat.eqb require sbind s_table s_alias s_joins
       joins_scope s_order];
  rewrite Hf; unfold col_names; rewrite Hc; cbn;
  unfold select_envs, from_envs, rows_of; cbn; rewrite Hf;
  rewrite filter_map_comm, map_map; reflexivity.

Section Collated21.
Context `{coll : Collation}.

(** [SELECT * FROM contacts WHERE contact_id = %s] *)
Lemma select_get_contact d nw l tb contact_id :
  find_table d "contacts" = Some tb ->
  tcols tb = contacts_cols ->
  exec_stmt d nw l q_get_contact [VInt contact_id]
  = SqlOk (mkoutcome d
             (Some (map contact_record
                      (filter (fun r => sql_eq (dget_or r "contact_id" VNull)
                                               (VInt contact_id))
                         (trows tb))))
             l).
Proof. intros Hf Hc. select_contacts Hf Hc. Qed.

(** [SELECT * FROM contacts WHERE assigned_to = %s] *)
Lemma select_contacts_by_user d nw l tb user_id :
  find_table d "contacts" = Some tb ->
  tcols tb = contacts_cols ->
  exec_stmt d nw l q_contacts_by_user [VInt user_id]
  = SqlOk (mkoutcome d
             (Some (map contact_record
                      (filter (fun r => sql_eq (dget_or r "assigned_to" VNull)
                                               (VInt user_id))
                         (trows tb))))
             l).
Proof. intros Hf Hc. select_contacts Hf Hc. Qed.

(** The stored contacts with the given id, as [get_contact] sees them. *)
Definition contacts_with (key : string) (v : value) (rows : list dict)
  : list dict :=
  map contact_record (filter (fun r => sql_eq (dget_or r key VNull) v) rows).

Lemma get_contact_live self w h s tb contact_id :
  ready (self_db self) w h s ->
  find_table (committed w) "contacts" = Some tb ->
  tcols tb = contacts_cols ->
  get_contact self contact_id w
  = (Ok (first_or_none
           (Some (contacts_with "contact_id" (VInt contact_id) (trows tb)))),
     fetched h s q_get_contact [VInt contact_id] w).
Proof.
  intros [Hl Hw] Hf Hc. unfold get_contact.
  rewrite <- Hw in Hf.
  rewrite (fetched_bind self w h s q_get_contact [VInt contact_id] _ _ Hl
             eq_refl (select_get_contact _ _ _ tb _ Hf Hc)).
  reflexivity.
Qed.

Lemma get_contacts_by_user_live self w h s tb user_id :
  ready (self_db self) w h s ->
  find_table (committed w) "contacts" = Some tb ->
  tcols tb = contacts_cols ->
  get_contacts_by_user self user_id w
  = (Ok (Some (contacts_with "assigned_to" (VInt user_id) (trows tb))),
     fetched h s q_contacts_by_user [VInt user_id] w).
Proof.
  intros [Hl Hw] Hf Hc. unfold get_contacts_by_user.
  rewrite <- Hw in Hf.
  pose proof (fetched_bind self w h s q_contacts_by_user [VInt user_id] _ ret
                Hl eq_refl (select_contacts_by_user _ _ _ tb _ Hf Hc)) as E.
  unfold bind in E.
  destruct (_execute_query _ _ _ _ _) as [[x|e] w'] eqn:Eq; exact E.
Qed.






End Collated21.

(** *** A stored contact in the concrete process *)

Definition ann : dict :=
  [("first_name", VStr "Ann"); ("last_name", VStr "Lee");
   ("email", VStr "ann@x.org"); ("assigned_to", VInt 1)].

Definition w_ann : world := after (create_contact me ann) w_bob.
Definition s_ann : session := mksession true (committed w_ann) 1.

Lemma ready_w_ann : ready 0 w_ann 0 s_ann.
Proof. unfold ready, live. by_running. Qed.


Section Collated22.
Context `{coll : Collation}.

(** X7.  On a ready connection the two contact readers return what is
    committed and commit nothing.  [get_contacts_by_user] returns a list,
    never [None]: the records of exactly the stored contacts assigned to the
    user (so a contact assigned to nobody is in no list).  [get_contact]
    returns [None] exactly when no stored contact bears the id, and otherwise
    a record bearing it.  Each call issues a cursor, the statement and the
    cursor's close, and nothing else; the committed database is unchanged. *)
Theorem X7_contact_readers self w h s tb :
  ready (self_db self) w h s ->
  find_table (committed w) "contacts" = Some tb ->
  tcols tb = contacts_cols ->
  (forall user_id,
      exists l,
        fst (get_contacts_by_user self user_id w) = Ok (Some l)
        /\ (forall rec,
              In rec l <->
              exists r, In r (trows tb)
                        /\ dget_or r "assigned_to" VNull = VInt user_id
                        /\ rec = contact_record r)
        /\ committed (snd (get_contacts_by_user self user_id w)) = committed w
        /\ log (snd (get_contacts_by_user self user_id w))
           = log w ++ [EvCursor h;
                       EvExecute h q_contacts_by_user [VInt user_id];
                       EvCursorClose h])
  /\ (forall contact_id,
        (fst (get_contact self contact_id w) = Ok None <->
         no_row_with "contact_id" (VInt contact_id) (trows tb) = true)
        /\ (forall rec,
              fst (get_contact self contact_id w) = Ok (Some rec) ->
              dget rec "contact_id" = Some (VInt contact_id)
              /\ exists r, In r (trows tb) /\ rec = contact_record r)
        /\ committed (snd (get_contact self contact_id w)) = committed w
        /\ log (snd (get_contact self contact_id w))
           = log w ++ [EvCursor h; EvExecute h q_get_contact [VInt contact_id];
                       EvCursorClose h]).
Proof.
  intros Hr Hf Hc. split.
  - intros user_id. eexists.
    rewrite (get_contacts_by_user_live _ _ _ _ tb _ Hr Hf Hc). cbn [fst snd].
    conjuncts; try reflexivity.
    intros rec. unfold contacts_with. rewrite in_map_iff. split.
    + intros (r & <- & Hin). apply filter_In in Hin as [Hin Hm].
      exists r. rewrite sql_eq_int in Hm. auto.
    + intros (r & Hin & Ha & ->). exists r. split; [reflexivity|].
      apply filter_In. split; [exact Hin|]. now apply sql_eq_int.
  - intros contact_id.
    rewrite (get_contact_live _ _ _ _ tb _ Hr Hf Hc). cbn [fst snd].
    rewrite no_row_with_int. unfold contacts_with, unmatched.
    conjuncts; try reflexivity.
    + rewrite negb_true_iff.
      destruct (filter _ _) as [|r rest] eqn:E; cbn [map first_or_none].
      * split; [intros _|reflexivity].
        destruct (existsb _ _) eqn:Ex; [|reflexivity].
        apply existsb_exists in Ex as (r & Hin & Hm).
        assert (Hin' : In r []) by (rewrite <- E; apply filter_In; auto).
        destruct Hin'.
      * split; [discriminate|]. intros Ex.
        rewrite (filter_none _ _ Ex) in E. discriminate.
    + intros rec.
      destruct (filter _ _) as [|r rest] eqn:E; cbn [map first_or_none];
        [discriminate|].
      intros [= <-].
      assert (Hin : In r (r :: rest)) by now left.
      rewrite <- E in Hin. apply filter_In in Hin as [Hin Hm].
      apply sql_eq_int in Hm. split; [|eauto].
      cbn. now rewrite Hm.
Qed.

End Collated22.

Lemma X7_witness :
  ready (self_db me) w_ann 0 s_ann
  /\ fst (get_contact me 2 w_ann) = Ok None
  /\ committed (snd (get_contacts_by_user me 1 w_ann)) = committed w_ann.
Proof.
  split; [exact ready_w_ann|].
  assert (Hf : find_table (committed w_ann) "contacts"
               = Some (mktable contacts_cols contacts_fks
                         (rows_of (committed w_ann) "contacts") 2))
    by (vm_compute; reflexivity).
  destruct (X7_contact_readers me w_ann 0 s_ann _ ready_w_ann Hf eq_refl)
    as [G1 G2].
  split.
  - apply (proj1 (G2 2)). vm_compute; reflexivity.
  - destruct (G1 1) as (l & _ & _ & Hc & _). exact Hc.
Defined.

Section Collated23.
Context `{coll : Collation}.

(* ================================================================== *)
(** ** UPDATE through the executor *)
(* ================================================================== *)

(** What an accepted UPDATE makes of a stored row. *)
Definition updated_row (tb : table) (t : string) (nw : Z) (params : list value)
    (sets : list (string * expr)) (wc : string) (wv : value) (r : dict) : dict :=
  if sql_eq (dget_or r wc VNull) wv
  then touch (tcols tb) sets nw r (apply_sets t params nw sets r)
  else r.

Lemma update_rows_inv d tb t nw params sets wc wv : forall todo before rows',
  update_rows d tb t nw params sets wc wv before todo = SqlOk rows' ->
  rows' = before ++ map (updated_row tb t nw params sets wc wv) todo.
Proof.
  induction todo as [|r todo IH]; intros before rows'; simpl.
  - intros [= <-]. now rewrite app_nil_r.
  - unfold updated_row at 1.
    destruct (sql_eq (dget_or r wc VNull) wv).
    + destruct (check_cols _ _) as [[]|e]; simpl; [|discriminate].
      destruct (unique_ok _ _ _); simpl; [|discriminate].
      destruct (fk_ok _ _ _); simpl; [|discriminate].
      intros E. apply IH in E. now rewrite <- app_assoc in E.
    + intros E. apply IH in E. now rewrite <- app_assoc in E.
Qed.

Lemma exec_update_inv d nw l t sets wc we params tb o :
  find_table d t = Some tb ->
  exec_stmt d nw l (SUpdate t sets wc we) params = SqlOk o ->
  o = mkoutcome
        (set_table d t
           (mktable (tcols tb) (tfks tb)
              (map (updated_row tb t nw params sets wc (eval [] params nw we))
                 (trows tb))
              (tnext tb)))
        None l.
Proof.
  intros Hf. unfold exec_stmt.
  destruct (require _ _) as [[]|e]; simpl; [|discriminate].
  unfold exec_update. rewrite Hf.
  destruct (require _ _) as [[]|e]; simpl; [|discriminate].
  destruct (require _ _) as [[]|e]; simpl; [|discriminate].
  destruct (update_rows _ _ _ _ _ _ _ _ _ _) as [rows|e] eqn:E; simpl;
    [|discriminate].
  apply update_rows_inv in E. simpl in E. subst rows. now intros [= <-].
Qed.

(** The world an accepted write leaves behind. *)
Definition written (h : nat) (q : stmt) (params : list value) (o : outcome)
    (w : world) : world :=
  run_on h (mksession true (o_db o) (o_last o)) (o_db o)
    [EvCursor h; EvExecute h q params; EvCommit h; EvCursorClose h] w.

Lemma written_then {B} self w h s q params o (k : M B) :
  live (self_db self) w h s ->
  exec_stmt (working s) (now w) (last_insert_id s) q params = SqlOk o ->
  (_execute_query self q params false ;;; k) w = k (written h q params o w).
Proof.
  intros Hl E. unfold bind at 1.
  rewrite (execute_query_live _ _ _ _ _ _ _ Hl). unfold executed.
  now rewrite E.
Qed.



Lemma dget_or_dset_same d k v x : dget_or (dset d k v) k x = v.
Proof. unfold dget_or. now rewrite dget_dset_same. Qed.

Lemma dget_or_dset_other d k k' v x :
  k' <> k -> dget_or (dset d k v) k' x = dget_or d k' x.
Proof. intros Hk. unfold dget_or. now rewrite dget_dset_other. Qed.


End Collated23.


Section Collated24.
Context `{coll : Collation}.





End Collated24.


Section Collated25.
Context `{coll : Collation}.

(* ================================================================== *)
(** ** Tasks: what a created task holds *)
(* ================================================================== *)




End Collated25.


Section Collated26.
Context `{coll : Collation}.

(* ================================================================== *)
(** ** Tasks: what a status update changes *)
(* ================================================================== *)

(** Every row an accepted UPDATE rewrote passed the foreign-key check. *)
Lemma update_rows_fk d tb t nw params sets wc wv : forall todo before rows',
  update_rows d tb t nw params sets wc wv before todo = SqlOk rows' ->
  forall r, In r todo -> sql_eq (dget_or r wc VNull) wv = true ->
  fk_ok d t (tfks tb) (updated_row tb t nw params sets wc wv r) = true.
Proof.
  induction todo as [|r0 todo IH]; intros before rows'; simpl; [intros _ _ []|].
  destruct (sql_eq (dget_or r0 wc VNull) wv) eqn:Em.
  - destruct (check_cols _ _) as [[]|e]; simpl; [|discriminate].
    destruct (unique_ok _ _ _); simpl; [|discriminate].
    destruct (fk_ok _ _ _) eqn:Efk; simpl; [|discriminate].
    intros E r [<-|Hin] Hm.
    + unfold updated_row. now rewrite Em.
    + eapply IH; eauto.
  - intros E r [<-|Hin] Hm; [congruence|]. eapply IH; eauto.
Qed.

Lemma exec_update_fk d nw l t sets wc we params tb o :
  find_table d t = Some tb ->
  exec_stmt d nw l (SUpdate t sets wc we) params = SqlOk o ->
  forall r, In r (trows tb) ->
  sql_eq (dget_or r wc VNull) (eval [] params nw we) = true ->
  fk_ok d t (tfks tb)
    (updated_row tb t nw params sets wc (eval [] params nw we) r) = true.
Proof.
  intros Hf. unfold exec_stmt.
  destruct (require _ _) as [[]|e]; simpl; [|discriminate].
  unfold exec_update. rewrite Hf.
  destruct (require _ _) as [[]|e]; simpl; [|discriminate].
  destruct (require _ _) as [[]|e]; simpl; [|discriminate].
  destruct (update_rows _ _ _ _ _ _ _ _ _ _) as [rows|e] eqn:E; simpl;
    [|discriminate].
  intros _. eapply update_rows_fk; eauto.
Qed.

Lemma update_task_status_live self w h s task_id status_id :
  live (self_db self) w h s ->
  let params := [VInt status_id; VInt task_id] in
  update_task_status self task_id status_id w
  = match exec_stmt (working s) (now w) (last_insert_id s) q_update_task_status
            params with
    | SqlOk o => (Ok true, written h q_update_task_status params o w)
    | SqlErr e =>
        (Raise (Error e), rejected h s q_update_task_status params e w)
    end.
Proof.
  intros Hl params. unfold update_task_status.
  destruct (exec_stmt _ _ _ _ _) as [o|e] eqn:E.
  - now rewrite (written_then _ _ _ _ _ _ _ _ Hl E).
  - now rewrite (rejected_then _ _ _ _ _ _ _ _ _ Hl E).
Qed.

(** What [update_task_status] makes of a stored task row. *)
Definition restatus (task_id status_id t : Z) (r : dict) : dict :=
  if sql_eq (dget_or r "task_id" VNull) (VInt task_id)
  then dset (dset r "status_id" (VInt status_id)) "updated_at" (VInt t)
  else r.

Lemma updated_row_restatus tb nw task_id status_id r :
  tcols tb = tasks_cols ->
  updated_row tb "tasks" nw [VInt status_id; VInt task_id]
    [("status_id", EParam 0); ("updated_at", ENow)] "task_id" (VInt task_id) r
  = restatus task_id status_id nw r.
Proof.
  intros Hc. unfold updated_row, restatus, touch. rewrite Hc.
  destruct (sql_eq _ _); [|reflexivity].
  destruct (dict_eqb _ _); reflexivity.
Qed.

(** X10.  After [update_task_status] returned: in the committed [tasks]
    table the rows bearing the task id hold the new status id and the time
    of the call in [updated_at], every other cell of theirs and every other
    row is as before, and no row was added or dropped.  And if a stored task
    bears the id, a stored status bears the status id: a status id that
    names nothing gets past the call only when the task id names nothing
    either. *)
Theorem X10_update_task_status_changes_status_only self w h s tb task_id
    status_id v :
  ready (self_db self) w h s ->
  find_table (committed w) "tasks" = Some tb ->
  tcols tb = tasks_cols -> tfks tb = tasks_fks ->
  fst (update_task_status self task_id status_id w) = Ok v ->
  let w1 := snd (update_task_status self task_id status_id w) in
  rows_of (committed w1) "tasks"
  = map (restatus task_id status_id (now w)) (trows tb)
  /\ (forall r,
        dget_or r "task_id" VNull = VInt task_id ->
        let r' := restatus task_id status_id (now w) r in
        dget r' "status_id" = Some (VInt status_id)
        /\ dget r' "updated_at" = Some (VInt (now w))
        /\ forall c, c <> "status_id" -> c <> "updated_at" ->
                     dget r' c = dget r c)
  /\ (forall r,
        dget_or r "task_id" VNull <> VInt task_id ->
        restatus task_id status_id (now w) r = r)
  /\ (no_row_with "task_id" (VInt task_id) (trows tb) = false ->
      no_row_with "status_id" (VInt status_id)
        (rows_of (committed w) "task_status") = false).
Proof.
  intros [Hl Hw] Hf Hc Hk Hv w1. subst w1. revert Hv.
  rewrite (update_task_status_live _ _ _ _ _ _ Hl). cbv zeta.
  destruct (exec_stmt _ _ _ _ _) as [o|e] eqn:E; [|discriminate].
  cbn [fst snd]. intros _.
  rewrite Hw in E. unfold q_update_task_status in E.
  pose proof (exec_update_fk _ _ _ _ _ _ _ _ tb _ Hf E) as Hfk.
  apply (exec_update_inv _ _ _ _ _ _ _ _ tb _ Hf) in E.
  cbn [eval nth] in E, Hfk.
  conjuncts.
  - rewrite E. cbn [written committed run_on o_db]. unfold rows_of.
    rewrite find_set_table_same. cbn [trows].
    apply map_ext. intros r. now apply updated_row_restatus.
  - intros r Hr. unfold restatus. rewrite Hr. cbn [sql_eq].
    rewrite Z.eqb_refl. conjuncts.
    + rewrite dget_dset_other by discriminate. apply dget_dset_same.
    + apply dget_dset_same.
    + intros c H1 H2. now rewrite !dget_dset_other by auto.
  - intros r Hr. unfold restatus.
    destruct (sql_eq _ _) eqn:Em; [|reflexivity].
    apply sql_eq_int in Em. contradiction.
  - rewrite !no_row_with_int. unfold unmatched. rewrite !negb_false_iff.
    intros Hex.
    apply existsb_exists in Hex as (r & Hin & Hm).
    specialize (Hfk r Hin Hm).
    rewrite (updated_row_restatus _ _ _ _ _ Hc) in Hfk.
    unfold restatus in Hfk. rewrite Hm in Hfk.
    unfold fk_ok in Hfk. rewrite Hk in Hfk.
    cbn [forallb tasks_fks fk_col fk_table fk_ref] in Hfk.
    apply andb_prop in Hfk as [_ Hfk]. apply andb_prop in Hfk as [_ Hfk].
    apply andb_prop in Hfk as [Hfk _].
    rewrite dget_or_dset_other, dget_or_dset_same in Hfk by discriminate.
    cbn in Hfk. rewrite orb_false_r in Hfk. exact Hfk.
Qed.

End Collated26.

Lemma X10_witness :
  ready (self_db me) w_task 0 s_task
  /\ exists row,
       rows_of (committed (snd (update_task_status me 1 3 w_task))) "tasks"
       = [row]
       /\ dget row "status_id" = Some (VInt 3)
       /\ dget row "title" = Some (VStr "call back").
Proof.
  split; [exact ready_w_task|].
  assert (Hf : find_table (committed w_task) "tasks"
               = Some (mktable tasks_cols tasks_fks
                         (rows_of (committed w_task) "tasks") 2))
    by (vm_compute; reflexivity).
  assert (Hv : fst (update_task_status me 1 3 w_task) = Ok true)
    by (vm_compute; reflexivity).
  pose proof (X10_update_task_status_changes_status_only me w_task 0 s_task _
                1 3 true ready_w_task Hf eq_refl eq_refl Hv) as G.
  cbv zeta in G. destruct G as (G & _).
  rewrite G. eexists. split; vm_compute; [reflexivity|split; reflexivity].
Defined.

Section Collated27.
Context `{coll : Collation}.




End Collated27.


Section Collated28.
Context `{coll : Collation}.

(* ================================================================== *)
(** ** Reference data: roles and task statuses *)
(* ================================================================== *)



End Collated28.


Section Collated29.
Context `{coll : Collation}.








End Collated29.



Section Collated30.
Context `{coll : Collation}.

(* ================================================================== *)
(** ** The executor without a live connection *)
(* ================================================================== *)

Lemma live_opened i w o :
  nth_error (objects w) i = Some o ->
  live i (opened i w) (List.length (handles w))
    (mksession true (committed w) 0).
Proof.
  intros Ho. repeat split.
  - apply (attr_opened _ _ _ Ho).
  - unfold session_of, opened; simpl.
    rewrite nth_error_app2, Nat.sub_diag by lia. reflexivity.
Qed.

Lemma execute_query_stale self w o q params fetch :
  nth_error (objects w) (self_db self) = Some o ->
  stale (self_db self) w = true ->
  _execute_query self q params fetch w
  = if server_up w then
      executed (List.length (handles w)) (mksession true (committed w) 0)
        q params fetch (opened (self_db self) w)
    else (Raise (Error CR_CONN_HOST_ERROR), refused w).
Proof.
  intros Ho Hs. destruct (server_up w) eqn:Hup.
  - rewrite <- (execute_query_live self (opened (self_db self) w)
                  (List.length (handles w)) (mksession true (committed w) 0)
                  q params fetch (live_opened _ _ _ Ho)).
    unfold _execute_query.
    set (K := fun connection : option nat => _). unfold bind.
    rewrite (get_connection_cases _ _ _ Ho), Hs, Hup.
    now rewrite (get_connection_live _ _ _ _ (live_opened _ _ _ Ho)).
  - unfold _execute_query, bind at 1.
    now rewrite (get_connection_cases _ _ _ Ho), Hs, Hup.
Qed.


End Collated30.


Section Collated31.
Context `{coll : Collation}.

(* ================================================================== *)
(** ** [disconnect] *)
(* ================================================================== *)

(** The world [disconnect] leaves when it closes handle [h]. *)
Definition closed (h : nat) (s : session) (w : world) : world :=
  emit (EvLogInfo "Database connection closed successfully")
    (emit (EvClose h)
       (set_handles
          (list_set (handles w) h
             (mksession false (working s) (last_insert_id s))) w)).

Lemma disconnect_cases i w :
  disconnect i w
  = match attr_connection i w with
    | Some h =>
        match session_of w h with
        | Some s => if connected s then (Ok tt, closed h s w) else (Ok tt, w)
        | None => (Ok tt, w)
        end
    | None => (Ok tt, w)
    end.
Proof.
  unfold disconnect, try_except, bind, read.
  destruct (attr_connection i w) as [h|]; [|reflexivity].
  unfold is_connected.
  destruct (session_of w h) as [s|] eqn:Es; [|reflexivity].
  destruct (connected s); [|reflexivity].
  unfold conn_close. rewrite Es. reflexivity.
Qed.

Lemma select_ignores_last_id d nw l l' sel params :
  match exec_stmt d nw l (SSelect sel) params,
        exec_stmt d nw l' (SSelect sel) params with
  | SqlOk o, SqlOk o' => o_rows o = o_rows o'
  | SqlErr e, SqlErr e' => e = e'
  | _, _ => False
  end.
Proof.
  unfold exec_stmt. destruct (require _ _) as [[]|e]; simpl; [|reflexivity].
  destruct (exec_select _ _ _ _); reflexivity.
Qed.

(** X15.  [disconnect] on a live connection closes the handle and logs it,
    but keeps the closed handle in [self.connection]; the committed database
    is untouched, and a second [disconnect] does nothing at all.  The next
    [get_connection] therefore finds the connection stale and, the server
    being reachable, opens a new handle whose session sees the committed
    database only: whatever the closed session had not committed is gone.
    A SELECT through the executor returns after a [disconnect] what it would
    have returned without it. *)
Theorem X15_disconnect_then_reconnect self w h s :
  live (self_db self) w h s ->
  let i := self_db self in
  let w1 := snd (disconnect i w) in
  fst (disconnect i w) = Ok tt
  /\ is_connected w1 h = false
  /\ attr_connection i w1 = Some h
  /\ committed w1 = committed w
  /\ log w1
     = log w ++ [EvClose h; EvLogInfo "Database connection closed successfully"]
  /\ disconnect i w1 = (Ok tt, w1)
  /\ (server_up w = true ->
      fst (get_connection i w1) = Ok (Some (List.length (handles w)))
      /\ session_of (snd (get_connection i w1)) (List.length (handles w))
         = Some (mksession true (committed w) 0))
  /\ (server_up w = true -> working s = committed w ->
      forall sel params,
        fst ((disconnect i ;;; _execute_query self (SSelect sel) params true) w)
        = fst (_execute_query self (SSelect sel) params true w)).
Proof.
  intros Hl i w1. pose proof Hl as (Ha & Hs & Hc).
  assert (E : disconnect i w = (Ok tt, closed h s w)).
  { rewrite disconnect_cases. subst i. now rewrite Ha, Hs, Hc. }
  assert (Hobj : exists o, nth_error (objects (closed h s w)) i = Some o).
  { unfold attr_connection in Ha. subst i. cbn [closed emit set_handles objects].
    destruct (nth_error (objects w) (self_db self)) as [o|]; [eauto|discriminate]. }
  destruct Hobj as [o Ho].
  assert (Hs1 : session_of (closed h s w) h
                = Some (mksession false (working s) (last_insert_id s))).
  { unfold session_of, closed; simpl. apply (nth_error_list_set _ _ _ _ Hs). }
  assert (Ha1 : attr_connection i (closed h s w) = Some h) by exact Ha.
  assert (Hst : stale i (closed h s w) = true).
  { unfold stale, is_connected. now rewrite Ha1, Hs1. }
  assert (Hlen : List.length (handles (closed h s w)) = List.length (handles w)).
  { unfold closed; simpl. apply list_set_length. }
  subst w1. rewrite E. cbn [fst snd]. conjuncts.
  - reflexivity.
  - unfold is_connected. now rewrite Hs1.
  - exact Ha1.
  - reflexivity.
  - unfold closed, emit; simpl. now rewrite <- app_assoc.
  - rewrite disconnect_cases. now rewrite Ha1, Hs1.
  - intros Hup.
    rewrite (get_connection_cases _ _ _ Ho), Hst.
    change (server_up (closed h s w)) with (server_up w). rewrite Hup.
    cbn [fst snd]. rewrite Hlen. split; [reflexivity|].
    unfold session_of, opened; simpl.
    rewrite nth_error_app2 by (rewrite list_set_length; lia).
    now rewrite list_set_length, Nat.sub_diag.
  - intros Hup Hw sel params. unfold bind at 1. rewrite E.
    rewrite (execute_query_stale _ _ _ _ _ _ Ho Hst).
    change (server_up (closed h s w)) with (server_up w). rewrite Hup.
    rewrite (execute_query_live _ _ _ _ _ _ _ Hl).
    unfold executed. cbn [working last_insert_id].
    change (now (opened (self_db self) (closed h s w))) with (now w).
    change (committed (closed h s w)) with (committed w). rewrite Hw.
    pose proof (select_ignores_last_id (committed w) (now w) 0
                  (last_insert_id s) sel params) as Hsel.
    destruct (exec_stmt (committed w) (now w) 0 (SSelect sel) params) as [o1|e1],
             (exec_stmt (committed w) (now w) (last_insert_id s) (SSelect sel)
                params) as [o2|e2]; cbn [fst]; try contradiction.
    + now rewrite Hsel.
    + now rewrite Hsel.
Qed.

End Collated31.

Lemma X15_witness :
  live (self_db me) w_bob 0 s_bob
  /\ fst ((disconnect (self_db me) ;;;
           _execute_query me q_get_user [VInt 1] true) w_bob)
     = fst (_execute_query me q_get_user [VInt 1] true w_bob).
Proof.
  split; [exact (proj1 ready_w_bob)|].
  pose proof (X15_disconnect_then_reconnect me w_bob 0 s_bob (proj1 ready_w_bob))
    as G.
  cbv zeta in G. destruct G as (_ & _ & _ & _ & _ & _ & _ & G).
  assert (Hup : server_up w_bob = true) by (vm_compute; reflexivity).
  unfold q_get_user. apply (G Hup (proj2 ready_w_bob)).
Defined.

Section Collated32.
Context `{coll : Collation}.

(* ================================================================== *)
(** ** [init_database] is not atomic *)
(* ================================================================== *)




End Collated32.



Section Collated33.
Context `{coll : Collation}.

(** X17.  [init_database] with no usable connection and the server
    unreachable raises the connector's error 2003 from [get_connection],
    before its own [try] is entered: no cursor exists, no statement is sent,
    no rollback is issued, and the only message logged is that of
    [connect], not the schema-initialization one.  The connection object has
    been allocated all the same. *)
Theorem X17_init_database_unreachable_server w :
  (forall i, cls_instance w = Some i ->
             (exists o, nth_error (objects w) i = Some o)
             /\ stale i w = true) ->
  server_up w = false ->
  let r := init_database w in
  fst r = Raise (Error 2003)
  /\ log (snd r)
     = log w ++ [EvLogError "Error connecting to MySQL database" (Error 2003)]
  /\ committed (snd r) = committed w
  /\ handles (snd r) = handles w
  /\ cls_instance (snd r) <> None.
Proof.
  intros Hobj Hup r.
  assert (E : exists w',
             init_database w = (Raise (Error CR_CONN_HOST_ERROR), refused w')
             /\ log w' = log w /\ committed w' = committed w
             /\ handles w' = handles w /\ cls_instance w' <> None).
  { unfold init_database, bind at 1. unfold DatabaseConnection_new.
    destruct (cls_instance w) as [i|] eqn:Hi.
    - destruct (Hobj i eq_refl) as [[o Ho] Hs]. exists w.
      unfold bind at 1. rewrite (get_connection_cases _ _ _ Ho), Hs, Hup.
      conjuncts; try reflexivity. congruence.
    - set (w' := set_instance _ _). exists w'.
      assert (Ho : nth_error (objects w') (List.length (objects w))
                   = Some (mkdbconn None)).
      { unfold w'; simpl. now rewrite nth_error_app2, Nat.sub_diag by lia. }
      assert (Hs : stale (List.length (objects w)) w' = true).
      { unfold stale, attr_connection. now rewrite Ho. }
      unfold bind at 1. rewrite (get_connection_cases _ _ _ Ho), Hs.
      change (server_up w') with (server_up w). rewrite Hup.
      conjuncts; try reflexivity. discriminate. }
  destruct E as (w' & E & Hlog & Hcm & Hh & Hc).
  subst r. rewrite E. cbn [fst snd]. unfold refused, emit.
  cbn [log committed handles cls_instance]. rewrite Hlog.
  conjuncts; auto.
Qed.

End Collated33.

Lemma X17_witness :
  server_up (set_server false world0) = false
  /\ fst (init_database (set_server false world0)) = Raise (Error 2003).
Proof.
  split; [reflexivity|].
  apply (X17_init_database_unreachable_server (set_server false world0));
    [|reflexivity].
  intros i Hi. discriminate Hi.
Defined.

Section Collated34.
Context `{coll : Collation}.

(** X18.  Constructing a model opens no connection: [BaseModel.__init__]
    touches neither the handles, nor the committed database, nor the log,
    and the connection object it stores is the class's one instance.  A
    second model stores the same object and changes nothing at all; and the
    object of a first construction holds no connection yet. *)
Theorem X18_models_share_one_lazy_connection w :
  exists m,
    BaseModel_init w = (Ok m, snd (BaseModel_init w))
    /\ cls_instance (snd (BaseModel_init w)) = Some (self_db m)
    /\ handles (snd (BaseModel_init w)) = handles w
    /\ committed (snd (BaseModel_init w)) = committed w
    /\ log (snd (BaseModel_init w)) = log w
    /\ BaseModel_init (snd (BaseModel_init w)) = (Ok m, snd (BaseModel_init w))
    /\ (cls_instance w = None ->
        attr_connection (self_db m) (snd (BaseModel_init w)) = None
        /\ self_db m = List.length (objects w)).
Proof.
  unfold BaseModel_init, bind, DatabaseConnection_new, ret.
  destruct (cls_instance w) as [i|] eqn:Hi.
  - exists (mkBaseModel i). cbn [fst snd]. rewrite Hi.
    conjuncts; try reflexivity. discriminate.
  - exists (mkBaseModel (List.length (objects w))). cbn.
    conjuncts; try reflexivity. intros _. split; [|reflexivity].
    unfold attr_connection; simpl.
    now rewrite nth_error_app2, Nat.sub_diag by lia.
Qed.

End Collated34.
